(** * Pixel-no-Kiseki: the editor core of [app.js], embedded and verified

    The development follows the layout of [app.js]:

    - [State]: the editor state with its undo/redo stacks
      ([saveHistory], [performUndo], [performRedo]);
    - the work canvas, i.e. the part of the Canvas 2D interface that the
      tools call ([fillRect], [clearRect], [getImageData], [putImageData],
      [toDataURL]);
    - [ToolManager]: [execute], [drawPixel], [drawLine], [floodFill],
      [pickColor], [hexToRgb] and the pixel accessors;
    - [UIController.buildColor] and the two mouse handlers of
      [App.initDrawingEvents] that drive [execute].

    Conventions of the embedding.

    - JavaScript numbers that hold integers are [Z]; arrays are lists with
      the oldest element first, so [push] appends, [pop] removes the last
      element and [shift] removes the head.
    - The pixel store of an [ImageData] is a flat byte array that the
      program reads and writes only in aligned groups of four, at offset
      [(y * width + x) * 4]; it is embedded as a list with one [rgba] entry
      per group, at index [y * width + x].  A read outside the array gives
      four [undefined] components, embedded as [None]; a write outside the
      array is ignored, as typed arrays do.
    - The canvas keeps straight 8-bit RGBA values: [putImageData] followed
      by [getImageData] gives the same pixels back.
    - Parsing a CSS colour and compositing it over a pixel belong to the
      browser; they are the two operations of the class [Canvas2D].
    - [notify] runs the subscribers.  The subscribers the application
      registers redraw the display canvas and the widgets; none of them
      writes a field of [State], of [ToolManager] or a pixel of the work
      canvas, so [notify] is the identity on the embedded state and is not
      written out.
    - The two [while] loops take fuel; a result [None] means that the fuel
      ran out (or, for [execute], that 'start' or 'move' ran without numeric
      coordinates, which no caller does). *)

From Stdlib Require Import ZArith List String Ascii Lia Bool QArith HexadecimalString.
From Stdlib Require Import HexadecimalN Qround Qminmax.
From stdpp Require Import base option list.
Import ListNotations.
Local Open Scope Z_scope.

(** ** Pixels and snapshots *)

(** One pixel: the four channels [r, g, b, a]. *)
Record rgba : Type := RGBA { red : Z; green : Z; blue : Z; alpha : Z }.

Definition rgba_eqb (c1 c2 : rgba) : bool :=
  (red c1 =? red c2) && (green c1 =? green c2)
  && (blue c1 =? blue c2) && (alpha c1 =? alpha c2).

Definition transparent : rgba := RGBA 0 0 0 0.

(** What [toDataURL] encodes: the dimensions and the pixels of a canvas. *)
Record Snapshot : Type :=
  { snap_width : Z; snap_height : Z; snap_data : list rgba }.

(** ** 1. State management *)

Inductive Tool : Type := pencil | eraser | fill | eyedropper | hand.

Definition Tool_eqb (t1 t2 : Tool) : bool :=
  match t1, t2 with
  | pencil, pencil | eraser, eraser | fill, fill
  | eyedropper, eyedropper | hand, hand => true
  | _, _ => false
  end.

Record State : Type := mkState
  { width : Z;
    height : Z;
    zoom : Q;
    panX : Q;
    panY : Q;
    currentColor : string;
    currentTool : Tool;
    brushSize : Z;
    settingsVisible : bool;
    isDrawing : bool;
    isPanning : bool;
    history : list Snapshot;
    redoStack : list Snapshot;
    maxHistory : Z }.

(** [new State()]. *)
Definition State_constructor : State :=
  {| width := 16; height := 16; zoom := 30%Q; panX := 0%Q; panY := 0%Q;
     currentColor := "#38bdf8"; currentTool := pencil; brushSize := 1;
     settingsVisible := false; isDrawing := false; isPanning := false;
     history := []; redoStack := []; maxHistory := 50 |}.

(** [update({ isDrawing: b })], [update({ isPanning: b })] and
    [update({ currentColor: c })]: the three partial updates that the
    embedded code performs. *)
Definition update_isDrawing (b : bool) (s : State) : State :=
  mkState (width s) (height s) (zoom s) (panX s) (panY s) (currentColor s)
    (currentTool s) (brushSize s) (settingsVisible s) b (isPanning s)
    (history s) (redoStack s) (maxHistory s).

Definition update_isPanning (b : bool) (s : State) : State :=
  mkState (width s) (height s) (zoom s) (panX s) (panY s) (currentColor s)
    (currentTool s) (brushSize s) (settingsVisible s) (isDrawing s) b
    (history s) (redoStack s) (maxHistory s).

Definition update_currentColor (c : string) (s : State) : State :=
  mkState (width s) (height s) (zoom s) (panX s) (panY s) c
    (currentTool s) (brushSize s) (settingsVisible s) (isDrawing s)
    (isPanning s) (history s) (redoStack s) (maxHistory s).

Definition set_stacks (h r : list Snapshot) (s : State) : State :=
  mkState (width s) (height s) (zoom s) (panX s) (panY s) (currentColor s)
    (currentTool s) (brushSize s) (settingsVisible s) (isDrawing s)
    (isPanning s) h r (maxHistory s).

(** [Array.prototype.shift]: drop the oldest element. *)
Definition shift {A : Type} (l : list A) : list A := tl l.

(** [saveHistory(dataURL)]: push, evict one entry when the length exceeds
    [maxHistory], empty the redo stack. *)
Definition saveHistory (dataURL : Snapshot) (s : State) : State :=
  let pushed := history s ++ [dataURL] in
  let kept := if Z.of_nat (length pushed) >? maxHistory s
              then shift pushed else pushed in
  set_stacks kept [] s.

(** [performUndo()]: the new state and the returned value ([None] is
    [null]). *)
Definition performUndo (s : State) : State * option Snapshot :=
  if Z.of_nat (length (history s)) <=? 1 then (s, None)
  else
    match last (history s) with
    | None => (s, None)
    | Some current =>
        let popped := removelast (history s) in
        (set_stacks popped (redoStack s ++ [current]) s, last popped)
    end.

(** [performRedo()]. *)
Definition performRedo (s : State) : State * option Snapshot :=
  if (length (redoStack s) =? 0)%nat then (s, None)
  else
    match last (redoStack s) with
    | None => (s, None)
    | Some next =>
        (set_stacks (history s ++ [next]) (removelast (redoStack s)) s,
         Some next)
    end.

(** ** The work canvas *)

(** The browser's side of the Canvas 2D interface: [cssColor] parses the
    text assigned to [fillStyle] ([None] when it is not a CSS colour, in
    which case the assignment is ignored), and [sourceOver src dst] is the
    pixel that results from painting [src] over [dst]. *)
Class Canvas2D : Type :=
  { cssColor : string -> option rgba;
    sourceOver : rgba -> rgba -> rgba }.

(** The off-screen canvas with its 2D context: [cv_pixels] is row-major
    with [cv_width] entries per row. *)
Record Canvas : Type := mkCanvas
  { cv_width : Z;
    cv_height : Z;
    cv_pixels : list rgba;
    cv_fillStyle : rgba }.

Definition set_pixels (px : list rgba) (c : Canvas) : Canvas :=
  mkCanvas (cv_width c) (cv_height c) px (cv_fillStyle c).

(** The pixel at [(x, y)]; transparent black outside the canvas. *)
Definition canvas_get (c : Canvas) (x y : Z) : rgba :=
  if (0 <=? x) && (x <? cv_width c) && (0 <=? y) && (y <? cv_height c)
  then default transparent (cv_pixels c !! Z.to_nat (y * cv_width c + x))
  else transparent.

(** Cell [(i, j)] lies in the rectangle with corner [(x, y)] and extent
    [(w, h)]; a negative extent reaches to the left of (above) the corner. *)
Definition in_rect (x y w h i j : Z) : bool :=
  (Z.min x (x + w) <=? i) && (i <? Z.max x (x + w))
  && (Z.min y (y + h) <=? j) && (j <? Z.max y (y + h)).

(** Apply [f] to every pixel of the canvas inside the rectangle. *)
Definition map_rect (f : rgba -> rgba) (c : Canvas) (x y w h : Z) : Canvas :=
  set_pixels
    (imap (fun k p =>
             let i := Z.of_nat k mod cv_width c in
             let j := Z.of_nat k / cv_width c in
             if in_rect x y w h i j then f p else p)
          (cv_pixels c))
    c.

(** [ctx.clearRect(x, y, w, h)]. *)
Definition clearRect (c : Canvas) (x y w h : Z) : Canvas :=
  map_rect (fun _ => transparent) c x y w h.

Section CanvasContext.
Context {browser : Canvas2D}.

(** [ctx.fillStyle = color]. *)
Definition set_fillStyle (color : string) (c : Canvas) : Canvas :=
  match cssColor color with
  | Some parsed => mkCanvas (cv_width c) (cv_height c) (cv_pixels c) parsed
  | None => c
  end.

(** [ctx.fillRect(x, y, w, h)]. *)
Definition fillRect (c : Canvas) (x y w h : Z) : Canvas :=
  map_rect (sourceOver (cv_fillStyle c)) c x y w h.
End CanvasContext.

(** [ctx.getImageData(sx, sy, sw, sh).data], for a positive extent. *)
Definition getImageData (c : Canvas) (sx sy sw sh : Z) : list rgba :=
  map (fun k => canvas_get c (sx + Z.of_nat k mod sw) (sy + Z.of_nat k / sw))
      (seq 0 (Z.to_nat (sw * sh))).

(** [ctx.putImageData(imgData, 0, 0)] for an image of [sw] by [sh] pixels. *)
Definition putImageData (c : Canvas) (data : list rgba) (sw sh : Z) : Canvas :=
  set_pixels
    (imap (fun k p =>
             let i := Z.of_nat k mod cv_width c in
             let j := Z.of_nat k / cv_width c in
             if (i <? sw) && (j <? sh)
             then default p (data !! Z.to_nat (j * sw + i))
             else p)
          (cv_pixels c))
    c.

(** [canvas.toDataURL()]. *)
Definition toDataURL (c : Canvas) : Snapshot :=
  {| snap_width := cv_width c; snap_height := cv_height c;
     snap_data := cv_pixels c |}.

(** ** Strings and numbers of the colour code *)

(** The value of a hexadecimal digit: the class [[a-f\d]] under the [i]
    flag. *)
Definition hex_digit (ch : ascii) : option Z :=
  let n := Z.of_N (N_of_ascii ch) in
  if (48 <=? n) && (n <=? 57) then Some (n - 48)
  else if (97 <=? n) && (n <=? 102) then Some (n - 87)
  else if (65 <=? n) && (n <=? 70) then Some (n - 55)
  else None.

(** [parseInt(hi + lo, 16)] for a group [([a-f\d]{2})]. *)
Definition parse_hex_pair (hi lo : ascii) : option Z :=
  match hex_digit hi, hex_digit lo with
  | Some h, Some l => Some (16 * h + l)
  | _, _ => None
  end.

(** [n.toString(16)] for an integer [n]. *)
Definition toString16 (n : Z) : string :=
  if n <? 0
  then String "-" (NilZero.string_of_uint (N.to_hex_uint (Z.to_N (- n))))
  else NilZero.string_of_uint (N.to_hex_uint (Z.to_N n)).

(** [s.slice(1)]. *)
Definition slice1 (s : string) : string :=
  match s with
  | EmptyString => EmptyString
  | String _ rest => rest
  end.

(** The lower-case form of a character: of the letters A to Z and, above
    127, of the capitals of Latin-1, which are the codes 192 to 222 without
    the multiplication sign 215. *)
Definition lower_ascii (ch : ascii) : ascii :=
  let n := N_of_ascii ch in
  if (((65 <=? n) && (n <=? 90))
      || ((192 <=? n) && (n <=? 222) && negb (n =? 215)))%N
  then ascii_of_N (n + 32) else ch.

(** [s.toLowerCase()] on the characters a [string] can hold. *)
Fixpoint toLowerCase (s : string) : string :=
  match s with
  | EmptyString => EmptyString
  | String ch rest => String (lower_ascii ch) (toLowerCase rest)
  end.

Fixpoint repeat_char (ch : ascii) (n : nat) : string :=
  match n with
  | O => EmptyString
  | S n' => String ch (repeat_char ch n')
  end.

(** [s.padStart(n, ch)] for a one-character pad. *)
Definition padStart (n : nat) (ch : ascii) (s : string) : string :=
  (repeat_char ch (n - String.length s) ++ s)%string.

(** ** 4. Tool management *)

(** The objects the tools work on: the editor state, the work canvas and
    the two fields [lastX], [lastY] of the tool manager. *)
Record World : Type := mkWorld
  { state : State;
    workCanvas : Canvas;
    lastX : Z;
    lastY : Z }.

(** [execute] returns the string ['SHOULD_SAVE_HISTORY'] or [undefined]. *)
Inductive Signal : Type := SHOULD_SAVE_HISTORY.

Inductive Action : Type := start | move | end_.

(** A call argument: a number, or [None] for an argument left out
    ([undefined]).  Comparing [undefined] with a number is false. *)
Definition js_lt (a : option Z) (b : Z) : bool :=
  match a with Some n => n <? b | None => false end.

Definition js_ge (a : option Z) (b : Z) : bool :=
  match a with Some n => n >=? b | None => false end.

(** [getPixelColor(x, y, data)]: the four components at index
    [(y * width + x) * 4], [None] when they are [undefined]. *)
Definition getPixelColor (s : State) (x y : Z) (data : list rgba) : option rgba :=
  let i := y * width s + x in
  if i <? 0 then None else data !! Z.to_nat i.

(** [setPixelData(x, y, data, rgba)]. *)
Definition setPixelData (s : State) (x y : Z) (data : list rgba) (c : rgba)
  : list rgba :=
  let i := y * width s + x in
  if i <? 0 then data else <[Z.to_nat i := c]> data.

(** [colorsMatch(c1, c2)]: strict equality of the four components. *)
Definition colorsMatch (c1 c2 : option rgba) : bool :=
  match c1, c2 with
  | Some p, Some q => rgba_eqb p q
  | None, None => true
  | _, _ => false
  end.

(** The prefix [^#?] of the regular expression of [hexToRgb]: it takes a
    leading ['#'] when there is one, and no hexadecimal digit is a ['#']. *)
Definition strip_hash (hex : string) : string :=
  match hex with
  | String "#" rest => rest
  | _ => hex
  end.

(** The regular expression [/^#?([a-f\d]{2})([a-f\d]{2})([a-f\d]{2})$/i]:
    an optional ['#'], three groups of two hexadecimal digits, end of input.
    The result holds the three groups, already read as numbers. *)
Definition hex_regex_exec (hex : string) : option (Z * Z * Z) :=
  match strip_hash hex with
  | String c1 (String c2 (String c3 (String c4 (String c5 (String c6 EmptyString))))) =>
      match parse_hex_pair c1 c2, parse_hex_pair c3 c4, parse_hex_pair c5 c6 with
      | Some r, Some g, Some b => Some (r, g, b)
      | _, _, _ => None
      end
  | _ => None
  end.

(** [hexToRgb(hex)]. *)
Definition hexToRgb (hex : string) : rgba :=
  match hex_regex_exec hex with
  | Some (r, g, b) => RGBA r g b 255
  | None => RGBA 0 0 0 255
  end.

(** The rectangle [(cx, cy, cw, ch)] that [drawPixel] hands to the canvas. *)
Definition brushRect (s : State) (x y : Z) : Z * Z * Z * Z :=
  let b := if brushSize s =? 0 then 1 else brushSize s in
  let half := b / 2 in
  let px := x - half in
  let py := y - half in
  let cx := Z.max 0 px in
  let cy := Z.max 0 py in
  let cw := Z.min b (width s - cx) in
  let ch := Z.min b (height s - cy) in
  (cx, cy, cw, ch).

Section Tools.
Context {browser : Canvas2D}.

(** [drawPixel(x, y, color)]. *)
Definition drawPixel (s : State) (c : Canvas) (x y : Z) (color : string)
  : Canvas :=
  let '(cx, cy, cw, ch) := brushRect s x y in
  if Tool_eqb (currentTool s) eraser
  then clearRect c cx cy cw ch
  else fillRect (set_fillStyle color c) cx cy cw ch.

(** The body of the loop of [drawLine] after the stamp and the test:
    the new [(x0, y0, err)]. *)
Definition line_step (x0 y0 dx dy sx sy err : Z) : Z * Z * Z :=
  let e2 := 2 * err in
  let '(err, x0) := if e2 >? - dy then (err - dy, x0 + sx) else (err, x0) in
  let '(err, y0) := if e2 <? dx then (err + dx, y0 + sy) else (err, y0) in
  (x0, y0, err).

(** The [while (true)] loop of [drawLine]; [plot x0 y0] stands for the
    call [this.drawPixel(x0, y0, color)] acting on [acc]. *)
Fixpoint drawLine_loop {A : Type} (plot : Z -> Z -> A -> A) (fuel : nat)
  (acc : A) (x0 y0 x1 y1 dx dy sx sy err : Z) : option A :=
  match fuel with
  | O => None
  | S fuel' =>
      let acc := plot x0 y0 acc in
      if (x0 =? x1) && (y0 =? y1) then Some acc
      else
        let '(x0', y0', err') := line_step x0 y0 dx dy sx sy err in
        drawLine_loop plot fuel' acc x0' y0' x1 y1 dx dy sx sy err'
  end.

(** [drawLine(x0, y0, x1, y1, color)], generic in the stamp. *)
Definition drawLine_with {A : Type} (plot : Z -> Z -> A -> A) (fuel : nat)
  (acc : A) (x0 y0 x1 y1 : Z) : option A :=
  let dx := Z.abs (x1 - x0) in
  let dy := Z.abs (y1 - y0) in
  let sx := if x0 <? x1 then 1 else -1 in
  let sy := if y0 <? y1 then 1 else -1 in
  let err := dx - dy in
  drawLine_loop plot fuel acc x0 y0 x1 y1 dx dy sx sy err.

(** [drawLine] as the program runs it, stamping the work canvas. *)
Definition drawLine (fuel : nat) (s : State) (c : Canvas)
  (x0 y0 x1 y1 : Z) (color : string) : option Canvas :=
  drawLine_with (fun x y c => drawPixel s c x y color) fuel c x0 y0 x1 y1.

(** The same walk, recording the cells handed to [drawPixel] in order. *)
Definition drawLine_cells (fuel : nat) (x0 y0 x1 y1 : Z)
  : option (list (Z * Z)) :=
  drawLine_with (fun x y cells => cells ++ [(x, y)]) fuel [] x0 y0 x1 y1.
End Tools.

(** The four [queue.push] statements of [floodFill]. *)
Definition push_neighbours (s : State) (x y : Z) (queue : list (Z * Z))
  : list (Z * Z) :=
  let queue := if x >? 0 then queue ++ [(x - 1, y)] else queue in
  let queue := if x <? width s - 1 then queue ++ [(x + 1, y)] else queue in
  let queue := if y >? 0 then queue ++ [(x, y - 1)] else queue in
  let queue := if y <? height s - 1 then queue ++ [(x, y + 1)] else queue in
  queue.

(** The [while (queue.length > 0)] loop of [floodFill]. *)
Fixpoint floodFill_loop (fuel : nat) (s : State) (targetColor : option rgba)
  (fillRGBA : rgba) (data : list rgba) (queue : list (Z * Z))
  : option (list rgba) :=
  match queue with
  | [] => Some data
  | (x, y) :: queue' =>
      match fuel with
      | O => None
      | S fuel' =>
          let currentColor := getPixelColor s x y data in
          if colorsMatch currentColor targetColor
          then floodFill_loop fuel' s targetColor fillRGBA
                 (setPixelData s x y data fillRGBA)
                 (push_neighbours s x y queue')
          else floodFill_loop fuel' s targetColor fillRGBA data queue'
      end
  end.

(** [floodFill(startX, startY, fillColor)]. *)
Definition floodFill (fuel : nat) (s : State) (c : Canvas)
  (startX startY : Z) (fillColor : string) : option Canvas :=
  let data := getImageData c 0 0 (width s) (height s) in
  let targetColor := getPixelColor s startX startY data in
  let fillRGBA := hexToRgb fillColor in
  if colorsMatch targetColor (Some fillRGBA) then Some c
  else
    match floodFill_loop fuel s targetColor fillRGBA data [(startX, startY)] with
    | Some data' => Some (putImageData c data' (width s) (height s))
    | None => None
    end.

(** [pickColor(x, y)]; the shifts act on bytes, so they do not wrap. *)
Definition pickColor (s : State) (c : Canvas) (x y : Z) : State :=
  let data := default transparent (getImageData c x y 1 1 !! 0%nat) in
  if alpha data >? 0
  then
    let hex := String "#"
                 (slice1 (toString16 (Z.shiftl 1 24 + Z.shiftl (red data) 16
                                      + Z.shiftl (green data) 8 + blue data))) in
    update_currentColor hex s
  else s.

Section Execute.
Context {browser : Canvas2D}.

(** [execute(action, x, y)]: the world after the call and the value
    returned. *)
Definition execute (fuel : nat) (w : World) (action : Action)
  (x y : option Z) : option (World * option Signal) :=
  let s := state w in
  if js_lt x 0 || js_ge x (width s) || js_lt y 0 || js_ge y (height s)
  then Some (w, None)
  else
    let tool := currentTool s in
    let color := currentColor s in
    match action with
    | start =>
        match x, y with
        | Some x, Some y =>
            let s := update_isDrawing true s in
            match tool with
            | fill =>
                match floodFill fuel s (workCanvas w) x y color with
                | Some c => Some (mkWorld s c (lastX w) (lastY w), None)
                | None => None
                end
            | eyedropper =>
                Some (mkWorld (pickColor s (workCanvas w) x y) (workCanvas w)
                        (lastX w) (lastY w), None)
            | _ =>
                Some (mkWorld s (drawPixel s (workCanvas w) x y color) x y,
                      None)
            end
        | _, _ => None
        end
    | move =>
        if negb (isDrawing s) then Some (w, None)
        else
          match tool with
          | pencil | eraser =>
              match x, y with
              | Some x, Some y =>
                  match drawLine fuel s (workCanvas w) (lastX w) (lastY w)
                          x y color with
                  | Some c => Some (mkWorld s c x y, None)
                  | None => None
                  end
              | _, _ => None
              end
          | _ => Some (w, None)
          end
    | end_ =>
        if isDrawing s
        then Some (mkWorld (update_isDrawing false s) (workCanvas w)
                     (lastX w) (lastY w), Some SHOULD_SAVE_HISTORY)
        else Some (w, None)
    end.

(** ** The callers of [execute] in [App.initDrawingEvents] *)

(** [if (... === 'SHOULD_SAVE_HISTORY') state.saveHistory(this.workCanvas.toDataURL())] *)
Definition save_if_signalled (r : option Signal) (w : World) : World :=
  match r with
  | Some SHOULD_SAVE_HISTORY =>
      mkWorld (saveHistory (toDataURL (workCanvas w)) (state w))
        (workCanvas w) (lastX w) (lastY w)
  | None => w
  end.

(** What the handlers read from a mouse event: the button, the Alt key
    and the cell that [screenToPixel] computes. *)
Record MouseEvent : Type :=
  { button : Z; altKey : bool; cellX : Z; cellY : Z }.

(** [canvas.onmousedown]. *)
Definition onmousedown (fuel : nat) (w : World) (e : MouseEvent)
  : option World :=
  let s := state w in
  if (button e =? 1)
     || ((button e =? 0)
         && (altKey e || isPanning s || Tool_eqb (currentTool s) hand))
  then Some (mkWorld (update_isPanning true s) (workCanvas w)
               (lastX w) (lastY w))
  else if button e =? 0
  then
    match execute fuel w start (Some (cellX e)) (Some (cellY e)) with
    | Some (w', r) => Some (save_if_signalled r w')
    | None => None
    end
  else Some w.

(** [window.onmouseup]: [execute('end')] is called without coordinates. *)
Definition onmouseup (fuel : nat) (w : World) : option World :=
  match execute fuel w end_ None None with
  | Some (w', r) =>
      let w'' := save_if_signalled r w' in
      Some (mkWorld (update_isPanning false (state w'')) (workCanvas w'')
              (lastX w'') (lastY w''))
  | None => None
  end.
End Execute.

(** [UIController.buildColor(hex6, alpha)] for an integer [alpha]. *)
Definition buildColor (hex6 : string) (alpha : Z) : string :=
  if alpha >=? 255 then toLowerCase hex6
  else (toLowerCase hex6 ++ padStart 2 "0" (toString16 alpha))%string.

(** [new ToolManager(state, viewport, workCtx)] on a cleared canvas of the
    size of the grid, as [App] sets it up before the first snapshot.  The
    viewport is still empty then: the [autoFit] of the constructor returns
    at once, and zoom and pan keep the values of [new State()]. *)
Definition blank_canvas (w h : Z) : Canvas :=
  mkCanvas w h (replicate (Z.to_nat (w * h)) transparent) (RGBA 0 0 0 255).

Definition App_constructor : World :=
  let c := blank_canvas (width State_constructor) (height State_constructor) in
  mkWorld (saveHistory (toDataURL c) State_constructor) c (-1) (-1).

(** A browser cut down to opaque six-digit colours, to run the tools on
    examples: it parses what [hexToRgb] accepts and paints without
    blending. *)
Definition opaque_browser : Canvas2D :=
  {| cssColor := fun text =>
       match hex_regex_exec text with
       | Some (r, g, b) => Some (RGBA r g b 255)
       | None => None
       end;
     sourceOver := fun src _ => src |}.

(** ** Vocabulary of the statements *)

(** [saveHistory] called on each snapshot of [l] in turn. *)
Definition pushAll (l : list Snapshot) (s : State) : State :=
  fold_left (fun s d => saveHistory d s) l s.

(** The states that the three history operations and the three partial
    updates reach from [new State()]. *)
Inductive reachable : State -> Prop :=
| reach_new : reachable State_constructor
| reach_save d s : reachable s -> reachable (saveHistory d s)
| reach_undo s : reachable s -> reachable (performUndo s).1
| reach_redo s : reachable s -> reachable (performRedo s).1
| reach_drawing b s : reachable s -> reachable (update_isDrawing b s)
| reach_panning b s : reachable s -> reachable (update_isPanning b s)
| reach_color c s : reachable s -> reachable (update_currentColor c s).

(** The cells of the grid. *)
Definition in_grid (w h x y : Z) : Prop := 0 <= x < w /\ 0 <= y < h.

(** The work canvas has the size of the grid, as every path of the
    application that resizes one resizes the other. *)
Definition synced (s : State) (c : Canvas) : Prop :=
  cv_width c = width s /\ cv_height c = height s
  /\ 0 < width s /\ 0 < height s
  /\ length (cv_pixels c) = Z.to_nat (width s * height s).

(** Two cells that share an edge. *)
Definition neighbour4 (x y x' y' : Z) : Prop :=
  (x' = x - 1 /\ y' = y) \/ (x' = x + 1 /\ y' = y)
  \/ (x' = x /\ y' = y - 1) \/ (x' = x /\ y' = y + 1).

(** The 4-connected component of the seed [(sx, sy)] among the cells of
    colour [target], for a grid coloured by [col]. *)
Inductive connected (w h : Z) (col : Z -> Z -> rgba) (target : rgba)
  (sx sy : Z) : Z -> Z -> Prop :=
| connected_seed :
    in_grid w h sx sy -> col sx sy = target ->
    connected w h col target sx sy sx sy
| connected_step x y x' y' :
    connected w h col target sx sy x y ->
    neighbour4 x y x' y' -> in_grid w h x' y' -> col x' y' = target ->
    connected w h col target sx sy x' y'.

(** The entry of cell [(x, y)] in an image array of the width of the
    grid. *)
Definition px (s : State) (data : list rgba) (x y : Z) : option rgba :=
  data !! Z.to_nat (y * width s + x).

(** Number of entries of colour [t]. *)
Definition count_color (t : rgba) (data : list rgba) : nat :=
  length (List.filter (fun c => rgba_eqb c t) data).

(** Fuel that lets the loop of [floodFill] finish from a seed in the grid:
    every turn of the loop either repaints a cell of the target colour,
    adding at most four cells to the queue, or only shortens the queue. *)
Definition fill_fuel (s : State) : nat :=
  S (4 * Z.to_nat (width s * height s)).

(** The invariant of the loop of [floodFill], for a grid first coloured by
    [col], target colour [t], fill colour [f] and seed [(sx, sy)]:
    the array keeps its length; a queued cell is in the grid and, if its
    first colour is [t], in the component of the seed; a cell either keeps
    its first colour or is a repainted cell of the component; an unpainted
    neighbour of a repainted cell is queued; the seed is queued until it is
    repainted. *)
Definition flood_inv (s : State) (col : Z -> Z -> rgba) (t f : rgba)
  (sx sy : Z) (data : list rgba) (queue : list (Z * Z)) : Prop :=
  length data = Z.to_nat (width s * height s)
  /\ (forall x y, (x, y) ∈ queue ->
        in_grid (width s) (height s) x y
        /\ (col x y = t -> connected (width s) (height s) col t sx sy x y))
  /\ (forall x y, in_grid (width s) (height s) x y ->
        px s data x y = Some (col x y)
        \/ (col x y = t /\ px s data x y = Some f
            /\ connected (width s) (height s) col t sx sy x y))
  /\ (forall x y x' y',
        in_grid (width s) (height s) x y ->
        in_grid (width s) (height s) x' y' ->
        neighbour4 x y x' y' -> col x y = t -> px s data x y = Some f ->
        px s data x' y' = Some t -> (x', y') ∈ queue)
  /\ (px s data sx sy = Some t -> (sx, sy) ∈ queue).

(** Consecutive cells of a path differ by at most one in each coordinate. *)
Definition step8 (p q : Z * Z) : Prop :=
  Z.abs (q.1 - p.1) <= 1 /\ Z.abs (q.2 - p.2) <= 1.

Fixpoint chain8 (cells : list (Z * Z)) : Prop :=
  match cells with
  | p :: (q :: _) as rest => step8 p q /\ chain8 rest
  | _ => True
  end.

(** The walk of [drawLine] as a list built from the front: the cell that is
    stamped, then the cells of the rest of the walk. *)
Fixpoint line_cells (fuel : nat) (x0 y0 x1 y1 dx dy sx sy err : Z)
  : option (list (Z * Z)) :=
  match fuel with
  | O => None
  | S fuel' =>
      if (x0 =? x1) && (y0 =? y1) then Some [(x0, y0)]
      else
        let '(x0', y0', err') := line_step x0 y0 dx dy sx sy err in
        match line_cells fuel' x0' y0' x1 y1 dx dy sx sy err' with
        | Some rest => Some ((x0, y0) :: rest)
        | None => None
        end
  end.

(** Fuel that lets the walk from [(x0, y0)] to [(x1, y1)] finish. *)
Definition line_fuel (x0 y0 x1 y1 : Z) : nat :=
  S (Z.to_nat (Z.abs (x1 - x0) + Z.abs (y1 - y0))).

(** The colour texts that the regular expression of [hexToRgb] accepts,
    said without the matcher: six hexadecimal digits after an optional
    ['#']. *)
Definition is_hex_digit (ch : ascii) : Prop :=
  In ch (list_ascii_of_string "0123456789abcdefABCDEF").

Definition six_hex_digits (t : string) : Prop :=
  String.length t = 6%nat /\ Forall is_hex_digit (list_ascii_of_string t).

Definition hex6_form (hex : string) : Prop :=
  exists t, six_hex_digits t /\ (hex = t \/ hex = String "#" t).

(** A press of the main button on cell [(x, y)] followed by its release. *)
Definition click {browser : Canvas2D} (fuel : nat) (w : World) (x y : Z)
  : option World :=
  match onmousedown fuel w
          {| button := 0; altKey := false; cellX := x; cellY := y |} with
  | Some w' => onmouseup fuel w'
  | None => None
  end.

(** ** Concrete worlds for the examples *)

(** The editor just after start-up, with another tool, colour and brush. *)
Definition world_with (tool : Tool) (color : string) (brush : Z) : World :=
  let s := state App_constructor in
  mkWorld
    (mkState (width s) (height s) (zoom s) (panX s) (panY s) color tool brush
       (settingsVisible s) (isDrawing s) (isPanning s)
       (history s) (redoStack s) (maxHistory s))
    (workCanvas App_constructor) (lastX App_constructor) (lastY App_constructor).

(** The editor after one pencil dot at [(3, 4)] was drawn, committed and
    undone, and the eyedropper was chosen: the blank start-up snapshot is in
    [history], the snapshot with the dot is in [redoStack] and the canvas is
    blank again. *)
Definition dot_snapshot : Snapshot :=
  toDataURL
    (drawPixel (browser := opaque_browser) (state App_constructor)
       (workCanvas App_constructor) 3 4 "#38bdf8").

Definition eyedropper_after_undo : World :=
  let s := state (world_with eyedropper "#38bdf8" 1) in
  mkWorld (set_stacks (history s) [dot_snapshot] s)
    (workCanvas App_constructor) 3 4.

(** A grid of three by three cells with the fill tool: a blue block of two
    by two cells in the lower right corner, the other five cells
    transparent. *)
Definition small_state (tool : Tool) (color : string) (brush : Z) : State :=
  mkState 3 3 30%Q 0%Q 0%Q color tool brush false false false [] [] 50.

Definition opaque_blue : rgba := RGBA 0 0 255 255.

Definition block_canvas : Canvas :=
  mkCanvas 3 3
    [transparent; transparent; transparent;
     transparent; opaque_blue; opaque_blue;
     transparent; opaque_blue; opaque_blue]
    (RGBA 0 0 0 255).

(** Sixty snapshots that differ in their width field, numbered from 0. *)
Definition numbered_snapshot (n : nat) : Snapshot :=
  {| snap_width := Z.of_nat n; snap_height := 1; snap_data := [transparent] |}.

Definition sixty_snapshots : list Snapshot := map numbered_snapshot (seq 0 60).

(** * More of [app.js] *)

(** ** Repeated undo and redo *)

(** [performUndo()] called [n] times in a row, and [performRedo()] called
    [n] times in a row: the state that results. *)
Fixpoint undo_times (n : nat) (s : State) : State :=
  match n with
  | O => s
  | S n' => undo_times n' (performUndo s).1
  end.

Fixpoint redo_times (n : nat) (s : State) : State :=
  match n with
  | O => s
  | S n' => (performRedo (redo_times n' s)).1
  end.

(** ** 7. The colour code of [UIController] *)

(** The white space and line terminators of JavaScript among the characters
    a [string] can hold: TAB, LF, VT, FF, CR, space and NBSP. *)
Definition is_js_space (ch : ascii) : bool :=
  let n := N_of_ascii ch in
  (((9 <=? n) && (n <=? 13)) || (n =? 32) || (n =? 160))%N.

Fixpoint trimStart (s : string) : string :=
  match s with
  | String ch rest => if is_js_space ch then trimStart rest else s
  | EmptyString => EmptyString
  end.

Definition string_rev (s : string) : string :=
  string_of_list_ascii (rev (list_ascii_of_string s)).

(** [s.trim()]. *)
Definition trim (s : string) : string :=
  string_rev (trimStart (string_rev (trimStart s))).

(** [h.split('').map(c => c + c).join('')]. *)
Fixpoint double_chars (s : string) : string :=
  match s with
  | String ch rest => String ch (String ch (double_chars rest))
  | EmptyString => EmptyString
  end.

(** [s.padEnd(n, ch)] for a one-character pad. *)
Definition padEnd (n : nat) (ch : ascii) (s : string) : string :=
  (s ++ repeat_char ch (n - String.length s))%string.

(** The value of the longest prefix of hexadecimal digits, [None] when the
    prefix is empty. *)
Fixpoint hex_prefix_value (s : string) (acc : option Z) : option Z :=
  match s with
  | String ch rest =>
      match hex_digit ch with
      | Some d => hex_prefix_value rest (Some (16 * default 0 acc + d))
      | None => acc
      end
  | EmptyString => acc
  end.

(** The sign that [parseInt] reads first, and the prefix [0x] or [0X] that
    it skips for radix 16. *)
Definition strip_sign (s : string) : Z * string :=
  match s with
  | String "-" rest => (-1, rest)
  | String "+" rest => (1, rest)
  | _ => (1, s)
  end.

Definition strip_0x (s : string) : string :=
  match s with
  | String "0" (String "x" rest) => rest
  | String "0" (String "X" rest) => rest
  | _ => s
  end.

(** [parseInt(s, 16)], [None] for [NaN]: leading white space, a sign, a
    prefix [0x] or [0X], then the digits.  The value is exact while it stays
    below 2^53; [parseColor] passes two characters. *)
Definition parseInt16 (s : string) : option Z :=
  let '(sign, s) := strip_sign (trimStart s) in
  match hex_prefix_value (strip_0x s) None with
  | Some v => Some (sign * v)
  | None => None
  end.

(** The object [{ hex6, alpha }] that [parseColor] returns. *)
Record ParsedColor : Type := { pc_hex6 : string; pc_alpha : Z }.

(** [parseColor(raw)]. *)
Definition parseColor (raw : string) : ParsedColor :=
  let h := strip_hash (trim raw) in
  let h := if (String.length h =? 3)%nat then double_chars h else h in
  let hex6 := String "#" (padEnd 6 "0" (substring 0 6 h)) in
  let alpha := if (8 <=? String.length h)%nat
               then parseInt16 (substring 6 2 h) else Some 255 in
  {| pc_hex6 := hex6; pc_alpha := default 255 alpha |}.

(** The click handler of a palette swatch of colour [color]. *)
Definition swatch_onclick (color : string) (s : State) : State :=
  let alpha := pc_alpha (parseColor (currentColor s)) in
  update_currentColor (buildColor color alpha) s.

(** The input handler of the alpha slider; [value] is
    [parseInt(alphaSl.value)]. *)
Definition alphaSlider_oninput (value : Z) (s : State) : State :=
  let hex6 := pc_hex6 (parseColor (currentColor s)) in
  update_currentColor (buildColor hex6 value) s.

(** The test [/^#?[0-9a-fA-F]{6}([0-9a-fA-F]{2})?$/] of the hex text input. *)
Definition hexInput_test (raw : string) : bool :=
  let body := strip_hash raw in
  ((String.length body =? 6)%nat || (String.length body =? 8)%nat)
  && forallb (fun ch => bool_decide (is_Some (hex_digit ch)))
       (list_ascii_of_string body).

(** [raw.startsWith('#')]. *)
Definition startsWith_hash (raw : string) : bool :=
  match raw with
  | String "#" _ => true
  | _ => false
  end.

(** The input handler of the hex text input; [value] is [hexIn.value]. *)
Definition hexInput_oninput (value : string) (s : State) : State :=
  let raw := trim value in
  if hexInput_test raw
  then
    let full := if startsWith_hash raw then raw else String "#" raw in
    let p := parseColor full in
    update_currentColor (buildColor (pc_hex6 p) (pc_alpha p)) s
  else s.

(** The hexadecimal digit of value [k], for [0 <= k < 16]: as a digit of
    the standard library's numerals and as the character that [toString(16)]
    prints. *)
Definition nibble_digit (k : Z) (d : Hexadecimal.uint) : Hexadecimal.uint :=
  match k with
  | 1 => Hexadecimal.D1 d | 2 => Hexadecimal.D2 d | 3 => Hexadecimal.D3 d
  | 4 => Hexadecimal.D4 d | 5 => Hexadecimal.D5 d | 6 => Hexadecimal.D6 d
  | 7 => Hexadecimal.D7 d | 8 => Hexadecimal.D8 d | 9 => Hexadecimal.D9 d
  | 10 => Hexadecimal.Da d | 11 => Hexadecimal.Db d | 12 => Hexadecimal.Dc d
  | 13 => Hexadecimal.Dd d | 14 => Hexadecimal.De d | 15 => Hexadecimal.Df d
  | _ => Hexadecimal.D0 d
  end.

Definition nibble_char (k : Z) : ascii :=
  match k with
  | 1 => "1" | 2 => "2" | 3 => "3" | 4 => "4" | 5 => "5" | 6 => "6"
  | 7 => "7" | 8 => "8" | 9 => "9" | 10 => "a" | 11 => "b" | 12 => "c"
  | 13 => "d" | 14 => "e" | 15 => "f" | _ => "0"
  end%char.

(** The two lower-case digits of a byte. *)
Definition byte_hex (v : Z) (rest : string) : string :=
  String (nibble_char (v / 16)) (String (nibble_char (v mod 16)) rest).

(** ** The mouse handlers around a drag *)

(** The arithmetic of the engine where the program leaves the integers:
    [float_add a b] is the binary64 sum of the doubles [a] and [b], the
    value of the expression [a + b].  The pan is such a number: it is half
    an integer after [autoFit] and [centerOnly] and any double after a
    zoom with the wheel. *)
Class Float64 : Type :=
  { float_add : Q -> Q -> Q }.

(** [update({ panX: x, panY: y })]. *)
Definition update_pan (x y : Q) (s : State) : State :=
  mkState (width s) (height s) (zoom s) x y (currentColor s)
    (currentTool s) (brushSize s) (settingsVisible s) (isDrawing s)
    (isPanning s) (history s) (redoStack s) (maxHistory s).

(** What [window.onmousemove] reads from the event: the two movements, in
    whole pixels, and the cell that [screenToPixel] computes. *)
Record MouseMoveEvent : Type :=
  { movementX : Z; movementY : Z; moveCellX : Z; moveCellY : Z }.

(** [window.onmousemove]. *)
Definition onmousemove {browser : Canvas2D} {engine : Float64} (fuel : nat)
  (w : World) (e : MouseMoveEvent) : option World :=
  let s := state w in
  if isPanning s
  then Some (mkWorld
               (update_pan (float_add (panX s) (inject_Z (movementX e)))
                  (float_add (panY s) (inject_Z (movementY e))) s)
               (workCanvas w) (lastX w) (lastY w))
  else if isDrawing s
  then
    match execute fuel w move (Some (moveCellX e)) (Some (moveCellY e)) with
    | Some (w', r) => Some (save_if_signalled r w')
    | None => None
    end
  else Some w.

(** The mouse moves of [moves], one after the other. *)
Fixpoint drag {browser : Canvas2D} {engine : Float64} (fuel : nat)
  (w : World) (moves : list MouseMoveEvent) : option World :=
  match moves with
  | [] => Some w
  | e :: rest =>
      match onmousemove fuel w e with
      | Some w' => drag fuel w' rest
      | None => None
      end
  end.

(** A press, the moves and the release. *)
Definition gesture {browser : Canvas2D} {engine : Float64} (fuel : nat)
  (w : World) (down : MouseEvent) (moves : list MouseMoveEvent)
  : option World :=
  match onmousedown fuel w down with
  | Some w1 =>
      match drag fuel w1 moves with
      | Some w2 => onmouseup fuel w2
      | None => None
      end
  | None => None
  end.

(** ** 2./3. Coordinate and viewport management

    The viewport sizes are [clientWidth] and [clientHeight], which are
    integers, and the grid is at most 320 cells wide and high; the quotients
    of [calculateFit] are rationals here, and in that range the double
    quotient has the same floor as the exact one. *)

(** The object [{ zoom, panX, panY }] that [calculateFit] returns. *)
Record Fit : Type := { fit_zoom : Z; fit_panX : Q; fit_panY : Q }.

(** [calculateFit(viewportWidth, viewportHeight, padding)]. *)
Definition calculateFit (s : State) (viewportWidth viewportHeight padding : Z)
  : Fit :=
  let availableW := Z.max 10 (viewportWidth - padding) in
  let availableH := Z.max 10 (viewportHeight - padding) in
  let scaleW := (inject_Z availableW / inject_Z (width s))%Q in
  let scaleH := (inject_Z availableH / inject_Z (height s))%Q in
  let zoom := Qfloor (Qmin scaleW scaleH) in
  let zoom := Z.max 1 (Z.min 100 zoom) in
  {| fit_zoom := zoom;
     fit_panX := (inject_Z (viewportWidth - width s * zoom) / 2)%Q;
     fit_panY := (inject_Z (viewportHeight - height s * zoom) / 2)%Q |}.

(** [update({ zoom: z, panX: x, panY: y })] and
    [update({ width: w, height: h })]. *)
Definition update_view (z x y : Q) (s : State) : State :=
  mkState (width s) (height s) z x y (currentColor s)
    (currentTool s) (brushSize s) (settingsVisible s) (isDrawing s)
    (isPanning s) (history s) (redoStack s) (maxHistory s).

Definition update_size (w h : Z) (s : State) : State :=
  mkState w h (zoom s) (panX s) (panY s) (currentColor s)
    (currentTool s) (brushSize s) (settingsVisible s) (isDrawing s)
    (isPanning s) (history s) (redoStack s) (maxHistory s).

(** [autoFit()] for a viewport of [vw] by [vh] pixels, with the default
    padding of 100. *)
Definition autoFit (vw vh : Z) (s : State) : State :=
  if (vw =? 0) || (vh =? 0) then s
  else
    let result := calculateFit s vw vh 100 in
    update_view (inject_Z (fit_zoom result)) (fit_panX result)
      (fit_panY result) s.

(** [syncDisplaySize()]: the size that the display canvas has after a
    render of state [s]. *)
Definition syncDisplaySize (s : State) : Z * Z :=
  let z := Z.max 1 (Qfloor (zoom s)) in
  (width s * z, height s * z).

(** [applyTransform()]: the translation, in whole pixels, that the
    container of the display canvas gets. *)
Definition applyTransform (s : State) : Z * Z :=
  (Qfloor (panX s), Qfloor (panY s)).

(** [centerOnly()] for a viewport of [vw] by [vh] pixels and a display
    canvas of [dw] by [dh] pixels. *)
Definition centerOnly (vw vh dw dh : Z) (s : State) : State :=
  if (vw =? 0) || (vh =? 0) then s
  else update_pan (inject_Z (vw - dw) / 2)%Q (inject_Z (vh - dh) / 2)%Q s.

(** ** Resizing and restoring the work canvas *)

(** [canvas.width = w; canvas.height = h]: the canvas is cleared and its
    context starts afresh, with the fill style at black. *)
Definition resize_canvas (w h : Z) : Canvas := blank_canvas w h.

(** [ctx.drawImage(src, 0, 0)]: the pixels of [src] painted over the ones
    of the canvas. *)
Definition drawImage {browser : Canvas2D} (c src : Canvas) : Canvas :=
  set_pixels
    (imap (fun k p =>
             let i := Z.of_nat k mod cv_width c in
             let j := Z.of_nat k / cv_width c in
             if (i <? cv_width src) && (j <? cv_height src)
             then sourceOver (canvas_get src i j) p
             else p)
          (cv_pixels c))
    c.

(** The image that decoding a snapshot gives. *)
Definition image_of (snap : Snapshot) : Canvas :=
  mkCanvas (snap_width snap) (snap_height snap) (snap_data snap)
    (RGBA 0 0 0 255).

(** The [img.onload] handler of [loadStateToWorkCanvas(dataURL)]. *)
Definition loadStateToWorkCanvas {browser : Canvas2D} (dataURL : Snapshot)
  (w : World) : World :=
  let img := image_of dataURL in
  let s := update_size (cv_width img) (cv_height img) (state w) in
  mkWorld s (drawImage (resize_canvas (cv_width img) (cv_height img)) img)
    (lastX w) (lastY w).

(** The click handlers of the undo and redo buttons, with the image loaded
    at once. *)
Definition undo_onclick {browser : Canvas2D} (w : World) : World :=
  let '(s, d) := performUndo (state w) in
  let w' := mkWorld s (workCanvas w) (lastX w) (lastY w) in
  match d with
  | Some dataURL => loadStateToWorkCanvas dataURL w'
  | None => w'
  end.

Definition redo_onclick {browser : Canvas2D} (w : World) : World :=
  let '(s, d) := performRedo (state w) in
  let w' := mkWorld s (workCanvas w) (lastX w) (lastY w) in
  match d with
  | Some dataURL => loadStateToWorkCanvas dataURL w'
  | None => w'
  end.


(** The click handler of the button that confirms a reset. *)
Definition confirm_reset_ok (w : World) : World :=
  let c := clearRect (workCanvas w) 0 0 (cv_width (workCanvas w))
             (cv_height (workCanvas w)) in
  mkWorld (saveHistory (toDataURL c) (state w)) c (lastX w) (lastY w).

(** The [img.onload] handler of [importPNG] for a viewport of [vw] by [vh]
    pixels; an image that is too large is refused with an alert and nothing
    changes. *)
Definition importPNG_onload {browser : Canvas2D} (vw vh : Z) (img : Canvas)
  (w : World) : World :=
  if (cv_width img >? 320) || (cv_height img >? 320) then w
  else
    let s := update_size (cv_width img) (cv_height img) (state w) in
    let c := resize_canvas (cv_width img) (cv_height img) in
    let c := clearRect c 0 0 (cv_width img) (cv_height img) in
    let c := drawImage c img in
    let s := autoFit vw vh s in
    mkWorld (saveHistory (toDataURL c) s) c (lastX w) (lastY w).

(** An engine whose sums are exact, to run the handlers on examples in
    which binary64 adds exactly. *)
Definition exact_engine : Float64 :=
  {| float_add := Qplus |}.

(** The distance that a list of movements covers. *)
Definition moved (l : list Z) : Z :=
  foldr (fun m acc => Z.abs m + acc) 0 l.

(** [a] is half of an integer [n], and [|n| + slack] is at most [2^53]: a
    double, and so is what it becomes when integers of a total magnitude of
    half the slack are added to it. *)
Definition half_integer (slack : Z) (a : Q) : Prop :=
  exists n : Z, (a == n # 2)%Q /\ Z.abs n + slack <= 2 ^ 53.

(** A snapshot of positive dimensions with one entry per cell. *)
Definition snapshot_wf (snap : Snapshot) : Prop :=
  0 < snap_width snap /\ 0 < snap_height snap
  /\ length (snap_data snap) = Z.to_nat (snap_width snap * snap_height snap).

(** * Properties *)

(** ** Undo and redo *)

Lemma performUndo_snoc s h x y :
  history s = h ++ [x; y] ->
  performUndo s = (set_stacks (h ++ [x]) (redoStack s ++ [y]) s, Some x).
Proof.
  intros Hh. unfold performUndo. rewrite Hh.
  replace (h ++ [x; y]) with ((h ++ [x]) ++ [y]) by (by rewrite <- app_assoc).
  rewrite last_snoc, removelast_last, last_snoc.
  rewrite length_app. cbn [length].
  destruct (Z.leb_spec (Z.of_nat (length (h ++ [x]) + 1)) 1) as [Hle|]; [|done].
  rewrite length_app in Hle. cbn [length] in Hle. lia.
Qed.

Lemma performRedo_snoc s r y :
  redoStack s = r ++ [y] ->
  performRedo s = (set_stacks (history s ++ [y]) r s, Some y).
Proof.
  intros Hr. unfold performRedo. rewrite Hr.
  rewrite last_snoc, removelast_last, length_app. cbn [length].
  by replace (length r + 1 =? 0)%nat with false by (symmetry; apply Nat.eqb_neq; lia).
Qed.

Lemma two_last {A} (l : list A) :
  (2 <= length l)%nat -> exists h x y, l = h ++ [x; y].
Proof.
  intros Hl.
  destruct (exists_last (l:=l)) as [l1 [y ->]]. { intros ->. cbn in Hl. lia. }
  rewrite length_app in Hl. cbn [length] in Hl.
  destruct (exists_last (l:=l1)) as [h [x ->]]. { intros ->. cbn in Hl. lia. }
  exists h, x, y. by rewrite <- app_assoc.
Qed.

(** C10: in a state whose history holds at least two snapshots,
    [performUndo] followed at once by [performRedo] gives back the state it
    started from, so [history] and [redoStack] are as before the two calls,
    and the snapshot that [performRedo] returns is the one that
    [performUndo] moved from the top of [history] to the top of
    [redoStack]. *)
Theorem undo_then_redo_restores (s : State) :
  (2 <= length (history s))%nat ->
  exists moved,
    redoStack (performUndo s).1 = redoStack s ++ [moved]
    /\ history s = history (performUndo s).1 ++ [moved]
    /\ performRedo (performUndo s).1 = (s, Some moved).
Proof.
  intros Hl. destruct (two_last _ Hl) as (h & x & y & Hh).
  exists y. rewrite (performUndo_snoc s h x y Hh). cbn [fst].
  split; [done|]. split.
  { cbn. rewrite Hh. by rewrite <- app_assoc. }
  rewrite (performRedo_snoc _ (redoStack s) y) by done. f_equal.
  cbn [history set_stacks].
  replace ((h ++ [x]) ++ [y]) with (history s) by (rewrite Hh; by rewrite <- app_assoc).
  by destruct s.
Qed.

Lemma undo_then_redo_restores_witness :
  exists moved,
    redoStack (performUndo (pushAll sixty_snapshots State_constructor)).1
    = redoStack (pushAll sixty_snapshots State_constructor) ++ [moved]
    /\ history (pushAll sixty_snapshots State_constructor)
       = history (performUndo (pushAll sixty_snapshots State_constructor)).1
         ++ [moved]
    /\ performRedo (performUndo (pushAll sixty_snapshots State_constructor)).1
       = (pushAll sixty_snapshots State_constructor, Some moved).
Proof.
  apply (undo_then_redo_restores (pushAll sixty_snapshots State_constructor)).
  vm_compute. lia.
Defined.

Lemma saveHistory_twice_shape S1 S2 s :
  2 <= maxHistory s ->
  exists h, history (saveHistory S2 (saveHistory S1 s)) = h ++ [S1; S2].
Proof.
  intros HM. unfold saveHistory at 1. cbn [history set_stacks].
  change (maxHistory (saveHistory S1 s)) with (maxHistory s).
  assert (H1 : exists h1, history (saveHistory S1 s) = h1 ++ [S1]).
  { unfold saveHistory. cbn [history set_stacks].
    destruct (Z.gtb_spec (Z.of_nat (length (history s ++ [S1]))) (maxHistory s)) as [Hgt|_].
    - rewrite length_app in Hgt. cbn [length] in Hgt.
      destruct (history s) as [|a h0] eqn:E; [cbn in Hgt; lia|].
      exists h0. done.
    - by exists (history s). }
  destruct H1 as [h1 ->].
  destruct (Z.gtb_spec (Z.of_nat (length ((h1 ++ [S1]) ++ [S2]))) (maxHistory s)) as [Hgt|_].
  - rewrite !length_app in Hgt. cbn [length] in Hgt.
    destruct h1 as [|a h0]; [cbn in Hgt; lia|].
    exists h0. cbn. by rewrite <- app_assoc.
  - exists h1. by rewrite <- app_assoc.
Qed.

(** C5: whatever [history] and [redoStack] hold, after [saveHistory(S1)]
    and [saveHistory(S2)] the call [performUndo()] returns [S1], leaves [S1]
    on top of [history] and moves [S2] to [redoStack]; [performRedo()]
    called next returns [S2] and gives back the state of before the undo. *)
Theorem undo_redo_round_trip (s : State) (S1 S2 : Snapshot) :
  maxHistory s = 50 ->
  (performUndo (saveHistory S2 (saveHistory S1 s))).2 = Some S1
  /\ last (history (performUndo (saveHistory S2 (saveHistory S1 s))).1)
     = Some S1
  /\ redoStack (performUndo (saveHistory S2 (saveHistory S1 s))).1 = [S2]
  /\ performRedo (performUndo (saveHistory S2 (saveHistory S1 s))).1
     = (saveHistory S2 (saveHistory S1 s), Some S2).
Proof.
  intros HM. set (s2 := saveHistory S2 (saveHistory S1 s)).
  destruct (saveHistory_twice_shape S1 S2 s) as [h Hh]; [lia|].
  fold s2 in Hh.
  rewrite (performUndo_snoc s2 h S1 S2 Hh). cbn [fst snd].
  split; [done|]. split. { cbn. by rewrite last_snoc. }
  split; [done|].
  rewrite (performRedo_snoc _ [] S2) by done. f_equal.
  cbn [history set_stacks].
  replace ((h ++ [S1]) ++ [S2]) with (history s2)
    by (rewrite Hh; by rewrite <- app_assoc).
  change [] with (redoStack s2). subst s2.
  by destruct s.
Qed.

Lemma undo_redo_round_trip_witness :
  (performUndo (saveHistory (numbered_snapshot 2)
                  (saveHistory (numbered_snapshot 1) State_constructor))).2
  = Some (numbered_snapshot 1)
  /\ last (history (performUndo (saveHistory (numbered_snapshot 2)
                      (saveHistory (numbered_snapshot 1) State_constructor))).1)
     = Some (numbered_snapshot 1)
  /\ redoStack (performUndo (saveHistory (numbered_snapshot 2)
                   (saveHistory (numbered_snapshot 1) State_constructor))).1
     = [numbered_snapshot 2]
  /\ performRedo (performUndo (saveHistory (numbered_snapshot 2)
                    (saveHistory (numbered_snapshot 1) State_constructor))).1
     = (saveHistory (numbered_snapshot 2)
          (saveHistory (numbered_snapshot 1) State_constructor),
        Some (numbered_snapshot 2)).
Proof.
  apply (undo_redo_round_trip State_constructor
           (numbered_snapshot 1) (numbered_snapshot 2)).
  reflexivity.
Defined.

Lemma history_saveHistory d s :
  (Z.of_nat (length (history s)) <= maxHistory s) ->
  history (saveHistory d s)
  = drop (length (history s ++ [d]) - Z.to_nat (maxHistory s)) (history s ++ [d]).
Proof.
  intros Hle. unfold saveHistory; cbn [history set_stacks].
  rewrite length_app; cbn [length].
  destruct (Z.gtb_spec (Z.of_nat (length (history s) + 1)) (maxHistory s)) as [Hgt|Hgt].
  - replace (length (history s) + 1 - Z.to_nat (maxHistory s))%nat with 1%nat by lia.
    unfold shift. by destruct (history s ++ [d]).
  - replace (length (history s) + 1 - Z.to_nat (maxHistory s))%nat with 0%nat by lia.
    done.
Qed.

Lemma length_saveHistory d s :
  (Z.of_nat (length (history s)) <= maxHistory s) ->
  (Z.of_nat (length (history (saveHistory d s))) <= maxHistory s).
Proof.
  intros Hle. rewrite history_saveHistory by done.
  rewrite length_drop, length_app; cbn [length]. lia.
Qed.

Lemma history_pushAll l : forall s,
  (Z.of_nat (length (history s)) <= maxHistory s) ->
  history (pushAll l s)
  = drop (length (history s ++ l) - Z.to_nat (maxHistory s)) (history s ++ l)
  /\ maxHistory (pushAll l s) = maxHistory s.
Proof.
  induction l as [|d l IH]; intros s Hle.
  - cbn. rewrite app_nil_r. split; [|done].
    by replace (length (history s) - Z.to_nat (maxHistory s))%nat with 0%nat by lia.
  - cbn [pushAll fold_left]. fold (pushAll l (saveHistory d s)).
    destruct (IH (saveHistory d s)) as [IH1 IH2].
    { change (maxHistory (saveHistory d s)) with (maxHistory s).
      by apply length_saveHistory. }
    rewrite IH2. change (maxHistory (saveHistory d s)) with (maxHistory s).
    split; [|done].
    rewrite IH1. change (maxHistory (saveHistory d s)) with (maxHistory s).
    rewrite history_saveHistory by done.
    set (M := Z.to_nat (maxHistory s)).
    set (k := (length (history s ++ [d]) - M)%nat).
    assert (Hk : (k <= length (history s ++ [d]))%nat) by lia.
    rewrite <- (drop_app_le _ l) by exact Hk.
    rewrite drop_drop.
    replace ((history s ++ [d]) ++ l) with (history s ++ d :: l)
      by (by rewrite <- app_assoc).
    f_equal. rewrite length_drop. subst k.
    rewrite !length_app. cbn [length]. rewrite length_app in Hk. cbn [length] in Hk.
    lia.
Qed.

(** Every reachable state keeps [maxHistory] at 50 and holds at most 50
    snapshots on its two stacks together, so the two premises of the next
    theorem hold whenever the program calls [saveHistory]. *)
Lemma reachable_history_bound s :
  reachable s ->
  maxHistory s = 50
  /\ (length (history s) + length (redoStack s) <= 50)%nat.
Proof.
  induction 1 as [|d s _ [HM IH]|s _ [HM IH]|s _ [HM IH]
                  |b s _ IH|b s _ IH|c s _ IH]; try done.
  - split; [reflexivity|]. cbn. lia.
  - split; [done|].
    assert (Hle : Z.of_nat (length (history s)) <= maxHistory s) by lia.
    pose proof (length_saveHistory d s Hle). cbn [redoStack saveHistory set_stacks length].
    lia.
  - unfold performUndo.
    destruct (Z.leb_spec (Z.of_nat (length (history s))) 1) as [|Hlen]; [done|].
    destruct (exists_last (l := history s)) as [h [x E]].
    { intros E. rewrite E in Hlen. cbn in Hlen. lia. }
    destruct (last (history s)) as [current|] eqn:El; [|done].
    cbn [fst maxHistory history redoStack set_stacks]. split; [done|].
    rewrite E in IH |- *. rewrite removelast_last, !length_app in *.
    cbn [length] in *. lia.
  - unfold performRedo.
    destruct (Nat.eqb_spec (length (redoStack s)) 0) as [|Hlen]; [done|].
    destruct (exists_last (l := redoStack s)) as [r [x E]].
    { intros E. by rewrite E in Hlen. }
    destruct (last (redoStack s)) as [next|] eqn:El; [|done].
    cbn [fst maxHistory history redoStack set_stacks]. split; [done|].
    rewrite E in IH |- *. rewrite removelast_last, !length_app in *.
    cbn [length] in *. lia.
Qed.

(** C6: with [maxHistory] at 50 and at most 50 snapshots in [history],
    [saveHistory] leaves at most 50 of them, dropping the oldest one when
    the push makes 51, and it empties [redoStack]; pushing the snapshots of
    [l] one after the other keeps the last 50 of [history ++ l] in their
    order, so 60 pushes onto an empty history leave the 50 pushed last,
    oldest first. *)
Theorem saveHistory_keeps_fifty_most_recent (s : State) (d : Snapshot)
  (l : list Snapshot) :
  maxHistory s = 50 -> (length (history s) <= 50)%nat ->
  (length (history (saveHistory d s)) <= 50)%nat
  /\ history (saveHistory d s)
     = (if (length (history s) =? 50)%nat
        then tl (history s ++ [d]) else history s ++ [d])
  /\ redoStack (saveHistory d s) = []
  /\ history (pushAll l s)
     = drop (length (history s ++ l) - 50) (history s ++ l)
  /\ (history s = [] -> length l = 60%nat ->
      history (pushAll l s) = drop 10 l
      /\ length (history (pushAll l s)) = 50%nat).
Proof.
  intros HM Hlen.
  assert (Hle : Z.of_nat (length (history s)) <= maxHistory s) by lia.
  pose proof (length_saveHistory d s Hle) as H1.
  pose proof (history_pushAll l s Hle) as [H2 _].
  rewrite HM in H2. change (Z.to_nat 50) with 50%nat in H2.
  split; [lia|]. split; [|split; [done|split; [done|]]].
  - unfold saveHistory. cbn [history set_stacks]. rewrite HM, length_app. cbn [length].
    destruct (Nat.eqb_spec (length (history s)) 50) as [E|E];
      destruct (Z.gtb_spec (Z.of_nat (length (history s) + 1)) 50); (done || lia).
  - intros Hnil Hl. rewrite H2, Hnil. cbn [app]. rewrite Hl.
    split; [done|]. rewrite length_drop. lia.
Qed.

Lemma saveHistory_keeps_fifty_most_recent_witness :
  history (pushAll sixty_snapshots State_constructor) = drop 10 sixty_snapshots
  /\ length (history (pushAll sixty_snapshots State_constructor)) = 50%nat.
Proof.
  apply (saveHistory_keeps_fifty_most_recent State_constructor
           (numbered_snapshot 0) sixty_snapshots);
    [reflexivity | simpl; lia | reflexivity | reflexivity].
Defined.

(** ** Colour texts *)

Example hexToRgb_examples :
  hexToRgb "#38bdf8" = RGBA 56 189 248 255
  /\ hexToRgb "38BDF8" = RGBA 56 189 248 255
  /\ hexToRgb "#38bdf880" = RGBA 0 0 0 255
  /\ hexToRgb "#38bdfg" = RGBA 0 0 0 255
  /\ buildColor "#38BDF8" 255 = "#38bdf8"%string
  /\ buildColor "#38BDF8" 128 = "#38bdf880"%string
  /\ buildColor "#38BDF8" 5 = "#38bdf805"%string.
Proof. repeat split. Qed.

Lemma hex_digit_is_hex ch v : hex_digit ch = Some v -> is_hex_digit ch.
Proof.
  destruct ch as [b0 b1 b2 b3 b4 b5 b6 b7].
  destruct b0, b1, b2, b3, b4, b5, b6, b7; vm_compute; intros H;
    try discriminate H; clear H;
    repeat (first [left; reflexivity | right]).
Qed.

Lemma strip_hash_spec hex :
  strip_hash hex = hex \/ hex = String "#" (strip_hash hex).
Proof.
  destruct hex as [|ch rest]; [by left|].
  destruct ch as [b0 b1 b2 b3 b4 b5 b6 b7].
  destruct b0, b1, b2, b3, b4, b5, b6, b7;
    (left; reflexivity) || (right; reflexivity).
Qed.

Lemma parse_hex_pair_is_hex c1 c2 v :
  parse_hex_pair c1 c2 = Some v -> is_hex_digit c1 /\ is_hex_digit c2.
Proof.
  unfold parse_hex_pair.
  destruct (hex_digit c1) eqn:E1; [|done].
  destruct (hex_digit c2) eqn:E2; [|done].
  intros _. eauto using hex_digit_is_hex.
Qed.

Lemma hex_regex_exec_hex6 hex v : hex_regex_exec hex = Some v -> hex6_form hex.
Proof.
  unfold hex_regex_exec. intros H.
  exists (strip_hash hex). split.
  - destruct (strip_hash hex) as [|c1 [|c2 [|c3 [|c4 [|c5 [|c6 [|]]]]]]]; try done.
    destruct (parse_hex_pair c1 c2) eqn:E1; [|done].
    destruct (parse_hex_pair c3 c4) eqn:E2; [|done].
    destruct (parse_hex_pair c5 c6) eqn:E3; [|done].
    apply parse_hex_pair_is_hex in E1, E2, E3.
    split; [done|]. cbn.
    do 6 (constructor; [tauto|]). constructor.
  - destruct (strip_hash_spec hex) as [E|E]; [left|right]; done.
Qed.

Lemma hexToRgb_default hex : ~ hex6_form hex -> hexToRgb hex = RGBA 0 0 0 255.
Proof.
  intros Hn. unfold hexToRgb.
  destruct (hex_regex_exec hex) as [[[r g] b]|] eqn:E; [|done].
  destruct Hn. eauto using hex_regex_exec_hex6.
Qed.

Lemma length_toLowerCase s : String.length (toLowerCase s) = String.length s.
Proof. induction s; cbn; congruence. Qed.

Lemma length_string_app (s1 s2 : string) :
  String.length (s1 ++ s2) = (String.length s1 + String.length s2)%nat.
Proof. induction s1; cbn; congruence. Qed.

Lemma length_alpha_suffix a :
  0 <= a < 255 -> String.length (padStart 2 "0" (toString16 a)) = 2%nat.
Proof.
  intros Ha.
  assert (Hall : forallb (fun n => (String.length (padStart 2 "0" (toString16 (Z.of_nat n))) =? 2)%nat)
                   (seq 0 255) = true) by (vm_compute; reflexivity).
  rewrite forallb_forall in Hall.
  specialize (Hall (Z.to_nat a)). rewrite Z2Nat.id in Hall by lia.
  apply Nat.eqb_eq, Hall, in_seq. lia.
Qed.

Lemma hex6_form_length hex :
  hex6_form hex -> String.length hex = 6%nat \/ String.length hex = 7%nat.
Proof. intros (t & [Hl _] & [->| ->]); cbn; auto. Qed.

Lemma buildColor_not_hex6 t a :
  six_hex_digits t -> 0 <= a < 255 -> ~ hex6_form (buildColor (String "#" t) a).
Proof.
  intros [Hl _] Ha Hf. apply hex6_form_length in Hf.
  unfold buildColor in Hf.
  destruct (Z.geb_spec a 255) as [|_]; [lia|].
  rewrite length_string_app, length_toLowerCase, length_alpha_suffix in Hf by done.
  cbn in Hf. lia.
Qed.

(** ** The interaction state machine *)

Section ExecuteFacts.
Context {browser : Canvas2D}.

(** C8: 'start' and 'move' on a cell outside the grid return no signal and
    leave the editor state, the work canvas and the last point as they
    were; in particular [isDrawing], [history] and [redoStack] are
    unchanged. *)
Theorem execute_out_of_bounds (fuel : nat) (w : World) (action : Action) (x y : Z) :
  action = start \/ action = move ->
  x < 0 \/ x >= width (state w) \/ y < 0 \/ y >= height (state w) ->
  execute fuel w action (Some x) (Some y) = Some (w, None).
Proof.
  intros _ Hout. unfold execute, js_lt, js_ge.
  destruct (Z.ltb_spec x 0); [done|].
  destruct (Z.geb_spec x (width (state w))); [done|].
  destruct (Z.ltb_spec y 0); [done|].
  destruct (Z.geb_spec y (height (state w))); [done|].
  lia.
Qed.
End ExecuteFacts.

Lemma execute_out_of_bounds_witness :
  execute (browser := opaque_browser) 0 (world_with pencil "#ff0000" 3) start
    (Some 16) (Some 3)
  = Some (world_with pencil "#ff0000" 3, None).
Proof.
  apply (execute_out_of_bounds (browser := opaque_browser) 0
           (world_with pencil "#ff0000" 3) start 16 3).
  - left. reflexivity.
  - right. left. simpl. lia.
Defined.

Lemma pickColor_stacks s c x y :
  history (pickColor s c x y) = history s
  /\ redoStack (pickColor s c x y) = redoStack s
  /\ isDrawing (pickColor s c x y) = isDrawing s
  /\ isPanning (pickColor s c x y) = isPanning s
  /\ currentTool (pickColor s c x y) = currentTool s
  /\ maxHistory (pickColor s c x y) = maxHistory s.
Proof. unfold pickColor. by destruct (alpha _ >? 0). Qed.

Lemma in_grid_guard s (x y : Z) :
  in_grid (width s) (height s) x y ->
  js_lt (Some x) 0 || js_ge (Some x) (width s)
  || js_lt (Some y) 0 || js_ge (Some y) (height s) = false.
Proof.
  intros [Hx Hy]. unfold js_lt, js_ge.
  destruct (Z.ltb_spec x 0); [lia|].
  destruct (Z.geb_spec x (width s)); [lia|].
  destruct (Z.ltb_spec y 0); [lia|].
  destruct (Z.geb_spec y (height s)); [lia|]. done.
Qed.

Section Eyedropper.
Context {browser : Canvas2D}.

(** C1: with the eyedropper on a cell of the grid, 'start' followed by
    'end' leaves [history] and [redoStack] exactly as they were, and the
    canvas and the last point too; of the editor state only [currentColor]
    can differ, set by [pickColor], and [isDrawing] is false at the end.
    The value that 'end' returns is the commit signal. *)
Theorem eyedropper_start_end_keeps_stacks (fuel : nat) (w : World) (x y : Z) :
  currentTool (state w) = eyedropper ->
  in_grid (width (state w)) (height (state w)) x y ->
  exists w1 w2,
    execute fuel w start (Some x) (Some y) = Some (w1, None)
    /\ execute fuel w1 end_ None None = Some (w2, Some SHOULD_SAVE_HISTORY)
    /\ state w2
       = update_isDrawing false (pickColor (state w) (workCanvas w) x y)
    /\ workCanvas w2 = workCanvas w
    /\ lastX w2 = lastX w /\ lastY w2 = lastY w
    /\ history (state w2) = history (state w)
    /\ redoStack (state w2) = redoStack (state w).
Proof.
  intros Htool Hin.
  pose proof (pickColor_stacks (update_isDrawing true (state w)) (workCanvas w) x y)
    as (Hh & Hr & Hd & _).
  eexists _, _. split.
  { unfold execute. rewrite in_grid_guard by done. rewrite Htool. reflexivity. }
  split.
  { unfold execute. cbn [js_lt js_ge orb state workCanvas lastX lastY].
    rewrite Hd. reflexivity. }
  cbn [state workCanvas lastX lastY].
  split; [|split; [done|split; [done|split; [done|split; [exact Hh|exact Hr]]]]].
  unfold pickColor. by destruct (alpha _ >? 0).
Qed.

(** X27: a whole eyedropper click, through the two mouse handlers, does
    push a snapshot: 'start' picks the colour and sets [isDrawing] without
    touching the canvas or the two stacks, 'end' clears [isDrawing] and
    returns the commit signal, and the mouse-up handler answers the signal
    with [saveHistory] of the unchanged canvas, so after the click
    [history] has received that snapshot and [redoStack] is empty. *)
Theorem eyedropper_click_commits (fuel : nat) (w : World) (x y : Z) :
  currentTool (state w) = eyedropper ->
  isPanning (state w) = false ->
  in_grid (width (state w)) (height (state w)) x y ->
  exists w1 w2 w3,
    execute fuel w start (Some x) (Some y) = Some (w1, None)
    /\ state w1 = pickColor (update_isDrawing true (state w)) (workCanvas w) x y
    /\ workCanvas w1 = workCanvas w
    /\ history (state w1) = history (state w)
    /\ redoStack (state w1) = redoStack (state w)
    /\ execute fuel w1 end_ None None = Some (w2, Some SHOULD_SAVE_HISTORY)
    /\ isDrawing (state w2) = false
    /\ history (state w2) = history (state w)
    /\ redoStack (state w2) = redoStack (state w)
    /\ click fuel w x y = Some w3
    /\ workCanvas w3 = workCanvas w
    /\ history (state w3)
       = history (saveHistory (toDataURL (workCanvas w)) (state w))
    /\ redoStack (state w3) = [].
Proof.
  intros Htool Hpan Hin.
  pose proof (pickColor_stacks (update_isDrawing true (state w)) (workCanvas w) x y)
    as (Hh & Hr & Hd & Hp & Ht & Hm).
  assert (Hstart : execute fuel w start (Some x) (Some y)
                   = Some (mkWorld (pickColor (update_isDrawing true (state w))
                                      (workCanvas w) x y)
                             (workCanvas w) (lastX w) (lastY w), None)).
  { unfold execute. rewrite in_grid_guard by done. by rewrite Htool. }
  set (w1 := mkWorld _ _ _ _) in Hstart.
  assert (Hend : execute fuel w1 end_ None None
                 = Some (mkWorld (update_isDrawing false (state w1))
                           (workCanvas w) (lastX w) (lastY w),
                         Some SHOULD_SAVE_HISTORY)).
  { unfold execute. cbn [js_lt js_ge orb]. subst w1. cbn [state workCanvas lastX lastY].
    by rewrite Hd. }
  set (w2 := mkWorld _ _ _ _) in Hend.
  eexists w1, w2, _.
  split; [exact Hstart|]. split; [done|]. split; [done|].
  split; [exact Hh|]. split; [exact Hr|]. split; [exact Hend|].
  split; [done|]. split; [exact Hh|]. split; [exact Hr|].
  split.
  { unfold click, onmousedown. cbn [button altKey cellX cellY].
    rewrite Htool, Hpan. cbn [Z.eqb orb andb Tool_eqb].
    rewrite Hstart. cbn [save_if_signalled].
    unfold onmouseup. rewrite Hend. reflexivity. }
  cbn [workCanvas state save_if_signalled].
  split; [done|]. split; [|done].
  unfold saveHistory. cbn [history set_stacks update_isPanning update_isDrawing maxHistory].
  change (history (state w2)) with (history (state w1)).
  change (maxHistory (state w2)) with (maxHistory (state w1)).
  change (workCanvas w2) with (workCanvas w).
  change (state w1)
    with (pickColor (update_isDrawing true (state w)) (workCanvas w) x y).
  by rewrite Hh, Hm.
Qed.
End Eyedropper.

Lemma eyedropper_start_end_keeps_stacks_witness :
  exists w1 w2,
    execute (browser := opaque_browser) 0
      (mkWorld (set_stacks [toDataURL block_canvas] [dot_snapshot]
                  (small_state eyedropper "#ff0000" 1))
         block_canvas (-1) (-1))
      start (Some 1) (Some 1) = Some (w1, None)
    /\ execute (browser := opaque_browser) 0 w1 end_ None None
       = Some (w2, Some SHOULD_SAVE_HISTORY)
    /\ state w2
       = update_isDrawing false
           (pickColor (set_stacks [toDataURL block_canvas] [dot_snapshot]
                         (small_state eyedropper "#ff0000" 1))
              block_canvas 1 1)
    /\ workCanvas w2 = block_canvas
    /\ lastX w2 = -1 /\ lastY w2 = -1
    /\ history (state w2) = [toDataURL block_canvas]
    /\ redoStack (state w2) = [dot_snapshot].
Proof.
  apply (eyedropper_start_end_keeps_stacks (browser := opaque_browser) 0
           (mkWorld (set_stacks [toDataURL block_canvas] [dot_snapshot]
                       (small_state eyedropper "#ff0000" 1))
              block_canvas (-1) (-1)) 1 1).
  - reflexivity.
  - unfold in_grid. simpl. lia.
Defined.

Lemma eyedropper_click_commits_witness :
  exists w3,
    click (browser := opaque_browser) 0 eyedropper_after_undo 3 4 = Some w3
    /\ history (state w3)
       = history (saveHistory (toDataURL (workCanvas eyedropper_after_undo))
                    (state eyedropper_after_undo))
    /\ redoStack (state w3) = [].
Proof.
  destruct (eyedropper_click_commits (browser := opaque_browser) 0
              eyedropper_after_undo 3 4)
    as (w1 & w2 & w3 & H); [reflexivity | reflexivity | |].
  - unfold in_grid. simpl. lia.
  - exists w3. tauto.
Defined.

(** An eyedropper click after an undo, through the two handlers: [history]
    is one snapshot longer afterwards and [redoStack] is empty. *)
Example eyedropper_click_changes_stacks :
  currentTool (state eyedropper_after_undo) = eyedropper
  /\ exists w1 w2 w3,
      execute (browser := opaque_browser) 0 eyedropper_after_undo start
        (Some 3) (Some 4) = Some (w1, None)
      /\ execute (browser := opaque_browser) 0 w1 end_ None None
         = Some (w2, Some SHOULD_SAVE_HISTORY)
      /\ click (browser := opaque_browser) 0 eyedropper_after_undo 3 4 = Some w3
      /\ length (history (state eyedropper_after_undo)) = 1%nat
      /\ length (history (state w3)) = 2%nat
      /\ redoStack (state eyedropper_after_undo) = [dot_snapshot]
      /\ redoStack (state w3) = []
      /\ history (state w3) <> history (state eyedropper_after_undo)
      /\ redoStack (state w3) <> redoStack (state eyedropper_after_undo).
Proof.
  split; [reflexivity|].
  eexists _, _, _.
  split; [vm_compute; reflexivity|].
  split; [vm_compute; reflexivity|].
  split; [vm_compute; reflexivity|].
  split; [reflexivity|]. split; [reflexivity|].
  split; [reflexivity|]. split; [reflexivity|].
  split; intros H; apply (f_equal length) in H; vm_compute in H; discriminate H.
Qed.

(** ** Cells and array indices *)

Lemma cell_index_mod W x y : 0 <= x < W -> (y * W + x) mod W = x.
Proof. intros Hx. rewrite Z.add_comm, Z.mod_add by lia. apply Z.mod_small, Hx. Qed.

Lemma cell_index_div W x y : 0 <= x < W -> (y * W + x) / W = y.
Proof.
  intros Hx. rewrite Z.add_comm, Z.div_add by lia.
  rewrite Z.div_small by lia. lia.
Qed.

Lemma cell_index_range W H x y :
  in_grid W H x y -> 0 <= y * W + x < W * H.
Proof. intros [Hx Hy]. nia. Qed.


(** ** What a stamp writes *)

Lemma canvas_get_map_rect f c x y w h i j :
  length (cv_pixels c) = Z.to_nat (cv_width c * cv_height c) ->
  in_grid (cv_width c) (cv_height c) i j ->
  canvas_get (map_rect f c x y w h) i j
  = if in_rect x y w h i j then f (canvas_get c i j) else canvas_get c i j.
Proof.
  intros Hl Hin. pose proof (cell_index_range _ _ _ _ Hin) as Hr.
  unfold canvas_get, map_rect. cbn [cv_width cv_height cv_pixels set_pixels].
  destruct Hin as [Hi Hj].
  destruct (Z.leb_spec 0 i); [|lia]. destruct (Z.ltb_spec i (cv_width c)); [|lia].
  destruct (Z.leb_spec 0 j); [|lia]. destruct (Z.ltb_spec j (cv_height c)); [|lia].
  cbn [andb]. rewrite list_lookup_imap.
  destruct (lookup_lt_is_Some_2 (cv_pixels c) (Z.to_nat (j * cv_width c + i)))
    as [p Hp]; [lia|].
  rewrite Hp. cbn. rewrite Z2Nat.id by lia.
  rewrite cell_index_mod, cell_index_div by lia.
  by destruct (in_rect x y w h i j).
Qed.

Section Stamp.
Context {browser : Canvas2D}.

(** [drawPixel] writes the cells of the rectangle [brushRect] that lie on
    the canvas, and no other cell. *)
Lemma drawPixel_writes s c x y color i j :
  length (cv_pixels c) = Z.to_nat (cv_width c * cv_height c) ->
  in_grid (cv_width c) (cv_height c) i j ->
  canvas_get (drawPixel s c x y color) i j
  = let '(cx, cy, cw, ch) := brushRect s x y in
    if in_rect cx cy cw ch i j
    then if Tool_eqb (currentTool s) eraser then transparent
         else sourceOver (cv_fillStyle (set_fillStyle color c)) (canvas_get c i j)
    else canvas_get c i j.
Proof.
  intros Hl Hin. unfold drawPixel.
  destruct (brushRect s x y) as [[[cx cy] cw] ch].
  destruct (Tool_eqb (currentTool s) eraser).
  - unfold clearRect. by rewrite canvas_get_map_rect.
  - unfold fillRect.
    assert (E : forall k, canvas_get (set_fillStyle color c) k j = canvas_get c k j).
    { intros k. unfold set_fillStyle. by destruct (cssColor color). }
    rewrite canvas_get_map_rect.
    + by rewrite E.
    + unfold set_fillStyle. by destruct (cssColor color).
    + unfold set_fillStyle. by destruct (cssColor color).
Qed.
End Stamp.

(** Away from the top and left edges the rectangle is the square centred
    on the cell, cut at the right and bottom edges of the grid. *)
Lemma brushRect_inner s x y i j :
  0 < brushSize s ->
  0 <= x - brushSize s / 2 -> 0 <= y - brushSize s / 2 ->
  x < width s -> y < height s ->
  in_grid (width s) (height s) i j ->
  (let '(cx, cy, cw, ch) := brushRect s x y in in_rect cx cy cw ch i j)
  = in_rect (x - brushSize s / 2) (y - brushSize s / 2)
      (brushSize s) (brushSize s) i j.
Proof.
  intros Hb Hx Hy Hxw Hyh [Hi Hj]. unfold brushRect, in_rect.
  destruct (Z.eqb_spec (brushSize s) 0); [lia|].
  assert (brushSize s / 2 >= 0) by (apply Z_div_ge0; lia).
  repeat match goal with
         | |- context [Z.leb ?a ?b] => destruct (Z.leb_spec a b)
         | |- context [Z.ltb ?a ?b] => destruct (Z.ltb_spec a b)
         end; cbn [andb]; try reflexivity; lia.
Qed.

(** C2 at the corner: with a brush of size 2 the square centred on cell
    [(0, 0)] starts at [(-1, -1)] and meets the grid in that one cell, but
    [drawPixel] hands the rectangle [(0, 0, 2, 2)] to the canvas and paints
    the cells [(1, 0)], [(0, 1)] and [(1, 1)] as well. *)
Lemma drawPixel_even_brush_at_corner :
  let w := world_with pencil "#38bdf8" 2 in
  let stamped :=
    drawPixel (browser := opaque_browser) (state w) (workCanvas w) 0 0
      (currentColor (state w)) in
  brushRect (state w) 0 0 = (0, 0, 2, 2)
  /\ in_rect (0 - 2 / 2) (0 - 2 / 2) 2 2 1 1 = false
  /\ canvas_get (workCanvas w) 1 1 = transparent
  /\ canvas_get stamped 1 1 = RGBA 56 189 248 255
  /\ canvas_get stamped 0 1 = RGBA 56 189 248 255
  /\ canvas_get stamped 1 0 = RGBA 56 189 248 255.
Proof. vm_compute. repeat split. Qed.


(** ** The line walk *)

Example drawLine_cells_examples :
  drawLine_cells 6 0 0 5 2 = Some [(0, 0); (1, 0); (2, 1); (3, 1); (4, 2); (5, 2)]
  /\ drawLine_cells 8 3 3 0 (-4)
     = Some [(3, 3); (3, 2); (2, 1); (2, 0); (1, -1); (1, -2); (0, -3); (0, -4)]
  /\ drawLine_cells 1 1 1 1 1 = Some [(1, 1)]
  /\ drawLine_cells 3 0 0 5 5 = None.
Proof. repeat split. Qed.

Section Line.
Variables x0 y0 x1 y1 : Z.
Let dx := Z.abs (x1 - x0).
Let dy := Z.abs (y1 - y0).
Let sx := if x0 <? x1 then 1 else -1.
Let sy := if y0 <? y1 then 1 else -1.

Lemma line_x1 : x1 = x0 + sx * dx.
Proof. subst sx dx. destruct (Z.ltb_spec x0 x1); lia. Qed.

Lemma line_y1 : y1 = y0 + sy * dy.
Proof. subst sy dy. destruct (Z.ltb_spec y0 y1); lia. Qed.

Lemma line_sx : sx = 1 \/ sx = -1.
Proof. subst sx. destruct (x0 <? x1); auto. Qed.

Lemma line_sy : sy = 1 \/ sy = -1.
Proof. subst sy. destruct (y0 <? y1); auto. Qed.

(** One more cell in front of a walk that starts next to it. *)
Lemma walk_cons fuel x y x' y' err' cells :
  line_cells fuel x' y' x1 y1 dx dy sx sy err' = Some cells ->
  head cells = Some (x', y') -> last cells = Some (x1, y1) -> chain8 cells ->
  step8 (x, y) (x', y') ->
  head ((x, y) :: cells) = Some (x, y)
  /\ last ((x, y) :: cells) = Some (x1, y1)
  /\ chain8 ((x, y) :: cells).
Proof.
  intros _ Hh Hl Hch Hstep. split; [done|].
  destruct cells as [|q cells]; [done|]. cbn in Hh. injection Hh as ->.
  split; [by rewrite last_cons_cons|]. by split.
Qed.

(** Continue the walk from the cell reached by one turn of the loop, with
    the bounds of the turn in the context. *)
Ltac walk_on IH x y x' y' err' i' j' :=
  let cells := fresh "cells" in
  let Hc := fresh "Hc" in
  let Hh := fresh "Hh" in
  let Hl := fresh "Hl" in
  let Hch := fresh "Hch" in
  let Hlen := fresh "Hlen" in
  destruct (IH x' y' err' i' j') as (cells & Hc & Hh & Hl & Hch & Hlen);
    try lia;
  exists ((x, y) :: cells); rewrite Hc;
  split; [reflexivity|];
  destruct (walk_cons _ x y _ _ _ _ Hc Hh Hl Hch) as (Hh' & Hl' & Hch');
    [unfold step8; cbn; lia|];
  split; [exact Hh'|]; split; [exact Hl'|]; split; [exact Hch'|];
  cbn [length]; lia.

(** After [i] steps along x and [j] steps along y the walk is at
    [(x0 + sx * i, y0 + sy * j)] with error [dx - dy + j * dx - i * dy];
    from there it reaches [(x1, y1)] in at most [(dx - i) + (dy - j) + 1]
    stamps. *)
Lemma line_cells_walk (fuel : nat) : forall x y err i j,
  x = x0 + sx * i -> y = y0 + sy * j ->
  err = dx - dy + j * dx - i * dy ->
  0 <= i <= dx -> 0 <= j <= dy ->
  (dx - i) + (dy - j) < Z.of_nat fuel ->
  exists cells,
    line_cells fuel x y x1 y1 dx dy sx sy err = Some cells
    /\ head cells = Some (x, y)
    /\ last cells = Some (x1, y1)
    /\ chain8 cells
    /\ Z.of_nat (length cells) <= (dx - i) + (dy - j) + 1.
Proof.
  induction fuel as [|fuel IH]; intros x y err i j Hx Hy Herr Hi Hj Hfuel; [lia|].
  cbn [line_cells].
  pose proof line_x1 as Hx1. pose proof line_y1 as Hy1.
  pose proof line_sx as Hsx. pose proof line_sy as Hsy.
  assert (Hdx : 0 <= dx) by (subst dx; lia).
  assert (Hdy : 0 <= dy) by (subst dy; lia).
  assert (Hxend : i = dx -> j < dy -> err <= - dy).
  { intros -> Hlt.
    assert (dx * (1 + j - dy) <= 0) by (apply Z.mul_nonneg_nonpos; lia). nia. }
  assert (Hyend : j = dy -> i < dx -> dx <= err).
  { intros -> Hlt.
    assert (0 <= dy * (dx - 1 - i)) by (apply Z.mul_nonneg_nonneg; lia). nia. }
  destruct (Z.eqb_spec x x1) as [Ex|Ex]; cbn [andb];
    [destruct (Z.eqb_spec y y1) as [Ey|Ey]|].
  - (* the end point *)
    exists [(x, y)]. subst x y. rewrite Ex, Ey. cbn. repeat split; try done. lia.
  - (* x has arrived, y has not: only y steps *)
    assert (i = dx) by nia. assert (j < dy) by nia.
    unfold line_step.
    destruct (Z.gtb_spec (2 * err) (- dy)) as [G|G]; [lia|].
    destruct (Z.ltb_spec (2 * err) dx) as [L|L]; [|lia].
    walk_on IH x y x (y + sy) (err + dx) i (j + 1).
  - assert (i < dx) by nia.
    unfold line_step.
    destruct (Z.gtb_spec (2 * err) (- dy)) as [G|G];
      destruct (Z.ltb_spec (2 * err) dx) as [L|L].
    + (* both axes step *)
      assert (j < dy) by (destruct (Z.eq_dec j dy); lia).
      walk_on IH x y (x + sx) (y + sy) (err - dy + dx) (i + 1) (j + 1).
    + (* x steps alone *)
      walk_on IH x y (x + sx) y (err - dy) (i + 1) j.
    + (* y steps alone *)
      assert (j < dy) by (destruct (Z.eq_dec j dy); lia).
      walk_on IH x y x (y + sy) (err + dx) i (j + 1).
    + (* no axis steps: excluded, as dx > 0 here *)
      lia.
Qed.
End Line.

Lemma line_cells_more_fuel (fuel extra : nat) : forall x y x1 y1 dx dy sx sy err cells,
  line_cells fuel x y x1 y1 dx dy sx sy err = Some cells ->
  line_cells (fuel + extra) x y x1 y1 dx dy sx sy err = Some cells.
Proof.
  induction fuel as [|fuel IH]; intros x y x1 y1 dx dy sx sy err cells; [done|].
  cbn [line_cells Nat.add].
  destruct ((x =? x1) && (y =? y1)); [done|].
  destruct (line_step x y dx dy sx sy err) as [[x' y'] err'].
  destruct (line_cells fuel x' y' x1 y1 dx dy sx sy err') as [rest|] eqn:E; [|done].
  by rewrite (IH _ _ _ _ _ _ _ _ _ _ E).
Qed.

Lemma drawLine_loop_cells {A : Type} (plot : Z -> Z -> A -> A) (fuel : nat) :
  forall acc x y x1 y1 dx dy sx sy err,
  drawLine_loop plot fuel acc x y x1 y1 dx dy sx sy err
  = match line_cells fuel x y x1 y1 dx dy sx sy err with
    | Some cells => Some (fold_left (fun a p => plot p.1 p.2 a) cells acc)
    | None => None
    end.
Proof.
  induction fuel as [|fuel IH]; intros acc x y x1 y1 dx dy sx sy err; [done|].
  cbn [drawLine_loop line_cells].
  destruct ((x =? x1) && (y =? y1)); [done|].
  destruct (line_step x y dx dy sx sy err) as [[x' y'] err'].
  rewrite IH.
  by destruct (line_cells fuel x' y' x1 y1 dx dy sx sy err').
Qed.

Lemma fold_left_snoc_cells (cells acc : list (Z * Z)) :
  fold_left (fun a p => a ++ [(p.1, p.2)]) cells acc = acc ++ cells.
Proof.
  revert acc. induction cells as [|[x y] cells IH]; intros acc; cbn.
  - by rewrite app_nil_r.
  - rewrite IH. by rewrite <- app_assoc.
Qed.

(** C3: for all integer end points the walk of [drawLine] finishes (with
    fuel [line_fuel] or more); the cells it stamps, in order, start with
    [(x0, y0)], end with [(x1, y1)], and two cells that follow each other
    differ by at most one in each coordinate; [drawLine] is [drawPixel]
    applied to these cells in this order. *)
Theorem drawLine_gap_free (x0 y0 x1 y1 : Z) :
  exists cells,
    head cells = Some (x0, y0)
    /\ last cells = Some (x1, y1)
    /\ chain8 cells
    /\ (forall extra,
          drawLine_cells (line_fuel x0 y0 x1 y1 + extra) x0 y0 x1 y1 = Some cells)
    /\ (forall (browser : Canvas2D) s c color extra,
          drawLine (line_fuel x0 y0 x1 y1 + extra) s c x0 y0 x1 y1 color
          = Some (fold_left (fun c p => drawPixel s c p.1 p.2 color) cells c)).
Proof.
  destruct (line_cells_walk x0 y0 x1 y1 (line_fuel x0 y0 x1 y1) x0 y0
              (Z.abs (x1 - x0) - Z.abs (y1 - y0)) 0 0)
    as (cells & Hc & Hh & Hl & Hch & _); try (unfold line_fuel; lia).
  exists cells. split; [done|]. split; [done|]. split; [done|]. split.
  - intros extra. unfold drawLine_cells, drawLine_with.
    rewrite drawLine_loop_cells, (line_cells_more_fuel _ extra _ _ _ _ _ _ _ _ _ _ Hc).
    by rewrite fold_left_snoc_cells.
  - intros browser s c color extra. unfold drawLine, drawLine_with.
    by rewrite drawLine_loop_cells, (line_cells_more_fuel _ extra _ _ _ _ _ _ _ _ _ _ Hc).
Qed.

(** ** Flood fill *)

(** Filling the transparent region of [block_canvas] from the corner paints
    its five cells and leaves the blue block, in thirteen turns of the
    loop; filling again changes nothing. *)
Example floodFill_example :
  let s := small_state fill "#ff0000" 1 in
  let red_pixel := RGBA 255 0 0 255 in
  let filled :=
    mkCanvas 3 3
      [red_pixel; red_pixel; red_pixel;
       red_pixel; opaque_blue; opaque_blue;
       red_pixel; opaque_blue; opaque_blue]
      (RGBA 0 0 0 255) in
  floodFill 13 s block_canvas 0 0 "#ff0000" = Some filled
  /\ floodFill 0 s filled 0 0 "#ff0000" = Some filled
  /\ floodFill 12 s block_canvas 0 0 "#ff0000" = None.
Proof. vm_compute. repeat split. Qed.

Lemma rgba_eqb_eq c1 c2 : rgba_eqb c1 c2 = true <-> c1 = c2.
Proof.
  destruct c1 as [r1 g1 b1 a1], c2 as [r2 g2 b2 a2]. unfold rgba_eqb; cbn.
  rewrite !andb_true_iff, !Z.eqb_eq. split.
  - intros [[[-> ->] ->] ->]. done.
  - intros [= -> -> -> ->]. done.
Qed.

Lemma rgba_eqb_neq c1 c2 : rgba_eqb c1 c2 = false <-> c1 <> c2.
Proof.
  rewrite <- rgba_eqb_eq. destruct (rgba_eqb c1 c2); split; congruence.
Qed.

Lemma cell_index_inj W H x y x' y' :
  in_grid W H x y -> in_grid W H x' y' ->
  Z.to_nat (y * W + x) = Z.to_nat (y' * W + x') -> x = x' /\ y = y'.
Proof.
  intros Hin Hin' E.
  pose proof (cell_index_range _ _ _ _ Hin).
  pose proof (cell_index_range _ _ _ _ Hin').
  assert (E' : y * W + x = y' * W + x') by lia.
  destruct Hin as [Hx Hy], Hin' as [Hx' Hy'].
  assert (y = y') by nia. subst. lia.
Qed.

Lemma count_color_le t data : (count_color t data <= length data)%nat.
Proof. apply List.filter_length_le. Qed.

Lemma count_color_insert t f data : forall i c,
  data !! i = Some c -> c = t -> f <> t ->
  (count_color t (<[i := f]> data) + 1 = count_color t data)%nat.
Proof.
  unfold count_color.
  induction data as [|d data IH]; intros i c Hi Hc Hf; [done|].
  destruct i as [|i]; cbn in Hi.
  - injection Hi as ->. subst c.
    change (<[0%nat := f]> (t :: data)) with (f :: data). cbn [List.filter].
    apply rgba_eqb_neq in Hf. rewrite Hf.
    rewrite (proj2 (rgba_eqb_eq t t) eq_refl). cbn [length]. lia.
  - specialize (IH i c Hi Hc Hf).
    change (<[S i := f]> (d :: data)) with (d :: <[i := f]> data).
    cbn [List.filter].
    destruct (rgba_eqb d t); cbn [length]; lia.
Qed.

Lemma floodFill_loop_more_fuel s t f (fuel extra : nat) : forall data queue data',
  floodFill_loop fuel s t f data queue = Some data' ->
  floodFill_loop (fuel + extra) s t f data queue = Some data'.
Proof.
  induction fuel as [|fuel IH]; intros data queue data'.
  - destruct queue as [|[x y] queue]; [|done]. by destruct extra.
  - destruct queue as [|[x y] queue]; [done|].
    cbn [floodFill_loop Nat.add].
    destruct (colorsMatch (getPixelColor s x y data) t); apply IH.
Qed.

Lemma elem_of_push_neighbours s x y queue p :
  p ∈ push_neighbours s x y queue <->
  p ∈ queue
  \/ (x > 0 /\ p = (x - 1, y)) \/ (x < width s - 1 /\ p = (x + 1, y))
  \/ (y > 0 /\ p = (x, y - 1)) \/ (y < height s - 1 /\ p = (x, y + 1)).
Proof.
  unfold push_neighbours.
  destruct (Z.gtb_spec x 0), (Z.ltb_spec x (width s - 1)),
    (Z.gtb_spec y 0), (Z.ltb_spec y (height s - 1));
    rewrite ?elem_of_app, ?list_elem_of_singleton; intuition lia.
Qed.

Lemma length_push_neighbours s x y queue :
  (length (push_neighbours s x y queue) <= length queue + 4)%nat.
Proof.
  unfold push_neighbours.
  destruct (x >? 0), (x <? width s - 1), (y >? 0), (y <? height s - 1);
    rewrite ?length_app; cbn [length]; lia.
Qed.

Section FloodLoop.
Variable s : State.
Let W := width s.
Let H := height s.
Hypothesis HW : 0 < W.
Hypothesis HH : 0 < H.

Local Abbreviation px := (px s).

Lemma getPixelColor_px data x y :
  in_grid W H x y -> getPixelColor s x y data = px data x y.
Proof.
  intros Hin. pose proof (cell_index_range _ _ _ _ Hin) as Hr.
  unfold getPixelColor, px. fold W.
  destruct (Z.ltb_spec (y * W + x) 0); [lia|done].
Qed.

Lemma px_is_Some data x y :
  length data = Z.to_nat (W * H) -> in_grid W H x y -> is_Some (px data x y).
Proof.
  intros Hl Hin. pose proof (cell_index_range _ _ _ _ Hin) as Hr.
  apply lookup_lt_is_Some. lia.
Qed.

Lemma px_set_same data x y c :
  length data = Z.to_nat (W * H) -> in_grid W H x y ->
  px (setPixelData s x y data c) x y = Some c.
Proof.
  intros Hl Hin. pose proof (cell_index_range _ _ _ _ Hin) as Hr.
  unfold setPixelData, px. fold W.
  destruct (Z.ltb_spec (y * W + x) 0); [lia|].
  apply list_lookup_insert_eq. lia.
Qed.

Lemma px_set_other data x y c x' y' :
  in_grid W H x y -> in_grid W H x' y' -> (x', y') <> (x, y) ->
  px (setPixelData s x y data c) x' y' = px data x' y'.
Proof.
  intros Hin Hin' Hne.
  unfold setPixelData, px. fold W.
  destruct (Z.ltb_spec (y * W + x) 0); [done|].
  apply list_lookup_insert_ne. intros E.
  destruct (cell_index_inj _ _ _ _ _ _ Hin Hin' E). congruence.
Qed.

Lemma length_setPixelData data x y c :
  length (setPixelData s x y data c) = length data.
Proof.
  unfold setPixelData. destruct (_ <? 0); [done|]. apply length_insert.
Qed.

Variables (col : Z -> Z -> rgba) (t f : rgba) (sx sy : Z).
Hypothesis Htf : f <> t.

Let conn := connected W H col t sx sy.

Local Abbreviation flood_inv := (flood_inv s col t f sx sy).

Lemma flood_inv_init data0 :
  length data0 = Z.to_nat (W * H) ->
  (forall x y, in_grid W H x y -> px data0 x y = Some (col x y)) ->
  in_grid W H sx sy -> col sx sy = t -> flood_inv data0 [(sx, sy)].
Proof.
  intros Hlen0 Hcol Hin Hseed. split; [done|]. split; [|split; [|split]].
  - intros x y Hq. apply list_elem_of_singleton in Hq. injection Hq as -> ->.
    split; [done|]. intros _. by apply connected_seed.
  - intros x y Hxy. left. by apply Hcol.
  - intros x y x' y' Hxy _ _ Ht Hf. rewrite Hcol in Hf by done. congruence.
  - intros _. by apply list_elem_of_singleton.
Qed.

Lemma flood_inv_skip data x y queue :
  flood_inv data ((x, y) :: queue) -> px data x y <> Some t ->
  flood_inv data queue.
Proof.
  intros (Hl & Hq & Hp & Hc & Hs) Hne.
  split; [done|]. split; [|split; [|split]].
  - intros a b Hab. apply Hq. by right.
  - done.
  - intros a b a' b' Ha Ha' Hn Ht Hf Ht'.
    specialize (Hc a b a' b' Ha Ha' Hn Ht Hf Ht').
    apply elem_of_cons in Hc as [[= -> ->]|]; [congruence|done].
  - intros Ht. specialize (Hs Ht).
    apply elem_of_cons in Hs as [[= -> ->]|]; [congruence|done].
Qed.

Lemma neighbour4_pushed x y x' y' queue :
  in_grid W H x' y' -> neighbour4 x y x' y' ->
  (x', y') ∈ push_neighbours s x y queue.
Proof.
  intros [Hx Hy] Hn. apply elem_of_push_neighbours. fold W H.
  destruct Hn as [[-> ->]|[[-> ->]|[[-> ->]|[-> ->]]]].
  - right; left. split; [lia|done].
  - right; right; left. split; [lia|done].
  - right; right; right; left. split; [lia|done].
  - right; right; right; right. split; [lia|done].
Qed.

Lemma flood_inv_paint data x y queue :
  flood_inv data ((x, y) :: queue) -> px data x y = Some t ->
  flood_inv (setPixelData s x y data f) (push_neighbours s x y queue).
Proof.
  intros (Hl & Hq & Hp & Hc & Hs) Hxy.
  destruct (Hq x y) as [Hin Hconn]; [by left|].
  assert (Hcxy : col x y = t).
  { destruct (Hp x y Hin) as [E|(_ & E & _)]; congruence. }
  specialize (Hconn Hcxy).
  split; [by rewrite length_setPixelData|]. split; [|split; [|split]].
  - intros a b Hab. apply elem_of_push_neighbours in Hab. fold W H in Hab.
    assert (Hstep : neighbour4 x y a b -> in_grid W H a b ->
              in_grid W H a b /\ (col a b = t -> conn a b)).
    { intros Hn Hab'. split; [done|]. intros Ht.
      by apply (connected_step _ _ _ _ _ _ x y). }
    destruct Hin as [Hx Hy].
    destruct Hab as [Hq'|[[? [= -> ->]]|[[? [= -> ->]]|[[? [= -> ->]]|[? [= -> ->]]]]]].
    + apply Hq. by right.
    + apply Hstep; [unfold neighbour4; tauto | split; lia].
    + apply Hstep; [unfold neighbour4; tauto | split; lia].
    + apply Hstep; [unfold neighbour4; tauto | split; lia].
    + apply Hstep; [unfold neighbour4; tauto | split; lia].
  - intros a b Hab.
    destruct (decide ((a, b) = (x, y))) as [[= -> ->]|Hne].
    + right. rewrite px_set_same by done. done.
    + rewrite px_set_other by done. by apply Hp.
  - intros a b a' b' Hab Hab' Hn Ht Hf Ht'.
    assert (Hne' : (a', b') <> (x, y)).
    { intros [= -> ->]. rewrite px_set_same in Ht' by done. congruence. }
    rewrite px_set_other in Ht' by done.
    destruct (decide ((a, b) = (x, y))) as [[= -> ->]|Hne].
    + by apply neighbour4_pushed.
    + rewrite px_set_other in Hf by done.
      specialize (Hc a b a' b' Hab Hab' Hn Ht Hf Ht').
      apply elem_of_push_neighbours. left.
      apply elem_of_cons in Hc as [?|?]; [congruence|done].
  - intros Ht.
    apply elem_of_push_neighbours. left.
    destruct (decide ((sx, sy) = (x, y))) as [[= -> ->]|Hne].
    { rewrite px_set_same in Ht by done. congruence. }
    assert (Ht0 : px data sx sy = Some t).
    { revert Ht. unfold setPixelData, px. fold W.
      destruct (Z.ltb_spec (y * W + x) 0); [done|].
      destruct (decide (Z.to_nat (y * W + x) = Z.to_nat (sy * W + sx))) as [E|E].
      - rewrite E, list_lookup_insert_eq; [congruence|].
        rewrite <- E. pose proof (cell_index_range _ _ _ _ Hin). lia.
      - by rewrite list_lookup_insert_ne. }
    specialize (Hs Ht0).
    apply elem_of_cons in Hs as [?|?]; [congruence|done].
Qed.

Lemma floodFill_loop_inv (fuel : nat) : forall data queue,
  flood_inv data queue ->
  (4 * count_color t data + length queue <= fuel)%nat ->
  exists data',
    floodFill_loop fuel s (Some t) f data queue = Some data'
    /\ flood_inv data' [].
Proof.
  induction fuel as [|fuel IH]; intros data queue Hinv Hfuel;
    destruct queue as [|[x y] queue].
  - by exists data.
  - cbn [length] in Hfuel. lia.
  - by exists data.
  - cbn [floodFill_loop].
    pose proof Hinv as (Hl & Hq & _).
    destruct (Hq x y) as [Hin _]; [by left|].
    rewrite getPixelColor_px by done.
    destruct (px_is_Some data x y Hl Hin) as [c Hc].
    rewrite Hc. cbn [colorsMatch]. cbn [length] in Hfuel.
    destruct (rgba_eqb c t) eqn:E.
    + apply rgba_eqb_eq in E. subst c.
      apply IH; [by apply flood_inv_paint|].
      pose proof (length_push_neighbours s x y queue).
      assert ((count_color t (setPixelData s x y data f) + 1
               = count_color t data)%nat).
      { pose proof (cell_index_range _ _ _ _ Hin).
        unfold setPixelData. fold W.
        destruct (Z.ltb_spec (y * W + x) 0); [lia|].
        by apply (count_color_insert t f data _ t). }
      lia.
    + apply rgba_eqb_neq in E.
      apply IH; [|lia].
      apply (flood_inv_skip data x y); [done|congruence].
Qed.

Lemma connected_in_grid x y : conn x y -> in_grid W H x y.
Proof. by intros []. Qed.

Lemma flood_inv_final data x y :
  flood_inv data [] -> in_grid W H x y ->
  (conn x y -> px data x y = Some f)
  /\ (~ conn x y -> px data x y = Some (col x y)).
Proof.
  intros (Hl & Hq & Hp & Hc & Hs) Hin. split.
  - intros Hconn. clear Hin.
    induction Hconn as [Hin Hseed|a b a' b' Hab IH Hn Hin' Ht].
    + destruct (Hp sx sy Hin) as [E|(_ & E & _)]; [|done].
      rewrite Hseed in E. specialize (Hs E). by apply elem_of_nil in Hs.
    + destruct (Hp a' b' Hin') as [E|(_ & E & _)]; [|done].
      rewrite Ht in E.
      pose proof (connected_in_grid _ _ Hab) as Hin.
      assert (Hta : col a b = t) by (by destruct Hab).
      specialize (Hc a b a' b' Hin Hin' Hn Hta IH E).
      by apply elem_of_nil in Hc.
  - intros Hn. destruct (Hp x y Hin) as [E|(_ & _ & E)]; [done|]. by destruct Hn.
Qed.
End FloodLoop.

(** The image of a canvas of the size of the grid. *)

Lemma canvas_get_px s c x y :
  synced s c -> in_grid (width s) (height s) x y ->
  px s (cv_pixels c) x y = Some (canvas_get c x y).
Proof.
  intros (Hw & Hh & HW & HH & Hl) Hin.
  pose proof (cell_index_range _ _ _ _ Hin) as Hr.
  unfold canvas_get, px. rewrite Hw, Hh.
  destruct Hin as [Hx Hy].
  destruct (Z.leb_spec 0 x); [|lia]. destruct (Z.ltb_spec x (width s)); [|lia].
  destruct (Z.leb_spec 0 y); [|lia]. destruct (Z.ltb_spec y (height s)); [|lia].
  cbn [andb].
  destruct (lookup_lt_is_Some_2 (cv_pixels c) (Z.to_nat (y * width s + x)))
    as [p Hp]; [lia|].
  by rewrite Hp.
Qed.

Lemma getImageData_synced s c :
  synced s c -> getImageData c 0 0 (width s) (height s) = cv_pixels c.
Proof.
  intros Hs. pose proof Hs as (Hw & Hh & HW & HH & Hl).
  unfold getImageData.
  apply list_eq_same_length with (n := Z.to_nat (width s * height s)); [done| |].
  { by rewrite length_map, length_seq. }
  intros k p q Hk Hp Hq.
  change (map ?g ?l) with (g <$> l) in Hp.
  rewrite list_lookup_fmap, lookup_seq_lt in Hp by done.
  cbn in Hp. injection Hp as <-.
  set (x := Z.of_nat k mod width s). set (y := Z.of_nat k / width s).
  assert (Hxy : Z.of_nat k = y * width s + x).
  { subst x y. pose proof (Z.div_mod (Z.of_nat k) (width s)). lia. }
  assert (Hx : 0 <= x < width s) by (apply Z.mod_pos_bound; lia).
  assert (Hy : 0 <= y < height s).
  { split; [apply Z.div_pos; lia|]. apply Z.div_lt_upper_bound; lia. }
  pose proof (canvas_get_px s c x y Hs (conj Hx Hy)) as E.
  unfold px in E. rewrite <- Hxy, Nat2Z.id, Hq in E. by injection E.
Qed.

Lemma putImageData_synced s c data :
  synced s c -> length data = Z.to_nat (width s * height s) ->
  putImageData c data (width s) (height s) = set_pixels data c.
Proof.
  intros (Hw & Hh & HW & HH & Hl) Hd.
  unfold putImageData. f_equal.
  apply list_eq_same_length with (n := Z.to_nat (width s * height s)); [done| |].
  { by rewrite length_imap. }
  intros k p q Hk Hp Hq.
  rewrite list_lookup_imap in Hp.
  destruct (cv_pixels c !! k) as [old|] eqn:Eold; [|done].
  cbn in Hp. injection Hp as <-. rewrite Hw.
  set (x := Z.of_nat k mod width s). set (y := Z.of_nat k / width s).
  assert (Hxy : Z.of_nat k = y * width s + x).
  { subst x y. pose proof (Z.div_mod (Z.of_nat k) (width s)). lia. }
  assert (Hx : 0 <= x < width s) by (apply Z.mod_pos_bound; lia).
  assert (Hy : 0 <= y < height s).
  { split; [apply Z.div_pos; lia|]. apply Z.div_lt_upper_bound; lia. }
  destruct (Z.ltb_spec x (width s)); [|lia].
  destruct (Z.ltb_spec y (height s)); [|lia].
  cbn [andb]. by rewrite <- Hxy, Nat2Z.id, Hq.
Qed.

Lemma synced_set_pixels s c data :
  synced s c -> length data = Z.to_nat (width s * height s) ->
  synced s (set_pixels data c).
Proof. intros (Hw & Hh & HW & HH & Hl) Hd. by repeat split. Qed.

Lemma connected_color w h col t sx sy x y :
  connected w h col t sx sy x y -> col x y = t.
Proof. by intros []. Qed.

Lemma set_pixels_id c : set_pixels (cv_pixels c) c = c.
Proof. by destruct c. Qed.

Lemma colorsMatch_refl c : colorsMatch c c = true.
Proof. destruct c as [p|]; [|done]. by apply rgba_eqb_eq. Qed.

Lemma floodFill_loop_length s t f (fuel : nat) : forall data queue data',
  floodFill_loop fuel s t f data queue = Some data' ->
  length data' = length data.
Proof.
  induction fuel as [|fuel IH]; intros data queue data';
    destruct queue as [|[x y] queue]; cbn [floodFill_loop];
    try congruence.
  destruct (colorsMatch (getPixelColor s x y data) t); intros E;
    apply IH in E; [|done].
  rewrite E. unfold setPixelData. destruct (_ <? 0); [done|]. apply length_insert.
Qed.

Lemma floodFill_loop_keeps s t f (idx : nat) (fuel : nat) : forall data queue data',
  data !! idx = Some f ->
  floodFill_loop fuel s t f data queue = Some data' ->
  data' !! idx = Some f.
Proof.
  induction fuel as [|fuel IH]; intros data queue data' Hf;
    destruct queue as [|[x y] queue]; cbn [floodFill_loop];
    try congruence.
  destruct (colorsMatch (getPixelColor s x y data) t); [|by apply IH].
  apply IH. unfold setPixelData. destruct (_ <? 0); [done|].
  destruct (decide (Z.to_nat (y * width s + x) = idx)) as [->|Hne].
  - apply list_lookup_insert_eq. by apply lookup_lt_Some in Hf.
  - by rewrite list_lookup_insert_ne.
Qed.

Lemma floodFill_loop_undefined s f (fuel : nat) : forall data queue data',
  floodFill_loop fuel s None f data queue = Some data' -> data' = data.
Proof.
  induction fuel as [|fuel IH]; intros data queue data';
    destruct queue as [|[x y] queue]; cbn [floodFill_loop];
    try congruence.
  destruct (getPixelColor s x y data) as [p|] eqn:E; cbn [colorsMatch];
    [by apply IH|].
  intros Hl. apply IH in Hl. rewrite Hl.
  unfold getPixelColor in E. unfold setPixelData.
  destruct (_ <? 0); [done|].
  apply list_insert_ge. by apply lookup_ge_None.
Qed.

(** The result of [floodFill] from a seed in the grid whose colour differs
    from the fill colour. *)
Lemma floodFill_component s c x y color :
  synced s c -> in_grid (width s) (height s) x y ->
  canvas_get c x y <> hexToRgb color ->
  exists c',
    (forall extra, floodFill (fill_fuel s + extra) s c x y color = Some c')
    /\ synced s c'
    /\ forall i j, in_grid (width s) (height s) i j ->
         (connected (width s) (height s) (canvas_get c) (canvas_get c x y) x y i j ->
          canvas_get c' i j = hexToRgb color)
         /\ (~ connected (width s) (height s) (canvas_get c) (canvas_get c x y) x y i j ->
             canvas_get c' i j = canvas_get c i j).
Proof.
  intros Hs Hin Hne. pose proof Hs as (Hw & Hh & HW & HH & Hl).
  set (t := canvas_get c x y). set (f := hexToRgb color).
  assert (Hcol : forall a b, in_grid (width s) (height s) a b ->
            px s (cv_pixels c) a b = Some (canvas_get c a b))
    by (intros; by apply canvas_get_px).
  assert (Hft : f <> t) by (intros E; by apply Hne).
  destruct (floodFill_loop_inv s HW HH (canvas_get c) t f x y Hft
              (4 * Z.to_nat (width s * height s) + 1) (cv_pixels c) [(x, y)])
    as (data' & Hloop & Hinv).
  { by apply flood_inv_init. }
  { pose proof (count_color_le t (cv_pixels c)). cbn [length]. lia. }
  pose proof (floodFill_loop_length _ _ _ _ _ _ _ Hloop) as Hl'.
  assert (Hs' : synced s (set_pixels data' c))
    by (apply synced_set_pixels; [done|congruence]).
  exists (set_pixels data' c). split; [|split; [done|]].
  - intros extra. unfold floodFill.
    rewrite getImageData_synced, getPixelColor_px, Hcol by done.
    cbn [colorsMatch]. fold t f.
    replace (rgba_eqb t f) with false
      by (symmetry; by apply rgba_eqb_neq).
    replace (fill_fuel s + extra)%nat
      with ((4 * Z.to_nat (width s * height s) + 1) + extra)%nat
      by (unfold fill_fuel; lia).
    rewrite (floodFill_loop_more_fuel _ _ _ _ extra _ _ _ Hloop).
    by rewrite putImageData_synced by (done || congruence).
  - intros i j Hij.
    pose proof (canvas_get_px s _ i j Hs' Hij) as Epx. cbn [cv_pixels set_pixels] in Epx.
    destruct (flood_inv_final s (canvas_get c) t f x y data' i j Hinv Hij)
      as [Hyes Hno].
    split; intros Hc; [specialize (Hyes Hc)|specialize (Hno Hc)]; congruence.
Qed.

(** With a colour text outside the six-digit form the cells of the
    component are painted opaque black. *)
Lemma floodFill_not_hex6_paints_black s c x y color :
  ~ hex6_form color ->
  synced s c -> in_grid (width s) (height s) x y ->
  canvas_get c x y <> RGBA 0 0 0 255 ->
  exists c',
    (forall extra, floodFill (fill_fuel s + extra) s c x y color = Some c')
    /\ forall i j,
         connected (width s) (height s) (canvas_get c) (canvas_get c x y) x y i j ->
         canvas_get c' i j = RGBA 0 0 0 255.
Proof.
  intros Hn Hs Hin Hne.
  pose proof (hexToRgb_default color Hn) as Eblack.
  destruct (floodFill_component s c x y color Hs Hin) as (c' & Hrun & _ & Hcells);
    [by rewrite Eblack|].
  exists c'. split; [done|]. intros i j Hc. rewrite <- Eblack.
  apply (Hcells i j); [|done]. by destruct Hc.
Qed.

(** C4: on a canvas of the size of the grid, from a seed in the grid whose
    colour differs from the fill colour, [floodFill] finishes (with fuel
    [fill_fuel] or more) and the cells of the 4-connected component of the
    seed among the cells of the seed's colour get the fill colour, while
    every other cell, and so every cell of another colour, keeps its
    colour. *)
Theorem floodFill_fills_exactly_component s c x y color :
  synced s c -> in_grid (width s) (height s) x y ->
  canvas_get c x y <> hexToRgb color ->
  exists c',
    (forall extra, floodFill (fill_fuel s + extra) s c x y color = Some c')
    /\ synced s c'
    /\ forall i j, in_grid (width s) (height s) i j ->
         (connected (width s) (height s) (canvas_get c) (canvas_get c x y) x y i j ->
          canvas_get c' i j = hexToRgb color)
         /\ (~ connected (width s) (height s) (canvas_get c) (canvas_get c x y) x y i j ->
             canvas_get c' i j = canvas_get c i j)
         /\ (canvas_get c i j <> canvas_get c x y ->
             canvas_get c' i j = canvas_get c i j).
Proof.
  intros Hs Hin Hne.
  destruct (floodFill_component s c x y color Hs Hin Hne) as (c' & Hrun & Hs' & Hcells).
  exists c'. split; [done|]. split; [done|].
  intros i j Hij. destruct (Hcells i j Hij) as [Hyes Hno].
  split; [done|]. split; [done|].
  intros Hcolor. apply Hno. intros Hc.
  by apply connected_color in Hc.
Qed.

Lemma block_canvas_synced tool color brush :
  synced (small_state tool color brush) block_canvas.
Proof. repeat split; reflexivity. Qed.

Lemma floodFill_fills_exactly_component_witness :
  exists c',
    (forall extra,
        floodFill (fill_fuel (small_state fill "#ff0000" 1) + extra)
          (small_state fill "#ff0000" 1) block_canvas 0 0 "#ff0000" = Some c')
    /\ synced (small_state fill "#ff0000" 1) c'
    /\ forall i j, in_grid 3 3 i j ->
         (connected 3 3 (canvas_get block_canvas) (canvas_get block_canvas 0 0) 0 0 i j ->
          canvas_get c' i j = hexToRgb "#ff0000")
         /\ (~ connected 3 3 (canvas_get block_canvas) (canvas_get block_canvas 0 0) 0 0 i j ->
             canvas_get c' i j = canvas_get block_canvas i j)
         /\ (canvas_get block_canvas i j <> canvas_get block_canvas 0 0 ->
             canvas_get c' i j = canvas_get block_canvas i j).
Proof.
  apply (floodFill_fills_exactly_component (small_state fill "#ff0000" 1)
           block_canvas 0 0 "#ff0000").
  - apply block_canvas_synced.
  - unfold in_grid; simpl; lia.
  - vm_compute. discriminate.
Defined.

(** C7: on a canvas of the size of the grid, whenever [floodFill] returns,
    the same call on its result returns that result unchanged; from a seed
    in the grid it does return (with fuel [fill_fuel] or more), and the
    second call is then a no-op whatever the fuel; when the seed already has
    the fill colour the first call leaves the canvas as it is. *)
Theorem floodFill_idempotent s c x y color :
  synced s c ->
  (forall fuel c1,
      floodFill fuel s c x y color = Some c1 ->
      floodFill fuel s c1 x y color = Some c1)
  /\ (in_grid (width s) (height s) x y ->
      exists c1,
        (forall extra, floodFill (fill_fuel s + extra) s c x y color = Some c1)
        /\ forall fuel, floodFill fuel s c1 x y color = Some c1)
  /\ (in_grid (width s) (height s) x y ->
      canvas_get c x y = hexToRgb color ->
      forall fuel, floodFill fuel s c x y color = Some c).
Proof.
  intros Hs. pose proof Hs as (Hw & Hh & HW & HH & Hl).
  assert (Hnoop : forall c0, synced s c0 ->
            getPixelColor s x y (cv_pixels c0) = Some (hexToRgb color) ->
            forall fuel, floodFill fuel s c0 x y color = Some c0).
  { intros c0 Hs0 E fuel. unfold floodFill.
    by rewrite getImageData_synced, E, colorsMatch_refl by done. }
  assert (Hrepeat : forall fuel c1,
            floodFill fuel s c x y color = Some c1 ->
            floodFill fuel s c1 x y color = Some c1).
  { intros fuel c1 Hrun. pose proof Hrun as Hrun0. unfold floodFill in Hrun.
    rewrite getImageData_synced in Hrun by done.
    destruct (colorsMatch (getPixelColor s x y (cv_pixels c))
                (Some (hexToRgb color))) eqn:Em.
    { by injection Hrun as <-. }
    destruct (floodFill_loop fuel s (getPixelColor s x y (cv_pixels c))
                (hexToRgb color) (cv_pixels c) [(x, y)]) as [data'|] eqn:Eloop;
      [|done].
    injection Hrun as <-.
    pose proof (floodFill_loop_length _ _ _ _ _ _ _ Eloop) as Hl'.
    rewrite putImageData_synced by (done || congruence).
    destruct (getPixelColor s x y (cv_pixels c)) as [t|] eqn:Et.
    - (* the seed reads a pixel: the first turn of the loop repaints it *)
      apply Hnoop; [apply synced_set_pixels; [done|congruence]|].
      cbn [cv_pixels set_pixels].
      destruct fuel as [|fuel]; [done|].
      cbn [floodFill_loop] in Eloop.
      rewrite Et, colorsMatch_refl in Eloop.
      unfold getPixelColor in Et |- *.
      destruct (Z.ltb_spec (y * width s + x) 0); [done|].
      eapply floodFill_loop_keeps; [|exact Eloop].
      unfold setPixelData.
      destruct (Z.ltb_spec (y * width s + x) 0); [lia|].
      apply list_lookup_insert_eq. by apply lookup_lt_Some in Et.
    - (* the seed reads outside the array: nothing is written *)
      apply floodFill_loop_undefined in Eloop. subst data'.
      rewrite putImageData_synced, set_pixels_id in Hrun0 by done.
      rewrite set_pixels_id. exact Hrun0. }
  split; [exact Hrepeat|]. split.
  - intros Hin.
    destruct (rgba_eqb (canvas_get c x y) (hexToRgb color)) eqn:E;
      [apply rgba_eqb_eq in E|apply rgba_eqb_neq in E; rename E into Hne].
    + exists c.
      assert (forall fuel, floodFill fuel s c x y color = Some c).
      { apply Hnoop; [done|].
        by rewrite getPixelColor_px, canvas_get_px, E by done. }
      split; [|done]. intros extra. done.
    + destruct (floodFill_component s c x y color Hs Hin Hne)
        as (c1 & Hrun & Hs1 & Hcells).
      exists c1. split; [done|].
      apply Hnoop; [done|].
      rewrite getPixelColor_px, canvas_get_px by done. f_equal.
      apply (Hcells x y Hin). by apply connected_seed.
  - intros Hin E. apply Hnoop; [done|].
    by rewrite getPixelColor_px, canvas_get_px, E by done.
Qed.

Lemma floodFill_idempotent_witness :
  exists c1,
    (forall extra,
        floodFill (fill_fuel (small_state fill "#ff0000" 1) + extra)
          (small_state fill "#ff0000" 1) block_canvas 0 0 "#ff0000" = Some c1)
    /\ forall fuel,
         floodFill fuel (small_state fill "#ff0000" 1) c1 0 0 "#ff0000" = Some c1.
Proof.
  destruct (floodFill_idempotent (small_state fill "#ff0000" 1) block_canvas
              0 0 "#ff0000") as (_ & Htotal & _).
  - apply block_canvas_synced.
  - apply Htotal. unfold in_grid; simpl; lia.
Defined.


(** ** Filling with a colour text outside the six-digit form *)

(** A fill with a text that [hexToRgb] reads as opaque black: the cells of
    the component of the seed are opaque black afterwards, the others keep
    their pixel. *)
Lemma floodFill_black_region s c x y color :
  hexToRgb color = RGBA 0 0 0 255 ->
  synced s c -> in_grid (width s) (height s) x y ->
  exists c',
    (forall extra, floodFill (fill_fuel s + extra) s c x y color = Some c')
    /\ synced s c'
    /\ forall i j, in_grid (width s) (height s) i j ->
         (connected (width s) (height s) (canvas_get c) (canvas_get c x y) x y i j ->
          canvas_get c' i j = RGBA 0 0 0 255)
         /\ (~ connected (width s) (height s) (canvas_get c) (canvas_get c x y) x y i j ->
             canvas_get c' i j = canvas_get c i j).
Proof.
  intros Eblack Hs Hin.
  destruct (rgba_eqb (canvas_get c x y) (hexToRgb color)) eqn:E;
    [apply rgba_eqb_eq in E|apply rgba_eqb_neq in E].
  - exists c. split; [|split; [done|]].
    + intros extra. unfold floodFill.
      by rewrite getImageData_synced, getPixelColor_px, canvas_get_px, E,
        colorsMatch_refl by done.
    + intros i j _. split; [|done].
      intros Hc. apply connected_color in Hc. congruence.
  - destruct (floodFill_component s c x y color Hs Hin E) as (c' & Hrun & Hs' & Hcells).
    exists c'. split; [done|]. split; [done|].
    intros i j Hij. destruct (Hcells i j Hij) as [Hyes Hno].
    split; [|done]. intros Hc. rewrite <- Eblack. by apply Hyes.
Qed.

(** C9: a colour text that is not six hexadecimal digits after an optional
    ['#'] makes [hexToRgb] return opaque black, and so does the text that
    [buildColor] makes from a six-digit colour and an alpha below 255 (the
    colour followed by two more digits).  [floodFill] called with such a
    text does what it does when called with ["#000000"]: on a canvas of the
    size of the grid, from a seed in the grid, it finishes (with fuel
    [fill_fuel] or more) and leaves the cells of the component of the seed
    opaque black, whatever the text was meant to say, and the other cells
    as they were. *)
Theorem hexToRgb_not_hex6_is_black (hex t : string) (a : Z) :
  ~ hex6_form hex -> six_hex_digits t -> 0 <= a < 255 ->
  hexToRgb hex = RGBA 0 0 0 255
  /\ hexToRgb (buildColor (String "#" t) a) = RGBA 0 0 0 255
  /\ forall color, color = hex \/ color = buildColor (String "#" t) a ->
     forall (s : State) (c : Canvas) (x y : Z),
       (forall fuel,
           floodFill fuel s c x y color = floodFill fuel s c x y "#000000")
       /\ (synced s c -> in_grid (width s) (height s) x y ->
           exists c',
             (forall extra,
                 floodFill (fill_fuel s + extra) s c x y color = Some c')
             /\ synced s c'
             /\ forall i j, in_grid (width s) (height s) i j ->
                  (connected (width s) (height s) (canvas_get c)
                     (canvas_get c x y) x y i j ->
                   canvas_get c' i j = RGBA 0 0 0 255)
                  /\ (~ connected (width s) (height s) (canvas_get c)
                          (canvas_get c x y) x y i j ->
                      canvas_get c' i j = canvas_get c i j)).
Proof.
  intros Hn Ht Ha.
  pose proof (hexToRgb_default _ Hn) as E1.
  pose proof (hexToRgb_default _ (buildColor_not_hex6 t a Ht Ha)) as E2.
  split; [exact E1|]. split; [exact E2|].
  intros color Hcolor s c x y.
  assert (Eblack : hexToRgb color = RGBA 0 0 0 255)
    by (destruct Hcolor as [-> | ->]; done).
  split.
  - intros fuel. unfold floodFill. by rewrite Eblack.
  - intros Hs Hin. by apply floodFill_black_region.
Qed.

Lemma hexToRgb_not_hex6_is_black_witness :
  hexToRgb "#38bdf880" = RGBA 0 0 0 255
  /\ buildColor "#38bdf8" 128 = "#38bdf880"%string
  /\ canvas_get block_canvas 1 1 = opaque_blue
  /\ exists c',
       (forall extra,
           floodFill (fill_fuel (small_state fill "#38bdf880" 1) + extra)
             (small_state fill "#38bdf880" 1) block_canvas 1 1
             (buildColor "#38bdf8" 128) = Some c')
       /\ canvas_get c' 1 1 = RGBA 0 0 0 255
       /\ canvas_get c' 2 2 = RGBA 0 0 0 255
       /\ canvas_get c' 0 0 = transparent.
Proof.
  destruct (hexToRgb_not_hex6_is_black "#38bdf880" "38bdf8" 128)
    as (Hblack & _ & Hfill).
  - intros (t & [Hl _] & [E|E]); [|injection E as E]; subst t; discriminate Hl.
  - split; [reflexivity|]. cbn.
    do 6 (constructor; [unfold is_hex_digit; cbn; tauto|]). constructor.
  - lia.
  - split; [exact Hblack|]. split; [reflexivity|]. split; [reflexivity|].
    destruct (Hfill (buildColor "#38bdf8" 128) (or_intror eq_refl)
                (small_state fill "#38bdf880" 1) block_canvas 1 1)
      as (_ & Hregion).
    destruct Hregion as (c' & Hrun & _ & Hcells).
    { apply block_canvas_synced. }
    { unfold in_grid. simpl. lia. }
    exists c'. split; [exact Hrun|].
    assert (Hseed : connected 3 3 (canvas_get block_canvas)
                      (canvas_get block_canvas 1 1) 1 1 1 1).
    { apply connected_seed; [unfold in_grid; simpl; lia|reflexivity]. }
    split; [|split].
    + apply (Hcells 1 1); [unfold in_grid; simpl; lia|exact Hseed].
    + apply (Hcells 2 2); [unfold in_grid; simpl; lia|].
      apply (connected_step _ _ _ _ _ _ 2 1);
        [|unfold neighbour4; lia|unfold in_grid; simpl; lia|reflexivity].
      apply (connected_step _ _ _ _ _ _ 1 1);
        [exact Hseed|unfold neighbour4; lia|unfold in_grid; simpl; lia|reflexivity].
    + transitivity (canvas_get block_canvas 0 0); [|reflexivity].
      apply (Hcells 0 0); [unfold in_grid; simpl; lia|].
      intros Hc. apply connected_color in Hc. vm_compute in Hc. discriminate Hc.
Defined.

(** * Further properties *)

(** ** The two stacks *)

(** X1: in every state that [saveHistory], [performUndo], [performRedo] and
    the partial updates reach from [new State()], [maxHistory] is 50 and
    [history] and [redoStack] hold at most 50 snapshots between them. *)
Theorem reachable_stacks_within_limit (s : State) :
  reachable s ->
  maxHistory s = 50
  /\ (length (history s) + length (redoStack s) <= 50)%nat.
Proof. apply reachable_history_bound. Qed.

Lemma reachable_stacks_within_limit_witness :
  maxHistory (performUndo (pushAll sixty_snapshots State_constructor)).1 = 50
  /\ (length (history (performUndo (pushAll sixty_snapshots State_constructor)).1)
      + length (redoStack (performUndo (pushAll sixty_snapshots State_constructor)).1)
      <= 50)%nat.
Proof.
  apply (reachable_stacks_within_limit
           (performUndo (pushAll sixty_snapshots State_constructor)).1).
  apply reach_undo. unfold pushAll.
  generalize sixty_snapshots. intros l.
  rewrite <- fold_left_rev_right.
  induction (rev l) as [|d l' IH]; [apply reach_new|].
  cbn [fold_right]. apply reach_save, IH.
Defined.

Lemma performUndo_baseline s :
  (length (history s) <= 1)%nat -> performUndo s = (s, None).
Proof.
  intros Hl. unfold performUndo.
  destruct (Z.leb_spec (Z.of_nat (length (history s))) 1); [done|lia].
Qed.

Lemma performRedo_empty s : redoStack s = [] -> performRedo s = (s, None).
Proof. intros E. unfold performRedo. by rewrite E. Qed.

Lemma list_snoc_cases {A} (l : list A) : l = [] \/ exists h x, l = h ++ [x].
Proof.
  destruct l as [|a l]; [by left|right].
  destruct (exists_last (l := a :: l)) as [h [x E]]; [done|]. eauto.
Qed.

Lemma set_stacks_same s : set_stacks (history s) (redoStack s) s = s.
Proof. by destruct s. Qed.

(** X2: [performUndo()] returns [null] and changes nothing while [history]
    holds at most one snapshot.  With two or more it moves the newest
    snapshot to [redoStack] and returns the one below it, which stays on top
    of [history].  It never empties a [history] that holds a snapshot. *)
Theorem performUndo_result (s : State) :
  ((length (history s) <= 1)%nat ->
   performUndo s = (s, None))
  /\ ((2 <= length (history s))%nat ->
      exists h prev top,
        history s = h ++ [prev; top]
        /\ (performUndo s).2 = Some prev
        /\ history (performUndo s).1 = h ++ [prev]
        /\ redoStack (performUndo s).1 = redoStack s ++ [top])
  /\ (history s <> [] -> history (performUndo s).1 <> []).
Proof.
  split; [apply performUndo_baseline|]. split.
  - intros Hl. destruct (two_last _ Hl) as (h & x & y & Hh).
    exists h, x, y. rewrite (performUndo_snoc s h x y Hh). done.
  - intros Hne.
    destruct (le_lt_dec (length (history s)) 1) as [Hl|Hl].
    + by rewrite performUndo_baseline.
    + destruct (two_last (history s)) as (h & x & y & Hh); [lia|].
      rewrite (performUndo_snoc s h x y Hh). cbn. by destruct h.
Qed.

(** X3: when both stacks hold a snapshot, [performRedo()] followed by
    [performUndo()] gives back the state it started from, and the undo
    returns the snapshot that was on top of [history] at the start. *)
Theorem redo_then_undo_restores (s : State) :
  history s <> [] -> redoStack s <> [] ->
  performUndo (performRedo s).1 = (s, last (history s)).
Proof.
  intros Hh Hr.
  destruct (list_snoc_cases (history s)) as [E|(h & x & Eh)]; [done|].
  destruct (list_snoc_cases (redoStack s)) as [E|(r & y & Er)]; [done|].
  rewrite (performRedo_snoc s r y Er). cbn [fst].
  rewrite (performUndo_snoc _ h x y).
  - rewrite Eh, last_snoc. f_equal.
    destruct s. cbn in *. by subst.
  - cbn. rewrite Eh. by rewrite <- app_assoc.
Qed.

Lemma redo_then_undo_restores_witness :
  performUndo
    (performRedo
       (set_stacks [numbered_snapshot 0] [numbered_snapshot 1] State_constructor)).1
  = (set_stacks [numbered_snapshot 0] [numbered_snapshot 1] State_constructor,
     last (history
             (set_stacks [numbered_snapshot 0] [numbered_snapshot 1]
                State_constructor))).
Proof.
  apply (redo_then_undo_restores
           (set_stacks [numbered_snapshot 0] [numbered_snapshot 1]
              State_constructor)); simpl; discriminate.
Defined.

Lemma undo_redo_state s :
  (2 <= length (history s))%nat -> (performRedo (performUndo s).1).1 = s.
Proof.
  intros Hl. destruct (two_last _ Hl) as (h & x & y & Hh).
  rewrite (performUndo_snoc s h x y Hh). cbn [fst].
  rewrite (performRedo_snoc _ (redoStack s) y) by done. cbn [fst history set_stacks].
  replace ((h ++ [x]) ++ [y]) with (history s)
    by (rewrite Hh; by rewrite <- app_assoc).
  by destruct s.
Qed.

Lemma history_performUndo s :
  (2 <= length (history s))%nat ->
  history (performUndo s).1 = take (length (history s) - 1) (history s).
Proof.
  intros Hl. destruct (two_last _ Hl) as (h & x & y & Hh).
  rewrite (performUndo_snoc s h x y Hh). cbn [fst history set_stacks].
  rewrite Hh. replace (h ++ [x; y]) with ((h ++ [x]) ++ [y])
    by (by rewrite <- app_assoc).
  rewrite length_app. cbn [length].
  replace (length (h ++ [x]) + 1 - 1)%nat with (length (h ++ [x])) by lia.
  by rewrite take_app_length.
Qed.

(** X4: [n] undos in a row, for [n] below the length of [history], strip
    the [n] newest snapshots from [history]; [n] redos after them give the
    starting state back. *)
Theorem undo_times_redo_times (n : nat) (s : State) :
  (n < length (history s))%nat ->
  history (undo_times n s) = take (length (history s) - n) (history s)
  /\ redo_times n (undo_times n s) = s.
Proof.
  revert s. induction n as [|n IH]; intros s Hn.
  - cbn. split; [|done]. rewrite Nat.sub_0_r. by rewrite take_ge.
  - cbn [undo_times redo_times].
    assert (Hl : (2 <= length (history s))%nat) by lia.
    pose proof (history_performUndo s Hl) as Hh.
    destruct (IH (performUndo s).1) as [IH1 IH2].
    { rewrite Hh, length_take. lia. }
    split.
    + rewrite IH1, Hh, length_take, take_take. f_equal. lia.
    + rewrite IH2. by apply undo_redo_state.
Qed.

Lemma undo_times_redo_times_witness :
  history (undo_times 2 (pushAll sixty_snapshots State_constructor))
  = take (length (history (pushAll sixty_snapshots State_constructor)) - 2)
      (history (pushAll sixty_snapshots State_constructor))
  /\ redo_times 2 (undo_times 2 (pushAll sixty_snapshots State_constructor))
     = pushAll sixty_snapshots State_constructor.
Proof.
  apply (undo_times_redo_times 2 (pushAll sixty_snapshots State_constructor)).
  vm_compute. lia.
Defined.

(** ** Colour texts, continued *)

Ltac each_ascii ch :=
  let b0 := fresh in let b1 := fresh in let b2 := fresh in let b3 := fresh in
  let b4 := fresh in let b5 := fresh in let b6 := fresh in let b7 := fresh in
  destruct ch as [b0 b1 b2 b3 b4 b5 b6 b7];
  destruct b0, b1, b2, b3, b4, b5, b6, b7.

Lemma hex_digit_range ch d : hex_digit ch = Some d -> 0 <= d <= 15.
Proof.
  unfold hex_digit.
  repeat match goal with
         | |- context [Z.leb ?a ?b] => destruct (Z.leb_spec a b)
         end; cbn [andb]; intros [= <-]; lia.
Qed.

Lemma parse_hex_pair_range c1 c2 v : parse_hex_pair c1 c2 = Some v -> 0 <= v <= 255.
Proof.
  unfold parse_hex_pair.
  destruct (hex_digit c1) as [h|] eqn:E1; [|done].
  destruct (hex_digit c2) as [l|] eqn:E2; [|done].
  apply hex_digit_range in E1, E2. intros [= <-]. lia.
Qed.

(** X5: whatever the text, [hexToRgb] returns three channels between 0 and
    255 and the alpha 255. *)
Theorem hexToRgb_opaque_bytes (hex : string) :
  0 <= red (hexToRgb hex) <= 255
  /\ 0 <= green (hexToRgb hex) <= 255
  /\ 0 <= blue (hexToRgb hex) <= 255
  /\ alpha (hexToRgb hex) = 255.
Proof.
  unfold hexToRgb, hex_regex_exec.
  destruct (strip_hash hex) as [|c1 [|c2 [|c3 [|c4 [|c5 [|c6 [|]]]]]]];
    try (cbn; lia).
  destruct (parse_hex_pair c1 c2) as [r|] eqn:E1; [|cbn; lia].
  destruct (parse_hex_pair c3 c4) as [g|] eqn:E2; [|cbn; lia].
  destruct (parse_hex_pair c5 c6) as [b|] eqn:E3; [|cbn; lia].
  apply parse_hex_pair_range in E1, E2, E3. cbn. lia.
Qed.

Lemma hex_digit_lower ch : hex_digit (lower_ascii ch) = hex_digit ch.
Proof. each_ascii ch; reflexivity. Qed.

Lemma lower_ascii_hash ch : lower_ascii ch = "#"%char <-> ch = "#"%char.
Proof. each_ascii ch; split; intros E; try reflexivity; discriminate E. Qed.

Lemma strip_hash_toLowerCase s :
  strip_hash (toLowerCase s) = toLowerCase (strip_hash s).
Proof.
  destruct s as [|ch rest]; [done|].
  destruct (ascii_dec ch "#") as [->|Hne]; [done|].
  cbn [toLowerCase].
  assert (Hl : lower_ascii ch <> "#"%char) by (by rewrite lower_ascii_hash).
  assert (Hs : forall c r, c <> "#"%char -> strip_hash (String c r) = String c r).
  { intros c r Hc. destruct (strip_hash_spec (String c r)) as [E|E]; [done|].
    by injection E. }
  by rewrite !Hs.
Qed.

Lemma hexToRgb_toLowerCase s : hexToRgb (toLowerCase s) = hexToRgb s.
Proof.
  unfold hexToRgb, hex_regex_exec. rewrite strip_hash_toLowerCase.
  destruct (strip_hash s) as [|c1 [|c2 [|c3 [|c4 [|c5 [|c6 [|]]]]]]]; try done.
  cbn [toLowerCase]. unfold parse_hex_pair. by rewrite !hex_digit_lower.
Qed.

(** X6: with an alpha of 255 or more [buildColor] only lowers the case of
    the text, and [hexToRgb] reads the same colour from the result as from
    the text. *)
Theorem buildColor_opaque_same_colour (hex : string) (a : Z) :
  255 <= a ->
  buildColor hex a = toLowerCase hex
  /\ hexToRgb (buildColor hex a) = hexToRgb hex.
Proof.
  intros Ha. unfold buildColor.
  destruct (Z.geb_spec a 255); [|lia].
  split; [done|]. apply hexToRgb_toLowerCase.
Qed.

Lemma buildColor_opaque_same_colour_witness :
  buildColor "#38BDF8" 255 = toLowerCase "#38BDF8"
  /\ hexToRgb (buildColor "#38BDF8" 255) = hexToRgb "#38BDF8".
Proof. apply (buildColor_opaque_same_colour "#38BDF8" 255). lia. Defined.

(** ** The eyedropper reads a colour back *)

Ltac each_nibble k :=
  let H := fresh in
  assert (H : k = 0 \/ k = 1 \/ k = 2 \/ k = 3 \/ k = 4 \/ k = 5 \/ k = 6
              \/ k = 7 \/ k = 8 \/ k = 9 \/ k = 10 \/ k = 11 \/ k = 12
              \/ k = 13 \/ k = 14 \/ k = 15) by lia;
  repeat (destruct H as [H|H]; [subst k|]); [..|subst k].

Lemma of_hex_uint_acc_nibble k d acc :
  0 <= k < 16 ->
  Pos.of_hex_uint_acc (nibble_digit k d) acc
  = Pos.of_hex_uint_acc d (Z.to_pos (k + 16 * Z.pos acc)).
Proof. intros Hk. each_nibble k; cbn; f_equal; lia. Qed.

Lemma string_of_nibble_digit k d :
  0 <= k < 16 ->
  NilEmpty.string_of_uint (nibble_digit k d)
  = String (nibble_char k) (NilEmpty.string_of_uint d).
Proof. intros Hk. each_nibble k; reflexivity. Qed.

Lemma hex_digit_nibble_char k : 0 <= k < 16 -> hex_digit (nibble_char k) = Some k.
Proof. intros Hk. each_nibble k; reflexivity. Qed.

Lemma nibbles_of_byte v : 0 <= v <= 255 -> 0 <= v / 16 < 16 /\ 0 <= v mod 16 < 16.
Proof. intros Hv. split; [|apply Z.mod_pos_bound; lia].
  split; [apply Z.div_pos; lia|apply Z.div_lt_upper_bound; lia]. Qed.

(** The text that [pickColor] builds from three bytes. *)
Lemma toString16_rgb r g b :
  0 <= r <= 255 -> 0 <= g <= 255 -> 0 <= b <= 255 ->
  toString16 (Z.shiftl 1 24 + Z.shiftl r 16 + Z.shiftl g 8 + b)
  = String "1" (byte_hex r (byte_hex g (byte_hex b ""))).
Proof.
  intros Hr Hg Hb.
  destruct (nibbles_of_byte r Hr) as [Hr1 Hr2].
  destruct (nibbles_of_byte g Hg) as [Hg1 Hg2].
  destruct (nibbles_of_byte b Hb) as [Hb1 Hb2].
  rewrite !Z.shiftl_mul_pow2 by lia.
  set (v := 1 * 2 ^ 24 + r * 2 ^ 16 + g * 2 ^ 8 + b).
  set (d := Hexadecimal.D1
              (nibble_digit (r / 16) (nibble_digit (r mod 16)
                 (nibble_digit (g / 16) (nibble_digit (g mod 16)
                    (nibble_digit (b / 16) (nibble_digit (b mod 16)
                       Hexadecimal.Nil))))))).
  assert (Hd : N.of_hex_uint d = Z.to_N v).
  { subst d. unfold N.of_hex_uint. cbn [Pos.of_hex_uint].
    rewrite !of_hex_uint_acc_nibble by done. cbn [Pos.of_hex_uint_acc].
    pose proof (Z.div_mod r 16). pose proof (Z.div_mod g 16).
    pose proof (Z.div_mod b 16). subst v.
    change (2 ^ 24) with 16777216. change (2 ^ 16) with 65536.
    change (2 ^ 8) with 256. lia. }
  unfold toString16.
  destruct (Z.ltb_spec v 0); [subst v; lia|].
  rewrite <- Hd, Unsigned.to_of. subst d. cbn [Hexadecimal.unorm Hexadecimal.nzhead].
  cbn [NilZero.string_of_uint NilEmpty.string_of_uint].
  unfold byte_hex. by rewrite !string_of_nibble_digit.
Qed.

Lemma hexToRgb_byte_hex r g b :
  0 <= r <= 255 -> 0 <= g <= 255 -> 0 <= b <= 255 ->
  hex_regex_exec (String "#" (byte_hex r (byte_hex g (byte_hex b ""))))
  = Some (r, g, b).
Proof.
  intros Hr Hg Hb.
  destruct (nibbles_of_byte r Hr) as [Hr1 Hr2].
  destruct (nibbles_of_byte g Hg) as [Hg1 Hg2].
  destruct (nibbles_of_byte b Hb) as [Hb1 Hb2].
  unfold hex_regex_exec, byte_hex. cbn [strip_hash].
  unfold parse_hex_pair. rewrite !hex_digit_nibble_char by done.
  pose proof (Z.div_mod r 16). pose proof (Z.div_mod g 16).
  pose proof (Z.div_mod b 16).
  replace (16 * (r / 16) + r mod 16) with r by lia.
  replace (16 * (g / 16) + g mod 16) with g by lia.
  by replace (16 * (b / 16) + b mod 16) with b by lia.
Qed.

(** The text that [pickColor] stores decodes to the three bytes of the
    pixel. *)
Lemma pickColor_text s c x y :
  0 < alpha (canvas_get c x y) ->
  currentColor (pickColor s c x y)
  = String "#"
      (slice1 (toString16 (Z.shiftl 1 24 + Z.shiftl (red (canvas_get c x y)) 16
                           + Z.shiftl (green (canvas_get c x y)) 8
                           + blue (canvas_get c x y)))).
Proof.
  intros Ha. unfold pickColor.
  change (getImageData c x y 1 1) with ([canvas_get c (x + 0) (y + 0)]).
  rewrite !Z.add_0_r. cbn [lookup list_lookup default from_option id].
  by destruct (Z.gtb_spec (alpha (canvas_get c x y)) 0); [|lia].
Qed.

Lemma pickColor_decodes s c x y r g b :
  0 < alpha (canvas_get c x y) ->
  red (canvas_get c x y) = r -> green (canvas_get c x y) = g ->
  blue (canvas_get c x y) = b ->
  0 <= r <= 255 -> 0 <= g <= 255 -> 0 <= b <= 255 ->
  hexToRgb (currentColor (pickColor s c x y)) = RGBA r g b 255.
Proof.
  intros Ha <- <- <- Hr Hg Hb.
  rewrite pickColor_text, toString16_rgb by done. cbn [slice1].
  unfold hexToRgb. by rewrite hexToRgb_byte_hex.
Qed.

(** X7: on a pixel that is not fully transparent, with channels between 0
    and 255, [pickColor] sets [currentColor] to a lower-case text from which
    the regular expression of [hexToRgb] reads the three channels of the
    pixel back; the alpha of the pixel is dropped, [hexToRgb] gives 255. *)
Theorem pickColor_round_trip (s : State) (c : Canvas) (x y : Z) :
  0 < alpha (canvas_get c x y) ->
  0 <= red (canvas_get c x y) <= 255 ->
  0 <= green (canvas_get c x y) <= 255 ->
  0 <= blue (canvas_get c x y) <= 255 ->
  hex_regex_exec (currentColor (pickColor s c x y))
  = Some (red (canvas_get c x y), green (canvas_get c x y),
          blue (canvas_get c x y))
  /\ hexToRgb (currentColor (pickColor s c x y))
     = RGBA (red (canvas_get c x y)) (green (canvas_get c x y))
         (blue (canvas_get c x y)) 255
  /\ toLowerCase (currentColor (pickColor s c x y))
     = currentColor (pickColor s c x y).
Proof.
  intros Ha Hr Hg Hb.
  rewrite pickColor_text, toString16_rgb by done. cbn [slice1].
  pose proof (hexToRgb_byte_hex _ _ _ Hr Hg Hb) as E.
  split; [exact E|]. split; [unfold hexToRgb; by rewrite E|].
  destruct (nibbles_of_byte _ Hr) as [Hr1 Hr2].
  destruct (nibbles_of_byte _ Hg) as [Hg1 Hg2].
  destruct (nibbles_of_byte _ Hb) as [Hb1 Hb2].
  assert (Hlow : forall k, 0 <= k < 16 -> lower_ascii (nibble_char k) = nibble_char k).
  { intros k Hk. each_nibble k; reflexivity. }
  unfold byte_hex. cbn [toLowerCase]. by rewrite !Hlow.
Qed.

Lemma pickColor_round_trip_witness :
  hex_regex_exec
    (currentColor (pickColor (small_state eyedropper "#ff0000" 1) block_canvas 1 1))
  = Some (red (canvas_get block_canvas 1 1), green (canvas_get block_canvas 1 1),
          blue (canvas_get block_canvas 1 1))
  /\ hexToRgb
       (currentColor (pickColor (small_state eyedropper "#ff0000" 1) block_canvas 1 1))
     = RGBA (red (canvas_get block_canvas 1 1)) (green (canvas_get block_canvas 1 1))
         (blue (canvas_get block_canvas 1 1)) 255
  /\ toLowerCase
       (currentColor (pickColor (small_state eyedropper "#ff0000" 1) block_canvas 1 1))
     = currentColor (pickColor (small_state eyedropper "#ff0000" 1) block_canvas 1 1).
Proof.
  apply (pickColor_round_trip (small_state eyedropper "#ff0000" 1) block_canvas 1 1);
    vm_compute; lia || (split; discriminate).
Defined.

(** ** [parseColor] and the colour widgets *)

Lemma is_hex_digit_cases ch :
  is_hex_digit ch ->
  exists d, hex_digit ch = Some d /\ is_js_space ch = false
            /\ is_js_space (lower_ascii ch) = false
            /\ ch <> "#"%char /\ ch <> "-"%char /\ ch <> "+"%char
            /\ ch <> "x"%char /\ ch <> "X"%char.
Proof.
  unfold is_hex_digit. cbn [list_ascii_of_string In].
  intros H.
  repeat (destruct H as [<-|H]; [eexists; repeat split; try reflexivity; discriminate|]).
  destruct H.
Qed.

Lemma hex_digit_Some_is_hex ch : is_Some (hex_digit ch) <-> is_hex_digit ch.
Proof.
  split.
  - intros [d Hd]. by apply hex_digit_is_hex in Hd.
  - intros H. destruct (is_hex_digit_cases ch H) as (d & Hd & _). by exists d.
Qed.

Lemma is_hex_digit_lower ch : is_hex_digit ch -> is_hex_digit (lower_ascii ch).
Proof.
  intros H. apply hex_digit_Some_is_hex. rewrite hex_digit_lower.
  by apply hex_digit_Some_is_hex.
Qed.

Lemma lower_ascii_idem ch : lower_ascii (lower_ascii ch) = lower_ascii ch.
Proof. each_ascii ch; reflexivity. Qed.

Lemma toLowerCase_idem s : toLowerCase (toLowerCase s) = toLowerCase s.
Proof. induction s as [|ch s IH]; [done|]. cbn. by rewrite lower_ascii_idem, IH. Qed.

Lemma six_hex_digits_chars t :
  six_hex_digits t ->
  exists c1 c2 c3 c4 c5 c6,
    t = String c1 (String c2 (String c3 (String c4 (String c5 (String c6 "")))))
    /\ is_hex_digit c1 /\ is_hex_digit c2 /\ is_hex_digit c3
    /\ is_hex_digit c4 /\ is_hex_digit c5 /\ is_hex_digit c6.
Proof.
  intros [Hl Hf].
  destruct t as [|c1 [|c2 [|c3 [|c4 [|c5 [|c6 [|]]]]]]]; try discriminate Hl.
  exists c1, c2, c3, c4, c5, c6. split; [done|].
  cbn in Hf.
  repeat match goal with
         | H : List.Forall _ (_ :: _) |- _ => inversion H; clear H; subst
         end.
  tauto.
Qed.

Lemma six_hex_digits_lower t : six_hex_digits t -> six_hex_digits (toLowerCase t).
Proof.
  intros H. destruct (six_hex_digits_chars t H)
    as (c1 & c2 & c3 & c4 & c5 & c6 & -> & H1 & H2 & H3 & H4 & H5 & H6).
  split; [done|]. cbn.
  do 6 (constructor; [by apply is_hex_digit_lower|]). constructor.
Qed.

(** ** [trim] *)

Lemma string_rev_involutive s : string_rev (string_rev s) = s.
Proof.
  unfold string_rev.
  by rewrite list_ascii_of_string_of_list_ascii, rev_involutive,
    string_of_list_ascii_of_string.
Qed.

Lemma trimStart_id ch rest :
  is_js_space ch = false -> trimStart (String ch rest) = String ch rest.
Proof. intros E. cbn [trimStart]. by rewrite E. Qed.

(** A text that neither starts nor ends with white space is its own
    [trim]. *)
Lemma trim_id first rest init z :
  is_js_space first = false -> is_js_space z = false ->
  list_ascii_of_string (String first rest) = init ++ [z] ->
  trim (String first rest) = String first rest.
Proof.
  intros Hf Hz Hinit. unfold trim.
  rewrite trimStart_id by done.
  assert (E : string_rev (String first rest)
              = String z (string_of_list_ascii (rev init))).
  { unfold string_rev. rewrite Hinit, rev_app_distr. reflexivity. }
  rewrite E, trimStart_id by done. rewrite <- E. apply string_rev_involutive.
Qed.

(** The two digits that [buildColor] appends for an alpha below 255 read
    back as that alpha. *)
Lemma alpha_suffix_parses a :
  0 <= a < 255 ->
  exists d1 d2,
    padStart 2 "0" (toString16 a) = String d1 (String d2 "")
    /\ parseInt16 (String d1 (String d2 "")) = Some a
    /\ is_js_space d2 = false.
Proof.
  intros Ha.
  set (ok := fun n : nat =>
         match padStart 2 "0" (toString16 (Z.of_nat n)) with
         | String d1 (String d2 "") =>
             match parseInt16 (String d1 (String d2 "")) with
             | Some v => (v =? Z.of_nat n) && negb (is_js_space d2)
             | None => false
             end
         | _ => false
         end).
  assert (Hall : forallb ok (seq 0 255) = true) by (vm_compute; reflexivity).
  rewrite forallb_forall in Hall.
  specialize (Hall (Z.to_nat a)). unfold ok in Hall.
  rewrite Z2Nat.id in Hall by lia.
  destruct (padStart 2 "0" (toString16 a)) as [|d1 [|d2 [|]]];
    try (exfalso; apply diff_false_true, Hall, in_seq; lia).
  exists d1, d2. split; [done|].
  destruct (parseInt16 (String d1 (String d2 ""))) as [v|];
    [|exfalso; apply diff_false_true, Hall, in_seq; lia].
  assert (Hok : (v =? a) && negb (is_js_space d2) = true)
    by (apply Hall, in_seq; lia).
  apply andb_true_iff in Hok as [Hv Hs]. apply Z.eqb_eq in Hv. subst v.
  split; [done|]. by destruct (is_js_space d2).
Qed.

Lemma parseColor_buildColor_eq (t : string) (a : Z) :
  six_hex_digits t -> 0 <= a ->
  parseColor (buildColor (String "#" t) a)
  = {| pc_hex6 := String "#" (toLowerCase t); pc_alpha := Z.min a 255 |}.
Proof.
  intros Ht Ha.
  destruct (six_hex_digits_chars t Ht)
    as (c1 & c2 & c3 & c4 & c5 & c6 & -> & H1 & H2 & H3 & H4 & H5 & H6).
  destruct (is_hex_digit_cases c6 H6) as (_ & _ & _ & Hs6 & _).
  unfold buildColor. cbn [toLowerCase].
  change (lower_ascii "#") with "#"%char.
  destruct (Z.geb_spec a 255) as [Hge|Hlt].
  - unfold parseColor.
    rewrite (trim_id _ _ [ "#"%char; lower_ascii c1; lower_ascii c2; lower_ascii c3;
                            lower_ascii c4; lower_ascii c5 ] (lower_ascii c6))
      by done.
    cbn. f_equal. lia.
  - destruct (alpha_suffix_parses a) as (d1 & d2 & -> & Hp & Hs); [lia|].
    unfold parseColor. cbn [append].
    rewrite (trim_id _ _ [ "#"%char; lower_ascii c1; lower_ascii c2; lower_ascii c3;
                            lower_ascii c4; lower_ascii c5; lower_ascii c6; d1 ] d2)
      by done.
    cbn [strip_hash String.length Nat.eqb substring padEnd repeat_char
           Nat.sub append Nat.leb].
    rewrite Hp. cbn. f_equal. lia.
Qed.

(** X8: [parseColor] reads back what [buildColor] wrote: for six
    hexadecimal digits [t] and an alpha [a] that is not negative, the
    [hex6] part is ['#'] followed by [t] in lower case and the alpha is [a],
    capped at 255. *)
Theorem parseColor_buildColor (t : string) (a : Z) :
  six_hex_digits t -> 0 <= a ->
  parseColor (buildColor (String "#" t) a)
  = {| pc_hex6 := String "#" (toLowerCase t); pc_alpha := Z.min a 255 |}.
Proof. apply parseColor_buildColor_eq. Qed.

Lemma parseColor_buildColor_witness :
  parseColor (buildColor "#38BDF8" 128)
  = {| pc_hex6 := String "#" (toLowerCase "38BDF8"); pc_alpha := Z.min 128 255 |}.
Proof.
  apply (parseColor_buildColor "38BDF8" 128); [|lia].
  split; [reflexivity|]. cbn.
  do 6 (constructor; [unfold is_hex_digit; cbn; tauto|]). constructor.
Defined.

(** X9: a click on a palette swatch takes the colour of the swatch and
    keeps the alpha of the current colour. *)
Theorem swatch_onclick_keeps_alpha (s : State) (t0 t : string) (a0 : Z) :
  six_hex_digits t0 -> 0 <= a0 -> six_hex_digits t ->
  currentColor s = buildColor (String "#" t0) a0 ->
  currentColor (swatch_onclick (String "#" t) s)
  = buildColor (String "#" t) (Z.min a0 255)
  /\ pc_alpha (parseColor (currentColor (swatch_onclick (String "#" t) s)))
     = pc_alpha (parseColor (currentColor s))
  /\ pc_hex6 (parseColor (currentColor (swatch_onclick (String "#" t) s)))
     = String "#" (toLowerCase t).
Proof.
  intros Ht0 Ha0 Ht Hcur.
  assert (E : currentColor (swatch_onclick (String "#" t) s)
              = buildColor (String "#" t) (Z.min a0 255)).
  { unfold swatch_onclick. cbn [currentColor update_currentColor].
    by rewrite Hcur, parseColor_buildColor_eq. }
  split; [exact E|].
  rewrite E, Hcur, !parseColor_buildColor_eq by (done || lia).
  cbn [pc_alpha pc_hex6]. split; [lia|done].
Qed.

Lemma swatch_onclick_keeps_alpha_witness :
  currentColor (swatch_onclick "#ff0000"
                  (update_currentColor "#38bdf880" State_constructor))
  = buildColor "#ff0000" (Z.min 128 255)
  /\ pc_alpha (parseColor (currentColor
                 (swatch_onclick "#ff0000"
                    (update_currentColor "#38bdf880" State_constructor))))
     = pc_alpha (parseColor (currentColor
                   (update_currentColor "#38bdf880" State_constructor)))
  /\ pc_hex6 (parseColor (currentColor
                (swatch_onclick "#ff0000"
                   (update_currentColor "#38bdf880" State_constructor))))
     = String "#" (toLowerCase "ff0000").
Proof.
  apply (swatch_onclick_keeps_alpha
           (update_currentColor "#38bdf880" State_constructor)
           "38bdf8" "ff0000" 128); [| lia | | reflexivity].
  - split; [reflexivity|]. cbn.
    do 6 (constructor; [unfold is_hex_digit; cbn; tauto|]). constructor.
  - split; [reflexivity|]. cbn.
    do 6 (constructor; [unfold is_hex_digit; cbn; tauto|]). constructor.
Defined.

(** X10: the alpha slider keeps the six digits of the current colour (in
    lower case) and sets the alpha to the value of the slider, capped at
    255. *)
Theorem alphaSlider_oninput_keeps_colour (s : State) (t0 : string) (a0 v : Z) :
  six_hex_digits t0 -> 0 <= a0 -> 0 <= v ->
  currentColor s = buildColor (String "#" t0) a0 ->
  currentColor (alphaSlider_oninput v s)
  = buildColor (String "#" (toLowerCase t0)) v
  /\ pc_hex6 (parseColor (currentColor (alphaSlider_oninput v s)))
     = pc_hex6 (parseColor (currentColor s))
  /\ pc_alpha (parseColor (currentColor (alphaSlider_oninput v s)))
     = Z.min v 255.
Proof.
  intros Ht0 Ha0 Hv Hcur.
  assert (E : currentColor (alphaSlider_oninput v s)
              = buildColor (String "#" (toLowerCase t0)) v).
  { unfold alphaSlider_oninput. cbn [currentColor update_currentColor].
    by rewrite Hcur, parseColor_buildColor_eq. }
  split; [exact E|].
  rewrite E, Hcur, !parseColor_buildColor_eq
    by (done || by apply six_hex_digits_lower).
  cbn [pc_alpha pc_hex6]. by rewrite toLowerCase_idem.
Qed.

Lemma alphaSlider_oninput_keeps_colour_witness :
  currentColor (alphaSlider_oninput 64
                  (update_currentColor "#38bdf880" State_constructor))
  = buildColor (String "#" (toLowerCase "38bdf8")) 64
  /\ pc_hex6 (parseColor (currentColor
                (alphaSlider_oninput 64
                   (update_currentColor "#38bdf880" State_constructor))))
     = pc_hex6 (parseColor (currentColor
                  (update_currentColor "#38bdf880" State_constructor)))
  /\ pc_alpha (parseColor (currentColor
                 (alphaSlider_oninput 64
                    (update_currentColor "#38bdf880" State_constructor))))
     = Z.min 64 255.
Proof.
  apply (alphaSlider_oninput_keeps_colour
           (update_currentColor "#38bdf880" State_constructor)
           "38bdf8" 128 64); [| lia | lia | reflexivity].
  split; [reflexivity|]. cbn.
  do 6 (constructor; [unfold is_hex_digit; cbn; tauto|]). constructor.
Defined.

Lemma strip_sign_other ch rest :
  ch <> "-"%char -> ch <> "+"%char ->
  strip_sign (String ch rest) = (1, String ch rest).
Proof. intros Hm Hp. each_ascii ch; try reflexivity; congruence. Qed.

Lemma strip_0x_other c7 c8 rest :
  c8 <> "x"%char -> c8 <> "X"%char ->
  strip_0x (String c7 (String c8 rest)) = String c7 (String c8 rest).
Proof.
  intros Hx HX. each_ascii c7; try reflexivity.
  each_ascii c8; try reflexivity; congruence.
Qed.

(** [parseInt] of two hexadecimal digits is their value. *)
Lemma parseInt16_hex_pair c7 c8 v :
  parse_hex_pair c7 c8 = Some v -> parseInt16 (String c7 (String c8 "")) = Some v.
Proof.
  unfold parse_hex_pair.
  destruct (hex_digit c7) as [h7|] eqn:E7; [|done].
  destruct (hex_digit c8) as [h8|] eqn:E8; [|done].
  intros [= <-].
  assert (H7 : is_hex_digit c7) by (apply hex_digit_Some_is_hex; eauto).
  assert (H8 : is_hex_digit c8) by (apply hex_digit_Some_is_hex; eauto).
  destruct (is_hex_digit_cases c7 H7) as (_ & _ & Hs7 & _ & _ & Hm & Hp & _).
  destruct (is_hex_digit_cases c8 H8) as (_ & _ & _ & _ & _ & _ & _ & Hx & HX).
  unfold parseInt16.
  rewrite trimStart_id, strip_sign_other, strip_0x_other by done.
  cbn [hex_prefix_value]. rewrite E7, E8. cbn [default from_option id].
  f_equal. lia.
Qed.

Lemma startsWith_hash_other ch rest :
  ch <> "#"%char -> startsWith_hash (String ch rest) = false.
Proof. intros H. each_ascii ch; try reflexivity; congruence. Qed.

(** The text handed to [parseColor] by the hex input is ['#'] followed by
    the digits. *)
Lemma hexInput_full raw c1 rest :
  strip_hash raw = String c1 rest -> c1 <> "#"%char ->
  (if startsWith_hash raw then raw else String "#" raw)
  = String "#" (String c1 rest).
Proof.
  intros Eb Hc. destruct (strip_hash_spec raw) as [E|E].
  - rewrite Eb in E. rewrite <- E. by rewrite startsWith_hash_other.
  - rewrite Eb in E. by rewrite E.
Qed.

(** X11: the hex text input either leaves the state alone, when the
    trimmed text fails the test, or sets [currentColor] to [buildColor] of
    six hexadecimal digits and an alpha between 0 and 255 that it reads from
    the text: the digits are the first six, the alpha is 255 for a text of
    six digits and the value of the last two digits for a text of eight. *)
Theorem hexInput_oninput_normalises (value : string) (s : State) :
  (hexInput_test (trim value) = false /\ hexInput_oninput value s = s)
  \/ exists t a,
       six_hex_digits t /\ 0 <= a <= 255
       /\ hexInput_oninput value s
          = update_currentColor (buildColor (String "#" t) a) s
       /\ ((strip_hash (trim value) = t /\ a = 255)
           \/ exists c7 c8,
                strip_hash (trim value) = (t ++ String c7 (String c8 ""))%string
                /\ parse_hex_pair c7 c8 = Some a).
Proof.
  unfold hexInput_oninput.
  destruct (hexInput_test (trim value)) eqn:Et; [right|by left].
  set (raw := trim value) in *.
  unfold hexInput_test in Et. apply andb_true_iff in Et as [Hlen Hall].
  assert (Hhex : forall ch, bool_decide (is_Some (hex_digit ch)) = true ->
                   is_hex_digit ch).
  { intros ch Hb. apply bool_decide_eq_true in Hb. by apply hex_digit_Some_is_hex. }
  destruct (strip_hash raw) as [|c1 [|c2 [|c3 [|c4 [|c5 [|c6 rest]]]]]] eqn:Eb;
    try discriminate Hlen.
  cbn [list_ascii_of_string forallb] in Hall.
  repeat (apply andb_true_iff in Hall as [?%Hhex Hall]).
  assert (Ht : six_hex_digits
                 (String c1 (String c2 (String c3 (String c4 (String c5
                    (String c6 ""))))))).
  { split; [done|]. cbn. do 6 (constructor; [done|]). constructor. }
  destruct (is_hex_digit_cases c1) as (_ & _ & _ & _ & Hc1 & _); [done|].
  rewrite (hexInput_full raw c1 _ Eb Hc1).
  destruct rest as [|c7 [|c8 [|]]]; try discriminate Hlen.
  - (* six digits *)
    destruct (is_hex_digit_cases c6) as (_ & _ & Hs6 & _); [done|].
    eexists _, 255. split; [exact Ht|]. split; [lia|]. split; [|by left].
    unfold parseColor.
    rewrite (trim_id _ _ [ "#"%char; c1; c2; c3; c4; c5 ] c6) by done.
    reflexivity.
  - (* eight digits *)
    cbn [list_ascii_of_string forallb] in Hall.
    repeat (apply andb_true_iff in Hall as [?%Hhex Hall]).
    destruct (is_hex_digit_cases c7) as (h7 & E7 & _); [done|].
    destruct (is_hex_digit_cases c8) as (h8 & E8 & Hs8 & _); [done|].
    assert (Hp : parse_hex_pair c7 c8 = Some (16 * h7 + h8)).
    { unfold parse_hex_pair. by rewrite E7, E8. }
    eexists _, (16 * h7 + h8). split; [exact Ht|].
    split; [by apply (parse_hex_pair_range c7 c8)|].
    split; [|right; by exists c7, c8].
    unfold parseColor.
    rewrite (trim_id _ _ [ "#"%char; c1; c2; c3; c4; c5; c6; c7 ] c8) by done.
    cbn [strip_hash String.length Nat.eqb substring padEnd repeat_char
           Nat.sub append Nat.leb].
    by rewrite (parseInt16_hex_pair c7 c8 _ Hp).
Qed.

(** ** The stamp of the brush *)

Section StampFacts.
Context {browser : Canvas2D}.

(** X12: when the square of the brush starts neither left of nor above the
    grid, [drawPixel] writes exactly the cells of the square of side
    [brushSize] whose corner is [(x - floor(brushSize / 2),
    y - floor(brushSize / 2))]: transparent for the eraser, the fill colour
    painted over the old pixel otherwise; every other cell keeps its
    pixel. *)
Theorem drawPixel_inner_exact (s : State) (c : Canvas) (x y : Z)
  (color : string) (i j : Z) :
  synced s c -> 0 < brushSize s ->
  0 <= x - brushSize s / 2 -> 0 <= y - brushSize s / 2 ->
  x < width s -> y < height s ->
  in_grid (width s) (height s) i j ->
  canvas_get (drawPixel s c x y color) i j
  = if in_rect (x - brushSize s / 2) (y - brushSize s / 2)
         (brushSize s) (brushSize s) i j
    then if Tool_eqb (currentTool s) eraser then transparent
         else sourceOver (cv_fillStyle (set_fillStyle color c)) (canvas_get c i j)
    else canvas_get c i j.
Proof.
  intros (Hw & Hh & HW & HH & Hl) Hb Hx Hy Hxw Hyh Hin.
  rewrite drawPixel_writes by (rewrite ?Hw, ?Hh; done).
  pose proof (brushRect_inner s x y i j Hb Hx Hy Hxw Hyh Hin) as E.
  destruct (brushRect s x y) as [[[cx cy] cw] ch]. by rewrite E.
Qed.

(** X13: a pencil stamp of one cell with an opaque colour puts that colour
    on the cell and changes no other cell, and [pickColor] on the cell reads
    the colour back. *)
Theorem stamp_then_sample (s : State) (c : Canvas) (x y : Z)
  (color : string) (p : rgba) :
  synced s c -> in_grid (width s) (height s) x y ->
  brushSize s = 1 -> Tool_eqb (currentTool s) eraser = false ->
  cssColor color = Some p -> (forall q, sourceOver p q = p) ->
  alpha p = 255 ->
  0 <= red p <= 255 -> 0 <= green p <= 255 -> 0 <= blue p <= 255 ->
  canvas_get (drawPixel s c x y color) x y = p
  /\ (forall i j, in_grid (width s) (height s) i j -> (i, j) <> (x, y) ->
        canvas_get (drawPixel s c x y color) i j = canvas_get c i j)
  /\ hexToRgb (currentColor (pickColor s (drawPixel s c x y color) x y))
     = RGBA (red p) (green p) (blue p) 255.
Proof.
  intros Hs Hin Hb Htool Hcss Hover Ha Hr Hg Hbl.
  assert (Hcell : forall i j, in_grid (width s) (height s) i j ->
            canvas_get (drawPixel s c x y color) i j
            = if in_rect x y 1 1 i j then p else canvas_get c i j).
  { intros i j Hij. destruct Hin as [Hx Hy].
    pose proof Hs as (Hw & Hh & HW & HH & Hl).
    assert (Hhalf : brushSize s / 2 = 0) by (by rewrite Hb).
    rewrite drawPixel_writes by (rewrite ?Hw, ?Hh; done).
    pose proof (brushRect_inner s x y i j) as E.
    destruct (brushRect s x y) as [[[cx cy] cw] ch].
    rewrite E by (done || lia). rewrite Hhalf, Hb, Htool, !Z.sub_0_r.
    unfold set_fillStyle. rewrite Hcss. cbn [cv_fillStyle]. by rewrite Hover. }
  assert (Hxy : canvas_get (drawPixel s c x y color) x y = p).
  { rewrite Hcell by done. unfold in_rect.
    destruct (Z.leb_spec (Z.min x (x + 1)) x); [|lia].
    destruct (Z.ltb_spec x (Z.max x (x + 1))); [|lia].
    destruct (Z.leb_spec (Z.min y (y + 1)) y); [|lia].
    destruct (Z.ltb_spec y (Z.max y (y + 1))); [|lia]. done. }
  split; [exact Hxy|]. split.
  - intros i j Hij Hne. rewrite Hcell by done. unfold in_rect.
    destruct (Z.leb_spec (Z.min x (x + 1)) i); [|done].
    destruct (Z.ltb_spec i (Z.max x (x + 1))); [|done].
    destruct (Z.leb_spec (Z.min y (y + 1)) j); [|done].
    destruct (Z.ltb_spec j (Z.max y (y + 1))); [|done].
    destruct Hne. f_equal; lia.
  - rewrite (pickColor_decodes s (drawPixel s c x y color) x y (red p) (green p) (blue p));
      rewrite ?Hxy; (done || lia).
Qed.
End StampFacts.

Lemma stamp_then_sample_witness :
  canvas_get (drawPixel (browser := opaque_browser)
                (small_state pencil "#ff0000" 1) block_canvas 1 1 "#ff0000") 1 1
  = RGBA 255 0 0 255
  /\ (forall i j, in_grid 3 3 i j -> (i, j) <> (1, 1) ->
        canvas_get (drawPixel (browser := opaque_browser)
                      (small_state pencil "#ff0000" 1) block_canvas 1 1 "#ff0000")
          i j
        = canvas_get block_canvas i j)
  /\ hexToRgb (currentColor
                 (pickColor (small_state pencil "#ff0000" 1)
                    (drawPixel (browser := opaque_browser)
                       (small_state pencil "#ff0000" 1) block_canvas 1 1 "#ff0000")
                    1 1))
     = RGBA 255 0 0 255.
Proof.
  apply (stamp_then_sample (browser := opaque_browser)
           (small_state pencil "#ff0000" 1) block_canvas 1 1 "#ff0000"
           (RGBA 255 0 0 255));
    [apply block_canvas_synced | unfold in_grid; simpl; lia | reflexivity
    | reflexivity | reflexivity | reflexivity | reflexivity
    | simpl; lia | simpl; lia | simpl; lia].
Defined.

Lemma drawPixel_inner_exact_witness :
  canvas_get (drawPixel (browser := opaque_browser)
                (small_state pencil "#ff0000" 2) block_canvas 1 1 "#ff0000") 0 0
  = if in_rect (1 - 2 / 2) (1 - 2 / 2) 2 2 0 0
    then if Tool_eqb pencil eraser then transparent
         else sourceOver (Canvas2D := opaque_browser)
                (cv_fillStyle (set_fillStyle (browser := opaque_browser)
                                 "#ff0000" block_canvas))
                (canvas_get block_canvas 0 0)
    else canvas_get block_canvas 0 0.
Proof.
  apply (drawPixel_inner_exact (browser := opaque_browser)
           (small_state pencil "#ff0000" 2) block_canvas 1 1 "#ff0000" 0 0);
    [apply block_canvas_synced | ..];
    unfold in_grid, small_state; cbn [brushSize width height];
    change (2 / 2) with 1; lia.
Defined.

(** ** The shape of a line *)

Section LineShape.
Variables x0 y0 x1 y1 : Z.
Let dx := Z.abs (x1 - x0).
Let dy := Z.abs (y1 - y0).
Let sx := if x0 <? x1 then 1 else -1.
Let sy := if y0 <? y1 then 1 else -1.

(** The cells that the walk can still stamp after [i] steps along x and
    [j] steps along y. *)
Let ahead (i j : Z) (p : Z * Z) : Prop :=
  exists i' j', i <= i' <= dx /\ j <= j' <= dy
                /\ p = (x0 + sx * i', y0 + sy * j').

Lemma line_ends :
  x1 = x0 + sx * dx /\ y1 = y0 + sy * dy
  /\ (sx = 1 \/ sx = -1) /\ (sy = 1 \/ sy = -1) /\ 0 <= dx /\ 0 <= dy.
Proof.
  subst sx sy dx dy.
  destruct (Z.ltb_spec x0 x1), (Z.ltb_spec y0 y1); lia.
Qed.

(** One turn of the loop away from the end point: the walk steps one or
    both axes, never past the end point, and the error follows. *)
Lemma line_step_cases x y err i j :
  x = x0 + sx * i -> y = y0 + sy * j ->
  err = dx - dy + j * dx - i * dy ->
  0 <= i <= dx -> 0 <= j <= dy ->
  (x =? x1) && (y =? y1) = false ->
  exists i' j',
    line_step x y dx dy sx sy err
    = (x0 + sx * i', y0 + sy * j', dx - dy + j' * dx - i' * dy)
    /\ i <= i' <= dx /\ j <= j' <= dy
    /\ i' - i <= 1 /\ j' - j <= 1
    /\ (i' = i + 1 <-> 2 * err > - dy)
    /\ (j' = j + 1 <-> 2 * err < dx)
    /\ (i < i' \/ j < j').
Proof.
  intros Hx Hy Herr Hi Hj Hend.
  pose proof line_ends as (Hx1 & Hy1 & Hsx & Hsy & Hdx & Hdy).
  assert (Hxend : i = dx -> j < dy -> err <= - dy).
  { intros -> Hlt.
    assert (dx * (1 + j - dy) <= 0) by (apply Z.mul_nonneg_nonpos; lia). nia. }
  assert (Hyend : j = dy -> i < dx -> dx <= err).
  { intros -> Hlt.
    assert (0 <= dy * (dx - 1 - i)) by (apply Z.mul_nonneg_nonneg; lia). nia. }
  assert (Hnot : i < dx \/ j < dy).
  { apply andb_false_iff in Hend as [E|E]; apply Z.eqb_neq in E; [left|right].
    - assert (i <> dx) by (intros Ei; apply E; rewrite Hx, Ei; lia). lia.
    - assert (j <> dy) by (intros Ej; apply E; rewrite Hy, Ej; lia). lia. }
  unfold line_step.
  destruct (Z.gtb_spec (2 * err) (- dy)) as [G|G];
    destruct (Z.ltb_spec (2 * err) dx) as [L|L].
  - assert (i < dx) by (destruct (Z.eq_dec i dx); lia).
    assert (j < dy) by (destruct (Z.eq_dec j dy); lia).
    exists (i + 1), (j + 1). split; [f_equal; [f_equal|]; lia|]. lia.
  - assert (i < dx) by (destruct (Z.eq_dec i dx); lia).
    exists (i + 1), j. split; [f_equal; [f_equal|]; lia|]. lia.
  - assert (j < dy) by (destruct (Z.eq_dec j dy); lia).
    exists i, (j + 1). split; [f_equal; [f_equal|]; lia|]. lia.
  - lia.
Qed.

Lemma line_cells_ahead (fuel : nat) : forall x y err i j cells,
  x = x0 + sx * i -> y = y0 + sy * j ->
  err = dx - dy + j * dx - i * dy ->
  0 <= i <= dx -> 0 <= j <= dy ->
  line_cells fuel x y x1 y1 dx dy sx sy err = Some cells ->
  List.Forall (ahead i j) cells.
Proof.
  induction fuel as [|fuel IH]; intros x y err i j cells Hx Hy Herr Hi Hj; [done|].
  cbn [line_cells].
  destruct ((x =? x1) && (y =? y1)) eqn:Hend.
  - intros [= <-]. constructor; [|constructor].
    exists i, j. subst x y. repeat split; lia.
  - destruct (line_step_cases x y err i j Hx Hy Herr Hi Hj Hend)
      as (i' & j' & -> & Hi' & Hj' & _).
    destruct (line_cells fuel _ _ x1 y1 dx dy sx sy _) as [rest|] eqn:E; [|done].
    intros [= <-].
    apply IH with (i := i') (j := j') in E; try lia.
    constructor.
    + exists i, j. subst x y. repeat split; lia.
    + eapply List.Forall_impl; [|exact E].
      intros p (a & b & Ha & Hb & ->). exists a, b. repeat split; lia.
Qed.

(** When x is the major axis every turn steps x. *)
Lemma line_cells_length_x (fuel : nat) : forall x y err i j cells,
  dy <= dx -> 0 < dx ->
  x = x0 + sx * i -> y = y0 + sy * j ->
  err = dx - dy + j * dx - i * dy ->
  0 <= i <= dx -> 0 <= j <= dy ->
  - dy < 2 * err < 3 * dx - 2 * dy ->
  line_cells fuel x y x1 y1 dx dy sx sy err = Some cells ->
  Z.of_nat (length cells) = dx - i + 1.
Proof.
  induction fuel as [|fuel IH];
    intros x y err i j cells Hmaj Hpos Hx Hy Herr Hi Hj Hbound; [done|].
  cbn [line_cells].
  pose proof line_ends as (Hx1 & Hy1 & Hsx & Hsy & Hdx & Hdy).
  destruct ((x =? x1) && (y =? y1)) eqn:Hend.
  - intros [= <-]. apply andb_true_iff in Hend as [E _].
    apply Z.eqb_eq in E. cbn [length]. nia.
  - destruct (line_step_cases x y err i j Hx Hy Herr Hi Hj Hend)
      as (i' & j' & -> & Hi' & Hj' & Hi1 & Hj1 & Hxs & Hys & _).
    destruct (line_cells fuel _ _ x1 y1 dx dy sx sy _) as [rest|] eqn:E; [|done].
    intros [= <-].
    assert (i' = i + 1) by (apply Hxs; lia).
    apply IH with (i := i') (j := j') in E; try lia.
    + cbn [length]. lia.
    + destruct (Z.eq_dec j' (j + 1)) as [Ej|Ej].
      * assert (2 * err < dx) by (by apply Hys). nia.
      * assert (j' = j) by lia. assert (~ 2 * err < dx) by (rewrite <- Hys; lia).
        nia.
Qed.

(** When y is the major axis every turn steps y. *)
Lemma line_cells_length_y (fuel : nat) : forall x y err i j cells,
  dx < dy ->
  x = x0 + sx * i -> y = y0 + sy * j ->
  err = dx - dy + j * dx - i * dy ->
  0 <= i <= dx -> 0 <= j <= dy ->
  2 * err < dx ->
  line_cells fuel x y x1 y1 dx dy sx sy err = Some cells ->
  Z.of_nat (length cells) = dy - j + 1.
Proof.
  induction fuel as [|fuel IH];
    intros x y err i j cells Hmaj Hx Hy Herr Hi Hj Hbound; [done|].
  cbn [line_cells].
  pose proof line_ends as (Hx1 & Hy1 & Hsx & Hsy & Hdx & Hdy).
  destruct ((x =? x1) && (y =? y1)) eqn:Hend.
  - intros [= <-]. apply andb_true_iff in Hend as [_ E].
    apply Z.eqb_eq in E. cbn [length]. nia.
  - destruct (line_step_cases x y err i j Hx Hy Herr Hi Hj Hend)
      as (i' & j' & -> & Hi' & Hj' & Hi1 & Hj1 & Hxs & Hys & _).
    destruct (line_cells fuel _ _ x1 y1 dx dy sx sy _) as [rest|] eqn:E; [|done].
    intros [= <-].
    assert (j' = j + 1) by (by apply Hys).
    apply IH with (i := i') (j := j') in E; try lia.
    + cbn [length]. lia.
    + destruct (Z.eq_dec i' (i + 1)) as [Ei|Ei].
      * assert (2 * err > - dy) by (by apply Hxs). nia.
      * assert (i' = i) by lia. assert (~ 2 * err > - dy) by (rewrite <- Hxs; lia).
        nia.
Qed.
End LineShape.

Lemma drawLine_cells_line_cells fuel x0 y0 x1 y1 :
  drawLine_cells fuel x0 y0 x1 y1
  = line_cells fuel x0 y0 x1 y1 (Z.abs (x1 - x0)) (Z.abs (y1 - y0))
      (if x0 <? x1 then 1 else -1) (if y0 <? y1 then 1 else -1)
      (Z.abs (x1 - x0) - Z.abs (y1 - y0)).
Proof.
  unfold drawLine_cells, drawLine_with. rewrite drawLine_loop_cells.
  destruct (line_cells fuel _ _ _ _ _ _ _ _ _) as [cells|]; [|done].
  by rewrite fold_left_snoc_cells.
Qed.

Lemma drawLine_cells_box fuel x0 y0 x1 y1 cells :
  drawLine_cells fuel x0 y0 x1 y1 = Some cells ->
  List.Forall (fun p => Z.min x0 x1 <= p.1 <= Z.max x0 x1
                        /\ Z.min y0 y1 <= p.2 <= Z.max y0 y1) cells.
Proof.
  rewrite drawLine_cells_line_cells. intros E.
  apply (line_cells_ahead x0 y0 x1 y1 fuel x0 y0 _ 0 0) in E; try lia.
  eapply List.Forall_impl; [|exact E].
  intros p (i & j & Hi & Hj & ->). cbn [fst snd].
  destruct (Z.ltb_spec x0 x1), (Z.ltb_spec y0 y1); lia.
Qed.

(** X14: every cell that [drawLine] stamps lies in the bounding box of its
    two end points. *)
Theorem drawLine_within_box (fuel : nat) (x0 y0 x1 y1 : Z)
  (cells : list (Z * Z)) :
  drawLine_cells fuel x0 y0 x1 y1 = Some cells ->
  List.Forall (fun p => Z.min x0 x1 <= p.1 <= Z.max x0 x1
                        /\ Z.min y0 y1 <= p.2 <= Z.max y0 y1) cells.
Proof. apply drawLine_cells_box. Qed.

Lemma drawLine_within_box_witness :
  List.Forall (fun p => Z.min 0 3 <= p.1 <= Z.max 0 3
                        /\ Z.min 0 1 <= p.2 <= Z.max 0 1)
    [(0, 0); (1, 0); (2, 1); (3, 1)].
Proof. apply (drawLine_within_box 10 0 0 3 1). reflexivity. Defined.

(** X15: [drawLine] stamps [max(|x1 - x0|, |y1 - y0|) + 1] cells: one per
    step along the longer axis. *)
Theorem drawLine_stamp_count (fuel : nat) (x0 y0 x1 y1 : Z)
  (cells : list (Z * Z)) :
  drawLine_cells fuel x0 y0 x1 y1 = Some cells ->
  Z.of_nat (length cells) = Z.max (Z.abs (x1 - x0)) (Z.abs (y1 - y0)) + 1.
Proof.
  rewrite drawLine_cells_line_cells. intros E.
  destruct (Z_lt_le_dec (Z.abs (x1 - x0)) (Z.abs (y1 - y0))) as [Hy|Hx].
  - apply (line_cells_length_y x0 y0 x1 y1 fuel x0 y0 _ 0 0) in E; lia.
  - destruct (Z.eq_dec (Z.abs (x1 - x0)) 0) as [E0|Hpos].
    + (* both distances are zero: the walk is the one cell *)
      assert (x1 = x0) by lia. assert (y1 = y0) by lia. subst x1 y1.
      destruct fuel as [|fuel]; [done|]. cbn [line_cells] in E.
      rewrite !Z.eqb_refl in E. cbn [andb] in E. injection E as <-.
      cbn [length]. lia.
    + apply (line_cells_length_x x0 y0 x1 y1 fuel x0 y0 _ 0 0) in E; lia.
Qed.

Lemma drawLine_stamp_count_witness :
  Z.of_nat (length [(0, 0); (1, 0); (2, 1); (3, 1)])
  = Z.max (Z.abs (3 - 0)) (Z.abs (1 - 0)) + 1.
Proof. apply (drawLine_stamp_count 10 0 0 3 1). reflexivity. Defined.

(** ** Gestures *)

Section Gestures.
Context {browser : Canvas2D} {engine : Float64}.

(** [drawLine] finishes between two cells of the grid when the fuel covers
    the width plus the height. *)
Lemma drawLine_in_grid_runs fuel s c x0 y0 x1 y1 color :
  in_grid (width s) (height s) x0 y0 -> in_grid (width s) (height s) x1 y1 ->
  (Z.to_nat (width s + height s) <= fuel)%nat ->
  exists c', drawLine fuel s c x0 y0 x1 y1 color = Some c'.
Proof.
  intros [Hx0 Hy0] [Hx1 Hy1] Hfuel.
  destruct (line_cells_walk x0 y0 x1 y1 fuel x0 y0
              (Z.abs (x1 - x0) - Z.abs (y1 - y0)) 0 0)
    as (cells & Hc & _); try lia.
  unfold drawLine, drawLine_with. rewrite drawLine_loop_cells, Hc. eauto.
Qed.

(** While a pencil or eraser stroke is under way, a move keeps the editor
    state, moves the last point inside the grid and touches nothing but the
    canvas. *)
Lemma onmousemove_drawing fuel w e :
  isDrawing (state w) = true -> isPanning (state w) = false ->
  currentTool (state w) = pencil \/ currentTool (state w) = eraser ->
  in_grid (width (state w)) (height (state w)) (lastX w) (lastY w) ->
  (Z.to_nat (width (state w) + height (state w)) <= fuel)%nat ->
  exists w', onmousemove fuel w e = Some w'
             /\ state w' = state w
             /\ in_grid (width (state w)) (height (state w)) (lastX w') (lastY w').
Proof.
  intros Hd Hp Htool Hlast Hfuel. unfold onmousemove. rewrite Hp, Hd.
  set (x := moveCellX e). set (y := moveCellY e).
  assert (Hcases : in_grid (width (state w)) (height (state w)) x y
                   \/ (x < 0 \/ x >= width (state w) \/ y < 0
                       \/ y >= height (state w)))
    by (unfold in_grid; lia).
  destruct Hcases as [Hin|Hout].
  - destruct (drawLine_in_grid_runs fuel (state w) (workCanvas w)
                (lastX w) (lastY w) x y (currentColor (state w)) Hlast Hin Hfuel)
      as [c' Hc'].
    unfold execute. rewrite in_grid_guard by done. rewrite Hd. cbn [negb].
    destruct Htool as [-> | ->]; rewrite Hc'; cbn [save_if_signalled];
      eexists; (split; [reflexivity|]); by split.
  - unfold execute, js_lt, js_ge.
    assert (E : (x <? 0) || (x >=? width (state w)) || (y <? 0)
                || (y >=? height (state w)) = true).
    { destruct (Z.ltb_spec x 0); [done|].
      destruct (Z.geb_spec x (width (state w))); [done|].
      destruct (Z.ltb_spec y 0); [done|].
      destruct (Z.geb_spec y (height (state w))); [done|]. lia. }
    rewrite E. exists w. split; [reflexivity|]. by split.
Qed.

Lemma drag_drawing fuel moves : forall w,
  isDrawing (state w) = true -> isPanning (state w) = false ->
  currentTool (state w) = pencil \/ currentTool (state w) = eraser ->
  in_grid (width (state w)) (height (state w)) (lastX w) (lastY w) ->
  (Z.to_nat (width (state w) + height (state w)) <= fuel)%nat ->
  exists w', drag fuel w moves = Some w' /\ state w' = state w.
Proof.
  induction moves as [|e moves IH]; intros w Hd Hp Htool Hlast Hfuel.
  - by exists w.
  - cbn [drag].
    destruct (onmousemove_drawing fuel w e Hd Hp Htool Hlast Hfuel)
      as (w1 & -> & Hs & Hl).
    destruct (IH w1) as (w' & Hw' & Hs'); rewrite ?Hs; try done.
    exists w'. split; [done|]. congruence.
Qed.

(** A press, any number of moves and the release of a pencil or eraser
    stroke run to the end and save one snapshot, at the release. *)
Lemma stroke_commits (fuel : nat) (w : World) (x y : Z)
  (moves : list MouseMoveEvent) :
  currentTool (state w) = pencil \/ currentTool (state w) = eraser ->
  isPanning (state w) = false ->
  in_grid (width (state w)) (height (state w)) x y ->
  (Z.to_nat (width (state w) + height (state w)) <= fuel)%nat ->
  exists w',
    gesture fuel w {| button := 0; altKey := false; cellX := x; cellY := y |}
      moves = Some w'
    /\ isDrawing (state w') = false
    /\ history (state w')
       = history (saveHistory (toDataURL (workCanvas w')) (state w))
    /\ redoStack (state w') = [].
Proof.
  intros Htool Hpan Hin Hfuel. unfold gesture, onmousedown.
  cbn [button altKey cellX cellY]. rewrite Hpan.
  assert (Hhand : Tool_eqb (currentTool (state w)) hand = false)
    by (by destruct Htool as [-> | ->]).
  rewrite Hhand. cbn [Z.eqb orb andb].
  set (s1 := update_isDrawing true (state w)).
  assert (Hstart : execute fuel w start (Some x) (Some y)
                   = Some (mkWorld s1
                             (drawPixel s1 (workCanvas w) x y
                                (currentColor (state w))) x y, None)).
  { unfold execute. rewrite in_grid_guard by done.
    by destruct Htool as [-> | ->]. }
  rewrite Hstart. cbn [save_if_signalled].
  set (w1 := mkWorld _ _ _ _).
  destruct (drag_drawing fuel moves w1) as (w2 & -> & Hs2); try done.
  unfold onmouseup, execute. cbn [js_lt js_ge orb]. rewrite Hs2.
  cbn [state w1 isDrawing s1 update_isDrawing save_if_signalled workCanvas].
  eexists. split; [reflexivity|].
  cbn [state isDrawing update_isPanning saveHistory set_stacks history
         redoStack workCanvas maxHistory update_isDrawing].
  done.
Qed.

(** X16: a pencil or eraser stroke, that is a press on a cell of the grid,
    any number of mouse moves and the release, runs to its end with fuel
    [width + height], ends with [isDrawing] false and adds one snapshot to
    [history], the canvas at the release; [redoStack] is empty
    afterwards. *)
Theorem stroke_commits_once (fuel : nat) (w : World) (x y : Z)
  (moves : list MouseMoveEvent) :
  currentTool (state w) = pencil \/ currentTool (state w) = eraser ->
  isPanning (state w) = false ->
  in_grid (width (state w)) (height (state w)) x y ->
  (Z.to_nat (width (state w) + height (state w)) <= fuel)%nat ->
  exists w',
    gesture fuel w {| button := 0; altKey := false; cellX := x; cellY := y |}
      moves = Some w'
    /\ isDrawing (state w') = false
    /\ history (state w')
       = history (saveHistory (toDataURL (workCanvas w')) (state w))
    /\ redoStack (state w') = [].
Proof. apply stroke_commits. Qed.
End Gestures.

Lemma stroke_commits_once_witness :
  exists w',
    gesture (browser := opaque_browser) (engine := exact_engine) 32 App_constructor
      {| button := 0; altKey := false; cellX := 1; cellY := 1 |}
      [ {| movementX := 30; movementY := 60; moveCellX := 2; moveCellY := 3 |};
        {| movementX := 600; movementY := 0; moveCellX := 22; moveCellY := 3 |} ]
    = Some w'
    /\ isDrawing (state w') = false
    /\ history (state w')
       = history (saveHistory (toDataURL (workCanvas w')) (state App_constructor))
    /\ redoStack (state w') = [].
Proof.
  apply (stroke_commits_once (browser := opaque_browser) (engine := exact_engine) 32 App_constructor 1 1);
    [left; reflexivity | reflexivity | unfold in_grid; simpl; lia
    | vm_compute; lia].
Defined.

Section Release.
Context {browser : Canvas2D}.

(** X17: a release of the mouse button ends drawing and panning and leaves
    the canvas alone; it leaves the two stacks alone when no stroke was
    under way, and a second release changes nothing. *)
Theorem onmouseup_idempotent (fuel : nat) (w : World) :
  exists w1,
    onmouseup fuel w = Some w1
    /\ isDrawing (state w1) = false
    /\ isPanning (state w1) = false
    /\ workCanvas w1 = workCanvas w
    /\ (isDrawing (state w) = false ->
        history (state w1) = history (state w)
        /\ redoStack (state w1) = redoStack (state w))
    /\ onmouseup fuel w1 = Some w1.
Proof.
  unfold onmouseup, execute. cbn [js_lt js_ge orb].
  destruct (isDrawing (state w)) eqn:Hd.
  - eexists. split; [reflexivity|]. cbn [save_if_signalled state workCanvas].
    split; [done|]. split; [done|]. split; [done|]. split; [done|].
    cbn [isDrawing update_isPanning saveHistory set_stacks update_isDrawing].
    reflexivity.
  - eexists. split; [reflexivity|]. cbn [save_if_signalled state workCanvas].
    split; [done|]. split; [done|]. split; [done|]. split; [done|].
    cbn [isDrawing update_isPanning]. rewrite Hd.
    cbn [save_if_signalled state workCanvas lastX lastY update_isPanning
           width height zoom panX panY currentColor currentTool brushSize
           settingsVisible isDrawing isPanning history redoStack maxHistory].
    reflexivity.
Qed.

(** [floodFill] reads the two dimensions of the state and nothing else. *)
Lemma floodFill_loop_dims s s' t f (fuel : nat) : forall data queue,
  width s = width s' -> height s = height s' ->
  floodFill_loop fuel s t f data queue = floodFill_loop fuel s' t f data queue.
Proof.
  induction fuel as [|fuel IH]; intros data queue Hw Hh;
    destruct queue as [|[x y] queue]; try done.
  cbn [floodFill_loop]. unfold getPixelColor, setPixelData, push_neighbours.
  rewrite Hw, Hh.
  destruct (colorsMatch _ t); by rewrite IH.
Qed.

Lemma floodFill_dims s s' fuel c x y color :
  width s = width s' -> height s = height s' ->
  floodFill fuel s c x y color = floodFill fuel s' c x y color.
Proof.
  intros Hw Hh. unfold floodFill, getPixelColor.
  by rewrite (floodFill_loop_dims s s'), Hw, Hh.
Qed.

(** X18: a click with the fill tool on a cell of the grid runs [floodFill]
    to its end on the press and saves one snapshot, of the filled canvas, at
    the release. *)
Theorem fill_click_commits (extra : nat) (w : World) (x y : Z) :
  currentTool (state w) = fill ->
  isPanning (state w) = false ->
  synced (state w) (workCanvas w) ->
  in_grid (width (state w)) (height (state w)) x y ->
  exists c' w',
    floodFill (fill_fuel (state w) + extra) (state w) (workCanvas w) x y
      (currentColor (state w)) = Some c'
    /\ click (fill_fuel (state w) + extra) w x y = Some w'
    /\ workCanvas w' = c'
    /\ isDrawing (state w') = false
    /\ history (state w') = history (saveHistory (toDataURL c') (state w))
    /\ redoStack (state w') = [].
Proof.
  intros Htool Hpan Hs Hin.
  assert (Hrun : exists c', floodFill (fill_fuel (state w) + extra) (state w)
                              (workCanvas w) x y (currentColor (state w))
                            = Some c').
  { destruct (rgba_eqb (canvas_get (workCanvas w) x y)
                (hexToRgb (currentColor (state w)))) eqn:E.
    - apply rgba_eqb_eq in E. exists (workCanvas w). unfold floodFill.
      rewrite getImageData_synced, getPixelColor_px, canvas_get_px, E by
        (done || apply Hs).
      by rewrite colorsMatch_refl.
    - apply rgba_eqb_neq in E.
      destruct (floodFill_component _ _ x y _ Hs Hin E) as (c' & Hc' & _).
      exists c'. apply Hc'. }
  destruct Hrun as [c' Hc']. exists c'.
  assert (Hstart : execute (fill_fuel (state w) + extra) w start (Some x) (Some y)
                   = Some (mkWorld (update_isDrawing true (state w)) c'
                             (lastX w) (lastY w), None)).
  { unfold execute. rewrite in_grid_guard by done. rewrite Htool.
    rewrite (floodFill_dims (update_isDrawing true (state w)) (state w)) by done.
    by rewrite Hc'. }
  unfold click, onmousedown. cbn [button altKey cellX cellY].
  rewrite Hpan, Htool. cbn [Z.eqb orb andb Tool_eqb]. rewrite Hstart.
  cbn [save_if_signalled]. unfold onmouseup, execute. cbn [js_lt js_ge orb].
  cbn [state isDrawing update_isDrawing save_if_signalled workCanvas].
  eexists. split; [done|]. split; [reflexivity|].
  cbn [state workCanvas isDrawing update_isPanning saveHistory set_stacks history
         redoStack maxHistory update_isDrawing].
  done.
Qed.
End Release.

Lemma fill_click_commits_witness :
  exists c' w',
    floodFill (fill_fuel (small_state fill "#ff0000" 1) + 0)
      (small_state fill "#ff0000" 1) block_canvas 0 0 "#ff0000" = Some c'
    /\ click (browser := opaque_browser)
         (fill_fuel (small_state fill "#ff0000" 1) + 0)
         (mkWorld (small_state fill "#ff0000" 1) block_canvas (-1) (-1)) 0 0
       = Some w'
    /\ workCanvas w' = c'
    /\ isDrawing (state w') = false
    /\ history (state w')
       = history (saveHistory (toDataURL c') (small_state fill "#ff0000" 1))
    /\ redoStack (state w') = [].
Proof.
  apply (fill_click_commits (browser := opaque_browser) 0
           (mkWorld (small_state fill "#ff0000" 1) block_canvas (-1) (-1)) 0 0);
    [reflexivity | reflexivity | apply block_canvas_synced
    | unfold in_grid; simpl; lia].
Defined.

Section Panning.
Context {browser : Canvas2D} {engine : Float64}.

(** While the view is panned, moves touch nothing but the pan. *)
Lemma drag_panning fuel moves : forall w,
  isPanning (state w) = true ->
  exists w',
    drag fuel w moves = Some w'
    /\ workCanvas w' = workCanvas w
    /\ history (state w') = history (state w)
    /\ redoStack (state w') = redoStack (state w)
    /\ maxHistory (state w') = maxHistory (state w)
    /\ isDrawing (state w') = isDrawing (state w)
    /\ isPanning (state w') = true.
Proof.
  induction moves as [|e moves IH]; intros w Hp.
  - by exists w.
  - cbn [drag]. unfold onmousemove. rewrite Hp.
    set (w1 := mkWorld _ _ _ _).
    destruct (IH w1) as (w' & -> & Hc & Hh & Hr & Hm & Hd & Hp'); [done|].
    by exists w'.
Qed.

Lemma pan_press fuel w down :
  button down = 1
  \/ (button down = 0
      /\ (altKey down = true \/ isPanning (state w) = true
          \/ currentTool (state w) = hand)) ->
  onmousedown fuel w down
  = Some (mkWorld (update_isPanning true (state w)) (workCanvas w)
            (lastX w) (lastY w)).
Proof.
  intros Hdown. unfold onmousedown.
  assert (Hb : (button down =? 1)
               || ((button down =? 0)
                   && (altKey down || isPanning (state w)
                       || Tool_eqb (currentTool (state w)) hand)) = true).
  { destruct Hdown as [-> | [-> [-> | [-> | ->]]]]; cbn;
      rewrite ?orb_true_r; done. }
  by rewrite Hb.
Qed.

(** X19: a gesture that starts with the middle button, or with the main
    button while Alt is held, panning is on or the hand tool is chosen,
    never touches the canvas and ends with [isDrawing] and [isPanning]
    false.  When no stroke was under way at the press the two stacks are as
    before; when one was, the release saves one snapshot, of the unchanged
    canvas, and empties [redoStack]. *)
Theorem pan_gesture_leaves_picture (fuel : nat) (w : World)
  (down : MouseEvent) (moves : list MouseMoveEvent) :
  button down = 1
  \/ (button down = 0
      /\ (altKey down = true \/ isPanning (state w) = true
          \/ currentTool (state w) = hand)) ->
  exists w',
    gesture fuel w down moves = Some w'
    /\ workCanvas w' = workCanvas w
    /\ isDrawing (state w') = false /\ isPanning (state w') = false
    /\ (isDrawing (state w) = false ->
        history (state w') = history (state w)
        /\ redoStack (state w') = redoStack (state w))
    /\ (isDrawing (state w) = true ->
        history (state w')
        = history (saveHistory (toDataURL (workCanvas w)) (state w))
        /\ redoStack (state w') = []).
Proof.
  intros Hdown. unfold gesture. rewrite (pan_press fuel w down Hdown).
  set (w1 := mkWorld _ _ _ _).
  destruct (drag_panning fuel moves w1)
    as (w2 & -> & Hc & Hh & Hr & Hm & Hd2 & Hp2); [done|].
  unfold onmouseup, execute. cbn [js_lt js_ge orb].
  rewrite Hd2. cbn [state w1 isDrawing update_isPanning].
  destruct (isDrawing (state w)) eqn:Hd.
  - eexists. split; [reflexivity|].
    cbn [save_if_signalled state workCanvas isDrawing isPanning
           update_isPanning update_isDrawing saveHistory set_stacks
           history redoStack maxHistory].
    split; [done|]. split; [done|]. split; [done|]. split; [done|].
    intros _. split; [|done].
    rewrite Hh, Hm, Hc. reflexivity.
  - eexists. split; [reflexivity|].
    cbn [save_if_signalled state workCanvas isDrawing isPanning
           update_isPanning history redoStack].
    rewrite Hd2. cbn [state w1 isDrawing update_isPanning].
    split; [done|]. split; [done|]. split; [done|]. split; [|done].
    intros _. by split.
Qed.

Lemma moved_nonneg l : 0 <= moved l.
Proof. unfold moved. induction l as [|m l IH]; cbn [foldr]; lia. Qed.

Lemma half_integer_slack slack slack' a :
  slack' <= slack -> half_integer slack a -> half_integer slack' a.
Proof. intros Hle (n & E & Hn). exists n. split; [done|lia]. Qed.

Lemma half_integer_add slack a (m : Z) :
  0 <= slack ->
  half_integer (2 * (Z.abs m + slack)) a ->
  half_integer (2 * slack) (a + inject_Z m).
Proof.
  intros Hs (n & E & Hn). exists (n + 2 * m). split; [|lia].
  rewrite E. unfold Qeq, Qplus, inject_Z. cbn. lia.
Qed.

(** While the view is panned and the sums of the engine are exact on the
    half-integers, the pan moves by the sum of the movements. *)
Lemma drag_panning_sum fuel moves :
  (forall a (m : Z),
      half_integer 0 a -> half_integer 0 (a + inject_Z m) ->
      (float_add a (inject_Z m) == a + inject_Z m)%Q) ->
  forall w,
  isPanning (state w) = true ->
  half_integer (2 * moved (map movementX moves)) (panX (state w)) ->
  half_integer (2 * moved (map movementY moves)) (panY (state w)) ->
  exists w',
    drag fuel w moves = Some w'
    /\ (panX (state w')
        == panX (state w) + inject_Z (foldr Z.add 0%Z (map movementX moves)))%Q
    /\ (panY (state w')
        == panY (state w) + inject_Z (foldr Z.add 0%Z (map movementY moves)))%Q.
Proof.
  intros Hexact.
  induction moves as [|e moves IH]; intros w Hp HX HY.
  - exists w. cbn. split; [done|]. split; ring.
  - cbn [drag]. unfold onmousemove. rewrite Hp.
    set (w1 := mkWorld _ _ _ _).
    cbn [map moved foldr] in HX, HY.
    fold (moved (map movementX moves)) in HX.
    fold (moved (map movementY moves)) in HY.
    pose proof (moved_nonneg (map movementX moves)) as HmX.
    pose proof (moved_nonneg (map movementY moves)) as HmY.
    pose proof (half_integer_add _ _ _ HmX HX) as HX1.
    pose proof (half_integer_add _ _ _ HmY HY) as HY1.
    assert (EX : (panX (state w1) == panX (state w) + inject_Z (movementX e))%Q).
    { apply Hexact.
      - eapply half_integer_slack; [|exact HX]. lia.
      - eapply half_integer_slack; [|exact HX1]. lia. }
    assert (EY : (panY (state w1) == panY (state w) + inject_Z (movementY e))%Q).
    { apply Hexact.
      - eapply half_integer_slack; [|exact HY]. lia.
      - eapply half_integer_slack; [|exact HY1]. lia. }
    destruct (IH w1) as (w' & -> & Hx & Hy); [done| | |].
    { destruct HX1 as (n & E & Hn). exists n. split; [by rewrite EX|done]. }
    { destruct HY1 as (n & E & Hn). exists n. split; [by rewrite EY|done]. }
    exists w'. split; [done|].
    cbn [map foldr]. rewrite Hx, Hy, EX, EY, !inject_Z_plus. split; ring.
Qed.

(** X28: in a panning gesture the pan moves by the sum of the mouse
    movements, provided that the sums of the engine are exact on the halves
    of the integers up to [2^53], as binary64 sums are, and that the pan
    starts at such a half-integer, as [autoFit] and [centerOnly] leave it,
    with room below the bound for the distance that the movements
    cover. *)
Theorem pan_gesture_moves_by_sum (fuel : nat) (w : World)
  (down : MouseEvent) (moves : list MouseMoveEvent) :
  button down = 1
  \/ (button down = 0
      /\ (altKey down = true \/ isPanning (state w) = true
          \/ currentTool (state w) = hand)) ->
  (forall a (m : Z),
      half_integer 0 a -> half_integer 0 (a + inject_Z m) ->
      (float_add a (inject_Z m) == a + inject_Z m)%Q) ->
  half_integer (2 * moved (map movementX moves)) (panX (state w)) ->
  half_integer (2 * moved (map movementY moves)) (panY (state w)) ->
  exists w',
    gesture fuel w down moves = Some w'
    /\ (panX (state w')
        == panX (state w) + inject_Z (foldr Z.add 0%Z (map movementX moves)))%Q
    /\ (panY (state w')
        == panY (state w) + inject_Z (foldr Z.add 0%Z (map movementY moves)))%Q.
Proof.
  intros Hdown Hexact HX HY. unfold gesture.
  rewrite (pan_press fuel w down Hdown).
  set (w1 := mkWorld _ _ _ _).
  destruct (drag_panning_sum fuel moves Hexact w1) as (w2 & -> & Hx & Hy);
    [done..|].
  unfold onmouseup, execute. cbn [js_lt js_ge orb].
  destruct (isDrawing (state w2)); eexists; (split; [reflexivity|]);
    cbn [save_if_signalled state panX panY update_isPanning update_isDrawing
           saveHistory set_stacks];
    by split.
Qed.
End Panning.

Lemma pan_gesture_moves_by_sum_witness :
  (panX (autoFit 801 600 (state App_constructor)) == 305 # 2)%Q
  /\ exists w',
       gesture (browser := opaque_browser) (engine := exact_engine) 0
         (mkWorld (autoFit 801 600 (state App_constructor))
            (workCanvas App_constructor) (-1) (-1))
         {| button := 1; altKey := false; cellX := 1; cellY := 1 |}
         [ {| movementX := 3; movementY := -2; moveCellX := 1; moveCellY := 1 |};
           {| movementX := 4; movementY := 7; moveCellX := 2; moveCellY := 2 |} ]
       = Some w'
       /\ (panX (state w') == 319 # 2)%Q
       /\ (panY (state w') == 57)%Q.
Proof.
  split; [vm_compute; reflexivity|].
  destruct (pan_gesture_moves_by_sum (browser := opaque_browser)
              (engine := exact_engine) 0
              (mkWorld (autoFit 801 600 (state App_constructor))
                 (workCanvas App_constructor) (-1) (-1))
              {| button := 1; altKey := false; cellX := 1; cellY := 1 |}
              [ {| movementX := 3; movementY := -2; moveCellX := 1; moveCellY := 1 |};
                {| movementX := 4; movementY := 7; moveCellX := 2; moveCellY := 2 |} ])
    as (w' & Hg & Hx & Hy).
  - left. reflexivity.
  - intros a m _ _. apply Qeq_refl.
  - exists 305. split; [vm_compute; reflexivity|vm_compute; discriminate].
  - exists 104. split; [vm_compute; reflexivity|vm_compute; discriminate].
  - exists w'. split; [exact Hg|].
    split; [rewrite Hx|rewrite Hy]; vm_compute; reflexivity.
Defined.

Lemma pan_gesture_leaves_picture_witness :
  exists w',
    gesture (browser := opaque_browser) (engine := exact_engine) 0
      (mkWorld (set_stacks [toDataURL block_canvas] [dot_snapshot]
                  (small_state hand "#ff0000" 1))
         block_canvas (-1) (-1))
      {| button := 0; altKey := false; cellX := 1; cellY := 1 |}
      [ {| movementX := 3; movementY := -2; moveCellX := 1; moveCellY := 1 |};
        {| movementX := 4; movementY := 7; moveCellX := 2; moveCellY := 2 |} ]
    = Some w'
    /\ workCanvas w' = block_canvas
    /\ isDrawing (state w') = false /\ isPanning (state w') = false
    /\ history (state w') = [toDataURL block_canvas]
    /\ redoStack (state w') = [dot_snapshot].
Proof.
  destruct (pan_gesture_leaves_picture (browser := opaque_browser)
              (engine := exact_engine) 0
              (mkWorld (set_stacks [toDataURL block_canvas] [dot_snapshot]
                          (small_state hand "#ff0000" 1))
                 block_canvas (-1) (-1))
              {| button := 0; altKey := false; cellX := 1; cellY := 1 |}
              [ {| movementX := 3; movementY := -2; moveCellX := 1; moveCellY := 1 |};
                {| movementX := 4; movementY := 7; moveCellX := 2; moveCellY := 2 |} ])
    as (w' & Hg & Hc & Hd & Hp & Hidle & _).
  - right. split; [reflexivity|]. right. right. reflexivity.
  - exists w'. destruct (Hidle eq_refl) as [Hh Hr].
    split; [exact Hg|]. split; [exact Hc|]. split; [exact Hd|].
    split; [exact Hp|]. split; [exact Hh|exact Hr].
Defined.

(** ** The viewport *)

Lemma Qfloor_Qmin a b : Qfloor (Qmin a b) = Z.min (Qfloor a) (Qfloor b).
Proof.
  destruct (Q.min_spec a b) as [[Hlt E]|[Hle E]]; rewrite E.
  - pose proof (Qfloor_resp_le a b (Qlt_le_weak _ _ Hlt)). lia.
  - pose proof (Qfloor_resp_le b a Hle). lia.
Qed.

Lemma fit_zoom_value s vw vh padding :
  fit_zoom (calculateFit s vw vh padding)
  = Z.max 1 (Z.min 100 (Z.min (Z.max 10 (vw - padding) / width s)
                              (Z.max 10 (vh - padding) / height s))).
Proof.
  unfold calculateFit. cbn [fit_zoom].
  by rewrite Qfloor_Qmin, <- !Zdiv_Qdiv.
Qed.

(** X20: the zoom of [calculateFit] lies between 1 and 100.  When the grid
    fits the available area at zoom 1 it fits at the chosen zoom, and unless
    the zoom is 100 the next larger zoom would not fit. *)
Theorem calculateFit_largest_zoom (s : State) (vw vh padding : Z) :
  0 < width s -> 0 < height s ->
  let aW := Z.max 10 (vw - padding) in
  let aH := Z.max 10 (vh - padding) in
  let z := fit_zoom (calculateFit s vw vh padding) in
  1 <= z <= 100
  /\ (width s <= aW -> height s <= aH ->
      width s * z <= aW /\ height s * z <= aH)
  /\ (z < 100 -> aW < width s * (z + 1) \/ aH < height s * (z + 1)).
Proof.
  intros HW HH aW aH z. subst z. rewrite fit_zoom_value. fold aW aH.
  pose proof (Z.div_mod aW (width s)) as EW.
  pose proof (Z.mod_pos_bound aW (width s) HW) as BW.
  pose proof (Z.div_mod aH (height s)) as EH.
  pose proof (Z.mod_pos_bound aH (height s) HH) as BH.
  set (qw := aW / width s) in *. set (qh := aH / height s) in *.
  split; [lia|]. split.
  - intros Hw Hh.
    assert (1 <= qw) by nia. assert (1 <= qh) by nia.
    assert (Z.max 1 (Z.min 100 (Z.min qw qh)) <= qw) by lia.
    assert (Z.max 1 (Z.min 100 (Z.min qw qh)) <= qh) by lia.
    split; nia.
  - intros Hz.
    assert (Hm : Z.min qw qh <= Z.max 1 (Z.min 100 (Z.min qw qh))) by lia.
    destruct (Z.min_spec qw qh) as [[_ E]|[_ E]]; rewrite E in Hm;
      [left|right]; nia.
Qed.

Lemma calculateFit_largest_zoom_witness :
  1 <= fit_zoom (calculateFit State_constructor 800 600 100) <= 100
  /\ (16 <= Z.max 10 (800 - 100) -> 16 <= Z.max 10 (600 - 100) ->
      16 * fit_zoom (calculateFit State_constructor 800 600 100)
      <= Z.max 10 (800 - 100)
      /\ 16 * fit_zoom (calculateFit State_constructor 800 600 100)
         <= Z.max 10 (600 - 100))
  /\ (fit_zoom (calculateFit State_constructor 800 600 100) < 100 ->
      Z.max 10 (800 - 100)
      < 16 * (fit_zoom (calculateFit State_constructor 800 600 100) + 1)
      \/ Z.max 10 (600 - 100)
         < 16 * (fit_zoom (calculateFit State_constructor 800 600 100) + 1)).
Proof.
  apply (calculateFit_largest_zoom State_constructor 800 600 100); simpl; lia.
Defined.

Lemma autoFit_view vw vh s :
  (vw =? 0) || (vh =? 0) = false ->
  autoFit vw vh s
  = update_view (inject_Z (fit_zoom (calculateFit s vw vh 100)))
      (inject_Z (vw - width s * fit_zoom (calculateFit s vw vh 100)) / 2)%Q
      (inject_Z (vh - height s * fit_zoom (calculateFit s vw vh 100)) / 2)%Q s.
Proof. intros E. unfold autoFit. by rewrite E. Qed.

Lemma Qfloor_half (k : Z) :
  2 * Qfloor (inject_Z k / 2) <= k <= 2 * Qfloor (inject_Z k / 2) + 1.
Proof.
  change (inject_Z k / 2)%Q with (inject_Z k / inject_Z 2)%Q.
  rewrite <- Zdiv_Qdiv.
  pose proof (Z.div_mod k 2). pose proof (Z.mod_pos_bound k 2). lia.
Qed.

(** X21: [autoFit] centres the display canvas: [centerOnly] right after it
    changes nothing and a second [autoFit] changes nothing.  With a viewport
    that is not empty the pan fields are half of the space that the display
    canvas leaves free in the viewport, and the translation that
    [applyTransform] applies is that half rounded down. *)
Theorem centerOnly_after_autoFit (vw vh : Z) (s : State) :
  let s' := autoFit vw vh s in
  centerOnly vw vh (syncDisplaySize s').1 (syncDisplaySize s').2 s' = s'
  /\ autoFit vw vh s' = s'
  /\ (vw <> 0 -> vh <> 0 ->
      (panX s' + inject_Z (syncDisplaySize s').1 + panX s' == inject_Z vw)%Q
      /\ (panY s' + inject_Z (syncDisplaySize s').2 + panY s' == inject_Z vh)%Q
      /\ 2 * (applyTransform s').1 <= vw - (syncDisplaySize s').1
         <= 2 * (applyTransform s').1 + 1
      /\ 2 * (applyTransform s').2 <= vh - (syncDisplaySize s').2
         <= 2 * (applyTransform s').2 + 1).
Proof.
  intros s'. subst s'.
  destruct ((vw =? 0) || (vh =? 0)) eqn:E.
  - unfold autoFit, centerOnly. rewrite !E. split; [done|]. split; [done|].
    intros Hw Hh. apply orb_true_iff in E. destruct E as [E|E]; apply Z.eqb_eq in E; lia.
  - rewrite (autoFit_view vw vh s E).
    assert (Hz : 1 <= fit_zoom (calculateFit s vw vh 100)).
    { rewrite fit_zoom_value. lia. }
    set (z := fit_zoom (calculateFit s vw vh 100)) in *.
    assert (Hd : syncDisplaySize
                   (update_view (inject_Z z) (inject_Z (vw - width s * z) / 2)%Q
                      (inject_Z (vh - height s * z) / 2)%Q s)
                 = (width s * z, height s * z)).
    { unfold syncDisplaySize. cbn [zoom update_view width height].
      rewrite Qfloor_Z. by rewrite Z.max_r by lia. }
    rewrite Hd. cbn [fst snd]. split; [|split].
    + unfold centerOnly. by rewrite E.
    + rewrite autoFit_view by done. reflexivity.
    + intros _ _. unfold applyTransform. cbn [panX panY update_view fst snd].
      split; [|split; [|split; apply Qfloor_half]];
        unfold Qeq, Qplus, Qdiv, Qmult, Qinv, inject_Z; cbn; lia.
Qed.

Lemma centerOnly_after_autoFit_witness :
  syncDisplaySize (autoFit 801 600 State_constructor) = (496, 496)
  /\ (panX (autoFit 801 600 State_constructor) == 305 # 2)%Q
  /\ applyTransform (autoFit 801 600 State_constructor) = (152, 52)
  /\ centerOnly 801 600 496 496 (autoFit 801 600 State_constructor)
     = autoFit 801 600 State_constructor
  /\ 2 * 152 <= 801 - 496 <= 2 * 152 + 1.
Proof.
  destruct (centerOnly_after_autoFit 801 600 State_constructor)
    as (Hcentre & _ & Hoffset).
  destruct Hoffset as (_ & _ & Hx & _); [discriminate|discriminate|].
  split; [reflexivity|]. split; [vm_compute; reflexivity|].
  split; [reflexivity|]. split; [exact Hcentre|exact Hx].
Defined.

Lemma App_constructor_synced :
  synced (state App_constructor) (workCanvas App_constructor).
Proof. repeat split; reflexivity. Qed.

(** ** Resizing, restoring and importing *)

Lemma canvas_get_blank w h i j : canvas_get (blank_canvas w h) i j = transparent.
Proof.
  unfold canvas_get, blank_canvas. cbn [cv_width cv_height cv_pixels].
  destruct ((0 <=? i) && (i <? w) && (0 <=? j) && (j <? h)); [|done].
  destruct (replicate _ _ !! _) as [p|] eqn:E; [|done].
  apply lookup_replicate in E as [-> _]. done.
Qed.

Lemma canvas_get_outside c i j :
  ~ in_grid (cv_width c) (cv_height c) i j -> canvas_get c i j = transparent.
Proof.
  intros Hout. unfold canvas_get.
  destruct (Z.leb_spec 0 i); [|done]. destruct (Z.ltb_spec i (cv_width c)); [|done].
  destruct (Z.leb_spec 0 j); [|done]. destruct (Z.ltb_spec j (cv_height c)); [|done].
  exfalso. apply Hout. unfold in_grid. lia.
Qed.

(** Two canvases of one size with the same pixel in every cell hold the
    same data. *)
Lemma canvas_pixels_ext c1 c2 :
  cv_width c1 = cv_width c2 -> cv_height c1 = cv_height c2 ->
  0 < cv_width c1 ->
  length (cv_pixels c1) = Z.to_nat (cv_width c1 * cv_height c1) ->
  length (cv_pixels c2) = Z.to_nat (cv_width c1 * cv_height c1) ->
  (forall i j, in_grid (cv_width c1) (cv_height c1) i j ->
               canvas_get c1 i j = canvas_get c2 i j) ->
  cv_pixels c1 = cv_pixels c2.
Proof.
  intros Hw Hh HW Hl1 Hl2 Hget.
  apply list_eq_same_length with (n := Z.to_nat (cv_width c1 * cv_height c1));
    [done..|].
  intros k p q Hk Hp Hq.
  set (x := Z.of_nat k mod cv_width c1). set (y := Z.of_nat k / cv_width c1).
  assert (Hxy : Z.of_nat k = y * cv_width c1 + x).
  { subst x y. pose proof (Z.div_mod (Z.of_nat k) (cv_width c1)). lia. }
  assert (Hx : 0 <= x < cv_width c1) by (apply Z.mod_pos_bound; lia).
  assert (Hy : 0 <= y < cv_height c1).
  { split; [apply Z.div_pos; lia|]. apply Z.div_lt_upper_bound; lia. }
  specialize (Hget x y (conj Hx Hy)).
  unfold canvas_get in Hget. rewrite <- Hw, <- Hh in Hget.
  destruct (Z.leb_spec 0 x); [|lia]. destruct (Z.ltb_spec x (cv_width c1)); [|lia].
  destruct (Z.leb_spec 0 y); [|lia]. destruct (Z.ltb_spec y (cv_height c1)); [|lia].
  cbn [andb] in Hget. rewrite <- Hxy, Nat2Z.id, Hp, Hq in Hget. done.
Qed.

Section Images.
Context {browser : Canvas2D} {engine : Float64}.

Lemma canvas_get_drawImage c src i j :
  length (cv_pixels c) = Z.to_nat (cv_width c * cv_height c) ->
  in_grid (cv_width c) (cv_height c) i j ->
  canvas_get (drawImage c src) i j
  = if (i <? cv_width src) && (j <? cv_height src)
    then sourceOver (canvas_get src i j) (canvas_get c i j)
    else canvas_get c i j.
Proof.
  intros Hl Hin. pose proof (cell_index_range _ _ _ _ Hin) as Hr.
  unfold canvas_get at 1 3 4, drawImage.
  cbn [cv_width cv_height cv_pixels set_pixels].
  destruct Hin as [Hi Hj].
  destruct (Z.leb_spec 0 i); [|lia]. destruct (Z.ltb_spec i (cv_width c)); [|lia].
  destruct (Z.leb_spec 0 j); [|lia]. destruct (Z.ltb_spec j (cv_height c)); [|lia].
  cbn [andb]. rewrite list_lookup_imap.
  destruct (lookup_lt_is_Some_2 (cv_pixels c) (Z.to_nat (j * cv_width c + i)))
    as [p Hp]; [lia|].
  rewrite Hp. cbn. rewrite Z2Nat.id by lia.
  rewrite cell_index_mod, cell_index_div by lia.
  by destruct ((i <? cv_width src) && (j <? cv_height src)).
Qed.

(** An image drawn on a canvas that was just resized shows through
    unchanged, cut at the edges of the canvas. *)
Lemma canvas_get_drawImage_fresh w h src i j :
  (forall p, sourceOver p transparent = p) ->
  in_grid w h i j ->
  canvas_get (drawImage (resize_canvas w h) src) i j = canvas_get src i j.
Proof.
  intros Hover Hin.
  assert (0 <= w * h) by (destruct Hin; nia).
  rewrite canvas_get_drawImage; cbn [resize_canvas blank_canvas cv_width cv_height cv_pixels];
    [|rewrite length_replicate; lia|done].
  fold (blank_canvas w h). rewrite canvas_get_blank.
  destruct (Z.ltb_spec i (cv_width src)); cbn [andb].
  - destruct (Z.ltb_spec j (cv_height src)); [apply Hover|].
    symmetry. apply canvas_get_outside. unfold in_grid. lia.
  - symmetry. apply canvas_get_outside. unfold in_grid. lia.
Qed.

Lemma length_drawImage_fresh w h src :
  length (cv_pixels (drawImage (resize_canvas w h) src)) = Z.to_nat (w * h).
Proof.
  unfold drawImage, resize_canvas, blank_canvas.
  cbn [cv_pixels set_pixels]. by rewrite length_imap, length_replicate.
Qed.

Lemma drawImage_fresh_synced s src :
  0 < width s -> 0 < height s ->
  synced s (drawImage (resize_canvas (width s) (height s)) src).
Proof.
  intros HW HH. repeat split; try done.
  cbn. by rewrite length_imap, length_replicate.
Qed.

(** Decoding a snapshot onto a canvas of its size gives a canvas that
    encodes to the same snapshot. *)
Lemma load_snapshot snap :
  (forall p, sourceOver p transparent = p) ->
  snapshot_wf snap ->
  toDataURL (drawImage (resize_canvas (snap_width snap) (snap_height snap))
               (image_of snap)) = snap.
Proof.
  intros Hover (HW & HH & Hl). destruct snap as [W H data]. cbn in *.
  unfold toDataURL. cbn [cv_width cv_height drawImage set_pixels resize_canvas
                           blank_canvas cv_pixels].
  f_equal.
  change (imap _ _) with
    (cv_pixels (drawImage (resize_canvas W H) (image_of (Build_Snapshot W H data)))).
  change data with (cv_pixels (image_of (Build_Snapshot W H data))) at 2.
  apply canvas_pixels_ext; cbn [cv_width cv_height drawImage set_pixels
      resize_canvas blank_canvas image_of snap_width snap_height snap_data
      cv_pixels]; try done.
  - by rewrite length_imap, length_replicate.
  - intros i j Hin.
    exact (canvas_get_drawImage_fresh W H
             (image_of (Build_Snapshot W H data)) i j Hover Hin).
Qed.

Lemma toDataURL_wf s c : synced s c -> snapshot_wf (toDataURL c).
Proof.
  intros (Hw & Hh & HW & HH & Hl). unfold snapshot_wf. cbn.
  rewrite Hw, Hh. by repeat split.
Qed.

Lemma undo_onclick_snoc w h prev top :
  history (state w) = h ++ [prev; top] ->
  undo_onclick w
  = loadStateToWorkCanvas prev
      (mkWorld (set_stacks (h ++ [prev]) (redoStack (state w) ++ [top]) (state w))
         (workCanvas w) (lastX w) (lastY w)).
Proof. intros E. unfold undo_onclick. by rewrite (performUndo_snoc _ _ _ _ E). Qed.

(** After a snapshot is saved on top of the one that shows the canvas, the
    two are the last entries of the history. *)
Lemma saveHistory_on_top d s prev :
  last (history s) = Some prev -> 2 <= maxHistory s ->
  exists h, history (saveHistory d s) = h ++ [prev; d].
Proof.
  intros Hlast Hmax.
  destruct (exists_last (l := history s)) as [h [x E]].
  { intros E. by rewrite E in Hlast. }
  rewrite E, last_snoc in Hlast. injection Hlast as ->.
  unfold saveHistory. cbn [history set_stacks]. rewrite E, <- app_assoc.
  cbn [app].
  destruct (Z.gtb_spec (Z.of_nat (length (h ++ [prev; d]))) (maxHistory s))
    as [G|G]; [|by exists h].
  destruct h as [|y h]; [|by exists h].
  cbn [app length] in G. lia.
Qed.

(** Undo right after a save brings back the picture that the canvas showed
    before the change. *)
Lemma undo_after_commit w' w :
  (forall p, sourceOver p transparent = p) ->
  synced (state w) (workCanvas w) ->
  last (history (state w)) = Some (toDataURL (workCanvas w)) ->
  2 <= maxHistory (state w) ->
  history (state w')
  = history (saveHistory (toDataURL (workCanvas w')) (state w)) ->
  toDataURL (workCanvas (undo_onclick w')) = toDataURL (workCanvas w).
Proof.
  intros Hover Hs Hlast Hmax Hh.
  destruct (saveHistory_on_top (toDataURL (workCanvas w')) _ _ Hlast Hmax)
    as [h E].
  rewrite <- Hh in E. rewrite (undo_onclick_snoc _ _ _ _ E).
  unfold loadStateToWorkCanvas. cbn [workCanvas].
  apply (load_snapshot (toDataURL (workCanvas w)) Hover).
  by apply (toDataURL_wf (state w)).
Qed.


(** X23: importing an image of at most 320 by 320 pixels makes the work
    canvas a copy of the image and the grid as large, and saves the image as
    the newest snapshot with [redoStack] emptied. *)
Theorem importPNG_onload_copies (vw vh : Z) (img : Canvas) (w : World) :
  (forall p, sourceOver p transparent = p) ->
  0 < cv_width img <= 320 -> 0 < cv_height img <= 320 ->
  length (cv_pixels img) = Z.to_nat (cv_width img * cv_height img) ->
  1 <= maxHistory (state w) ->
  let w' := importPNG_onload vw vh img w in
  synced (state w') (workCanvas w')
  /\ toDataURL (workCanvas w') = toDataURL img
  /\ last (history (state w')) = Some (toDataURL img)
  /\ redoStack (state w') = [].
Proof.
  intros Hover HW HH Hl Hmax w'. subst w'. unfold importPNG_onload.
  destruct (Z.gtb_spec (cv_width img) 320); [lia|].
  destruct (Z.gtb_spec (cv_height img) 320); [lia|]. cbn [orb].
  set (iw := cv_width img) in *. set (ih := cv_height img) in *.
  set (c0 := clearRect (resize_canvas iw ih) 0 0 iw ih).
  assert (Ec0 : c0 = resize_canvas iw ih).
  { subst c0. unfold clearRect, map_rect, resize_canvas, blank_canvas, set_pixels.
    cbn [cv_width cv_height cv_pixels cv_fillStyle]. f_equal.
    apply list_eq_same_length with (n := Z.to_nat (iw * ih)).
    - by rewrite length_replicate.
    - by rewrite length_imap, length_replicate.
    - intros k p q Hk Hp Hq. rewrite list_lookup_imap in Hp.
      apply lookup_replicate in Hq as [-> _].
      destruct (replicate _ _ !! k) as [p'|] eqn:E; [|done].
      apply lookup_replicate in E as [-> _]. cbn in Hp.
      destruct (in_rect _ _ _ _ _ _); congruence. }
  rewrite Ec0.
  set (c := drawImage (resize_canvas iw ih) img).
  set (s1 := autoFit vw vh (update_size iw ih (state w))).
  assert (Hs1 : width s1 = iw /\ height s1 = ih
                /\ maxHistory s1 = maxHistory (state w)).
  { subst s1. unfold autoFit. by destruct ((vw =? 0) || (vh =? 0)). }
  destruct Hs1 as (Ew & Eh & Emax).
  assert (Ec : toDataURL c = toDataURL img).
  { pose proof (load_snapshot (toDataURL img) Hover) as Hload.
    unfold image_of in Hload. cbn [toDataURL snap_width snap_height snap_data] in Hload.
    fold iw ih in Hload.
    assert (Hpix : cv_pixels c = cv_pixels img).
    { subst c. apply canvas_pixels_ext; cbn [cv_width cv_height drawImage
         set_pixels resize_canvas blank_canvas cv_pixels]; try done; try lia.
      - by rewrite length_imap, length_replicate.
      - intros i j Hin. by apply canvas_get_drawImage_fresh. }
    unfold toDataURL. rewrite Hpix. subst c. reflexivity. }
  unfold saveHistory, synced.
  cbn [state workCanvas set_stacks width height history redoStack].
  rewrite Ew, Eh, Ec.
  split; [|split; [done|split; [|done]]].
  - repeat split; try lia. subst c. apply length_drawImage_fresh.
  - rewrite Emax.
    destruct (Z.gtb_spec (Z.of_nat (length (history s1 ++ [toDataURL img])))
                (maxHistory (state w))) as [G|G]; [|by rewrite last_snoc].
    destruct (history s1) as [|x l]; [cbn [app length] in G; lia|].
    cbn [app shift tl]. by rewrite last_snoc.
Qed.

(** X24: when the newest snapshot shows the canvas, the undo button puts
    the snapshot before it on the canvas, with the grid resized to it, and
    the redo button after that restores the state and the picture. *)
Theorem undo_redo_buttons_round_trip (w : World) (h : list Snapshot)
  (prev : Snapshot) :
  (forall p, sourceOver p transparent = p) ->
  synced (state w) (workCanvas w) ->
  snapshot_wf prev ->
  history (state w) = h ++ [prev; toDataURL (workCanvas w)] ->
  let w1 := undo_onclick w in
  toDataURL (workCanvas w1) = prev
  /\ synced (state w1) (workCanvas w1)
  /\ state (redo_onclick w1) = state w
  /\ toDataURL (workCanvas (redo_onclick w1)) = toDataURL (workCanvas w).
Proof.
  intros Hover Hs Hwf Hh w1. subst w1.
  rewrite (undo_onclick_snoc _ _ _ _ Hh).
  set (s1 := set_stacks _ _ _).
  unfold loadStateToWorkCanvas at 1 2.
  cbn [workCanvas state image_of cv_width cv_height].
  split; [by apply load_snapshot|]. split.
  { destruct Hwf as (HW & HH & _).
    apply (drawImage_fresh_synced (update_size (snap_width prev) (snap_height prev) s1));
      done. }
  unfold redo_onclick.
  set (w1 := loadStateToWorkCanvas prev _).
  assert (Hr : redoStack (state w1)
               = redoStack (state w) ++ [toDataURL (workCanvas w)]) by done.
  rewrite (performRedo_snoc _ _ _ Hr).
  unfold loadStateToWorkCanvas. cbn [state workCanvas image_of cv_width cv_height].
  split.
  - destruct Hs as (Hw & Hh' & _).
    subst w1 s1. cbn [state loadStateToWorkCanvas update_size set_stacks history
                        width height zoom panX panY currentColor currentTool
                        brushSize settingsVisible isDrawing isPanning redoStack
                        maxHistory toDataURL snap_width snap_height].
    rewrite <- app_assoc. cbn [app]. rewrite <- Hh, Hw, Hh'. by destruct (state w).
  - apply (load_snapshot (toDataURL (workCanvas w)) Hover).
    by apply (toDataURL_wf (state w)).
Qed.

(** X25: when the newest snapshot shows the canvas, a pencil or eraser
    stroke leaves the newest snapshot showing the canvas again, and the undo
    button after the stroke brings back the picture from before it. *)
Theorem stroke_then_undo (fuel : nat) (w : World) (x y : Z)
  (moves : list MouseMoveEvent) :
  (forall p, sourceOver p transparent = p) ->
  currentTool (state w) = pencil \/ currentTool (state w) = eraser ->
  isPanning (state w) = false ->
  synced (state w) (workCanvas w) ->
  last (history (state w)) = Some (toDataURL (workCanvas w)) ->
  2 <= maxHistory (state w) ->
  in_grid (width (state w)) (height (state w)) x y ->
  (Z.to_nat (width (state w) + height (state w)) <= fuel)%nat ->
  exists w',
    gesture fuel w {| button := 0; altKey := false; cellX := x; cellY := y |}
      moves = Some w'
    /\ last (history (state w')) = Some (toDataURL (workCanvas w'))
    /\ toDataURL (workCanvas (undo_onclick w')) = toDataURL (workCanvas w).
Proof.
  intros Hover Htool Hpan Hs Hlast Hmax Hin Hfuel.
  destruct (stroke_commits fuel w x y moves Htool Hpan Hin Hfuel)
    as (w' & Hg & _ & Hh & _).
  exists w'. split; [done|]. split.
  - destruct (saveHistory_on_top (toDataURL (workCanvas w')) _ _ Hlast Hmax)
      as [h E].
    rewrite Hh, E.
    replace (h ++ [toDataURL (workCanvas w); toDataURL (workCanvas w')])
      with ((h ++ [toDataURL (workCanvas w)]) ++ [toDataURL (workCanvas w')])
      by (by rewrite <- app_assoc).
    apply last_snoc.
  - by apply undo_after_commit.
Qed.

(** X26: the reset leaves every pixel transparent and the grid as large
    as before; when the newest snapshot showed the canvas, the undo button
    after the reset brings the picture back. *)
Theorem confirm_reset_ok_clears (w : World) :
  (forall p, sourceOver p transparent = p) ->
  synced (state w) (workCanvas w) ->
  last (history (state w)) = Some (toDataURL (workCanvas w)) ->
  2 <= maxHistory (state w) ->
  let w' := confirm_reset_ok w in
  (forall i j, canvas_get (workCanvas w') i j = transparent)
  /\ synced (state w') (workCanvas w')
  /\ toDataURL (workCanvas (undo_onclick w')) = toDataURL (workCanvas w).
Proof.
  intros Hover Hs Hlast Hmax w'. subst w'.
  pose proof Hs as (Hw & Hh & HW & HH & Hl).
  split; [|split].
  - intros i j. unfold confirm_reset_ok. cbn [workCanvas].
    destruct (decide (in_grid (cv_width (workCanvas w)) (cv_height (workCanvas w)) i j))
      as [Hin|Hout].
    + unfold clearRect. rewrite canvas_get_map_rect; [|by rewrite Hw, Hh|done].
      unfold in_rect. destruct Hin as [Hi Hj].
      rewrite !Z.add_0_l, !Z.min_l, !Z.max_r by lia.
      destruct (Z.leb_spec 0 i); [|lia].
      destruct (Z.ltb_spec i (cv_width (workCanvas w))); [|lia].
      destruct (Z.leb_spec 0 j); [|lia].
      destruct (Z.ltb_spec j (cv_height (workCanvas w))); [|lia]. done.
    + by apply canvas_get_outside.
  - unfold confirm_reset_ok. cbn [state workCanvas saveHistory set_stacks].
    repeat split; try done. cbn. by rewrite length_imap.
  - by apply undo_after_commit.
Qed.
End Images.

Lemma confirm_reset_ok_clears_witness :
  canvas_get block_canvas 1 1 = opaque_blue
  /\ (forall i j,
        canvas_get
          (workCanvas
             (confirm_reset_ok
                (mkWorld (set_stacks [toDataURL block_canvas] []
                            (small_state pencil "#ff0000" 1))
                   block_canvas (-1) (-1)))) i j
        = transparent)
  /\ synced
       (state
          (confirm_reset_ok
             (mkWorld (set_stacks [toDataURL block_canvas] []
                         (small_state pencil "#ff0000" 1))
                block_canvas (-1) (-1))))
       (workCanvas
          (confirm_reset_ok
             (mkWorld (set_stacks [toDataURL block_canvas] []
                         (small_state pencil "#ff0000" 1))
                block_canvas (-1) (-1))))
  /\ toDataURL
       (workCanvas
          (undo_onclick (browser := opaque_browser)
             (confirm_reset_ok
                (mkWorld (set_stacks [toDataURL block_canvas] []
                            (small_state pencil "#ff0000" 1))
                   block_canvas (-1) (-1)))))
     = toDataURL block_canvas.
Proof.
  split; [reflexivity|].
  apply (confirm_reset_ok_clears (browser := opaque_browser)
           (mkWorld (set_stacks [toDataURL block_canvas] []
                       (small_state pencil "#ff0000" 1))
              block_canvas (-1) (-1)));
    [reflexivity | repeat split; reflexivity | reflexivity | simpl; lia].
Defined.

Lemma stroke_then_undo_witness :
  exists w',
    gesture (browser := opaque_browser) (engine := exact_engine) 32 App_constructor
      {| button := 0; altKey := false; cellX := 1; cellY := 1 |}
      [ {| movementX := 30; movementY := 60; moveCellX := 2; moveCellY := 3 |} ]
    = Some w'
    /\ last (history (state w')) = Some (toDataURL (workCanvas w'))
    /\ toDataURL (workCanvas (undo_onclick (browser := opaque_browser) w'))
       = toDataURL (workCanvas App_constructor).
Proof.
  apply (stroke_then_undo (browser := opaque_browser) (engine := exact_engine) 32 App_constructor 1 1);
    [reflexivity | left; reflexivity | reflexivity | apply App_constructor_synced
    | reflexivity | simpl; lia | unfold in_grid; simpl; lia | vm_compute; lia].
Defined.

Lemma undo_redo_buttons_round_trip_witness :
  toDataURL
    (workCanvas
       (undo_onclick (browser := opaque_browser)
          (mkWorld
             (set_stacks [toDataURL (blank_canvas 2 2); toDataURL block_canvas] []
                (small_state pencil "#ff0000" 1))
             block_canvas (-1) (-1))))
  = toDataURL (blank_canvas 2 2)
  /\ synced
       (state
          (undo_onclick (browser := opaque_browser)
             (mkWorld
                (set_stacks [toDataURL (blank_canvas 2 2); toDataURL block_canvas]
                   [] (small_state pencil "#ff0000" 1))
                block_canvas (-1) (-1))))
       (workCanvas
          (undo_onclick (browser := opaque_browser)
             (mkWorld
                (set_stacks [toDataURL (blank_canvas 2 2); toDataURL block_canvas]
                   [] (small_state pencil "#ff0000" 1))
                block_canvas (-1) (-1))))
  /\ state
       (redo_onclick (browser := opaque_browser)
          (undo_onclick (browser := opaque_browser)
             (mkWorld
                (set_stacks [toDataURL (blank_canvas 2 2); toDataURL block_canvas]
                   [] (small_state pencil "#ff0000" 1))
                block_canvas (-1) (-1))))
     = set_stacks [toDataURL (blank_canvas 2 2); toDataURL block_canvas] []
         (small_state pencil "#ff0000" 1)
  /\ toDataURL
       (workCanvas
          (redo_onclick (browser := opaque_browser)
             (undo_onclick (browser := opaque_browser)
                (mkWorld
                   (set_stacks
                      [toDataURL (blank_canvas 2 2); toDataURL block_canvas] []
                      (small_state pencil "#ff0000" 1))
                   block_canvas (-1) (-1)))))
     = toDataURL block_canvas.
Proof.
  apply (undo_redo_buttons_round_trip (browser := opaque_browser)
           (mkWorld
              (set_stacks [toDataURL (blank_canvas 2 2); toDataURL block_canvas] []
                 (small_state pencil "#ff0000" 1))
              block_canvas (-1) (-1))
           [] (toDataURL (blank_canvas 2 2)));
    [reflexivity | repeat split; reflexivity | repeat split; reflexivity
    | reflexivity].
Defined.

Lemma importPNG_onload_copies_witness :
  synced (state (importPNG_onload (browser := opaque_browser) 800 600
                   block_canvas App_constructor))
    (workCanvas (importPNG_onload (browser := opaque_browser) 800 600
                   block_canvas App_constructor))
  /\ toDataURL (workCanvas (importPNG_onload (browser := opaque_browser) 800 600
                              block_canvas App_constructor))
     = toDataURL block_canvas
  /\ last (history (state (importPNG_onload (browser := opaque_browser) 800 600
                             block_canvas App_constructor)))
     = Some (toDataURL block_canvas)
  /\ redoStack (state (importPNG_onload (browser := opaque_browser) 800 600
                         block_canvas App_constructor)) = [].
Proof.
  apply (importPNG_onload_copies (browser := opaque_browser) 800 600 block_canvas
           App_constructor);
    [reflexivity | simpl; lia | simpl; lia | reflexivity | simpl; lia].
Defined.

